(** * read_many_files and hierarchical memory discovery

    A shallow embedding of two modules of the repository's core package,

    - [packages/core/src/tools/read-many-files.ts] (the [ReadManyFilesTool]),
    - [packages/core/src/utils/memoryDiscovery.ts] (the context file loader),

    together with the statements of the design document that concern them.

    Conventions.  A JavaScript string is a [string]; one [ascii] stands for
    one UTF-16 code unit (code units above 255 are out of the model).  A
    JavaScript number that the code uses as a count, a size or a limit is a
    [Z].  An array is a [list]; [push] appends at the end.  A [Set<string>]
    is a duplicate-free [list] in insertion order.  Everything the two
    modules import from elsewhere (the file system, [glob], the workspace
    context, the ignore service, the import processor, Node's [path]
    functions that depend on the process) is a field of a record of
    collaborators, so that every function below is a function of its
    arguments and of those collaborators only. *)

From Stdlib Require Import String Ascii List ZArith Lia Bool Arith.
From Stdlib Require Import ListSet Permutation Sorted DecimalString.
From Stdlib Require Import OrdersEx RelationClasses.
Import ListNotations.

Open Scope string_scope.
Open Scope list_scope.

(** String concatenation, as a template literal or [+] writes it; [++] is
    kept for arrays. *)
Infix "+:+" := String.append (at level 60, right associativity).

(** ** JavaScript built-ins used by the two modules *)

Module Js.

(** [s.includes(sub)]: [sub] occurs somewhere in [s]. *)
Fixpoint includes (s sub : string) : bool :=
  String.prefix sub s ||
  match s with
  | EmptyString => false
  | String _ s' => includes s' sub
  end.

(** The code units below 256 that have a lower case form: [A]-[Z] and the
    Latin-1 capitals (all of 192-222 but the multiplication sign, 215);
    the lower case form is 32 above. *)
Definition isUpper (c : ascii) : bool :=
  let n := nat_of_ascii c in
  ((65 <=? n)%nat && (n <=? 90)%nat) ||
  ((192 <=? n)%nat && (n <=? 222)%nat && negb (n =? 215)%nat).

Definition lowerChar (c : ascii) : ascii :=
  if isUpper c then ascii_of_nat (nat_of_ascii c + 32) else c.

(** [s.toLowerCase()]. *)
Fixpoint toLowerCase (s : string) : string :=
  match s with
  | EmptyString => EmptyString
  | String c s' => String (lowerChar c) (toLowerCase s')
  end.

(** White space as [String.prototype.trim] sees it, below code unit 256:
    TAB, LF, VT, FF, CR, SPACE and NBSP. *)
Definition isWhiteSpace (c : ascii) : bool :=
  let n := nat_of_ascii c in
  ((9 <=? n)%nat && (n <=? 13)%nat) || (n =? 32)%nat || (n =? 160)%nat.

Fixpoint dropWhile {A} (f : A -> bool) (l : list A) : list A :=
  match l with
  | [] => []
  | x :: l' => if f x then dropWhile f l' else l
  end.

Fixpoint takeWhile {A} (f : A -> bool) (l : list A) : list A :=
  match l with
  | [] => []
  | x :: l' => if f x then x :: takeWhile f l' else []
  end.

(** [s.trim()]. *)
Definition trim (s : string) : string :=
  let front := dropWhile isWhiteSpace (list_ascii_of_string s) in
  string_of_list_ascii (rev (dropWhile isWhiteSpace (rev front))).

(** [s.substring(0, n)] for [n >= 0] (a negative [n] counts as 0). *)
Definition substring0 (n : Z) (s : string) : string :=
  String.substring 0 (Z.to_nat n) s.

(** [s.replace(/\\/g, '/')]. *)
Fixpoint backslashesToSlashes (s : string) : string :=
  match s with
  | EmptyString => EmptyString
  | String c s' =>
      String (if Ascii.eqb c "\" then "/"%char else c) (backslashesToSlashes s')
  end.

(** [String(n)] for an integer [n]. *)
Definition numberToString (n : Z) : string :=
  NilZero.string_of_int (Z.to_int n).

(** [s.length]. *)
Definition strlen (s : string) : Z := Z.of_nat (String.length s).

(** [a.length]. *)
Definition len {A} (l : list A) : Z := Z.of_nat (List.length l).

(** [set.add(x)] on an insertion-ordered set. *)
Definition setAdd (x : string) (s : list string) : list string :=
  set_add string_dec x s.

(** [new Set(l)] / adding the elements of [l] one after the other. *)
Definition setAddAll (l : list string) (s : list string) : list string :=
  fold_left (fun acc x => setAdd x acc) l s.

(** [a.includes(x)] on an array of strings. *)
Definition arrayIncludes (a : list string) (x : string) : bool :=
  existsb (String.eqb x) a.

(** [a.sort()] with the default comparison: insertion into an ordered list
    by code units.  The engine's algorithm is stable, and so is this one. *)
Fixpoint insertSorted (x : string) (l : list string) : list string :=
  match l with
  | [] => [x]
  | y :: l' => if String.leb x y then x :: l else y :: insertSorted x l'
  end.

Definition sort (l : list string) : list string :=
  fold_right insertSorted [] l.

(** [Math.round(n / d)] for integers [n] and [d > 0]: halves round up. *)
Definition roundDiv (n d : Z) : Z := ((2 * n + d) / (2 * d))%Z.

(** A number that may be [Infinity], as a division by zero makes it. *)
Inductive Number :=
| Finite (z : Z)
| Infinity.

(** [Math.ceil(a / b)] for integers [a > 0] and [b]. *)
Definition ceilDiv (a b : Z) : Number :=
  if (b =? 0)%Z then Infinity else Finite (- ((- a) / b))%Z.

(** Truthiness of a string that may be [undefined]. *)
Definition truthy (s : option string) : bool :=
  match s with
  | Some s' => negb (String.eqb s' "")
  | None => false
  end.

End Js.

(** ** Node's [path] module (POSIX flavour)

    The functions of [path] that depend on nothing but their arguments,
    written as the scans of Node's [path.posix] read: from the end of the
    string, over trailing separators first, then over the last component.
    [path.resolve] and [path.relative] depend on the process and are
    collaborators (see [Host] below). *)

Module Path.

Import Js.

Definition isSep (c : ascii) : bool := Ascii.eqb c "/".
Definition isDot (c : ascii) : bool := Ascii.eqb c ".".
Definition notSep (c : ascii) : bool := negb (isSep c).
Definition notDot (c : ascii) : bool := negb (isDot c).

(** The last component of [p], reversed: trailing separators skipped, then
    the characters up to the next separator. *)
Definition lastComponentRev (p : list ascii) : list ascii :=
  takeWhile notSep (dropWhile isSep (rev p)).

(** [path.isAbsolute(p)]. *)
Definition isAbsolute (p : string) : bool :=
  match p with
  | String c _ => isSep c
  | EmptyString => false
  end.

(** [path.dirname(p)].  The scan never looks at the first character. *)
Definition dirname (p : string) : string :=
  match list_ascii_of_string p with
  | [] => "."
  | c0 :: rest =>
      let afterComponent := dropWhile notSep (dropWhile isSep (rev rest)) in
      match afterComponent with
      | [] => if isSep c0 then "/" else "."
      | _ :: before =>
          if isSep c0 && (List.length before =? 0)%nat then "//"
          else string_of_list_ascii (c0 :: rev before)
      end
  end.

(** [path.extname(p)]: from the last dot of the last component, unless that
    dot is the component's first character or the component is [..]. *)
Definition extname (p : string) : string :=
  let rcomp := lastComponentRev (list_ascii_of_string p) in
  let rext := takeWhile notDot rcomp in
  match dropWhile notDot rcomp with
  | [] => ""
  | _ :: rpre =>
      match rev rpre with
      | [] => ""
      | c :: pre' =>
          if isDot c && (List.length pre' =? 0)%nat && (List.length rext =? 0)%nat
          then ""
          else string_of_list_ascii ("."%char :: rev rext)
      end
  end.

(** How the backward match of a suffix against the last component ends. *)
Inductive SuffixMatch :=
| Matched (rest : list ascii)   (* the suffix was matched; what is before it *)
| Mismatch                      (* a character differs *)
| Exhausted.                    (* the component ended before the suffix *)

Fixpoint matchSuffix (rsuffix rcomp : list ascii) : SuffixMatch :=
  match rsuffix with
  | [] => Matched rcomp
  | s :: rsuffix' =>
      match rcomp with
      | [] => Exhausted
      | c :: rcomp' =>
          if Ascii.eqb c s then matchSuffix rsuffix' rcomp' else Mismatch
      end
  end.

(** [path.basename(p, suffix)]; [path.basename(p)] is [basename p ""]. *)
Definition basename (p suffix : string) : string :=
  let lp := list_ascii_of_string p in
  let rcomp := lastComponentRev lp in
  let comp := string_of_list_ascii (rev rcomp) in
  if (0 <? String.length suffix)%nat && (String.length suffix <=? String.length p)%nat
  then
    if String.eqb suffix p then ""
    else
      match matchSuffix (rev (list_ascii_of_string suffix)) rcomp with
      | Matched [] => comp
      | Matched rest => string_of_list_ascii (rev rest)
      | Mismatch => comp
      | Exhausted =>
          comp +:+ string_of_list_ascii (takeWhile isSep (rev lp))
      end
  else comp.

(** [normalizeString]: the segments of a path with [.] and empty segments
    dropped and [..] resolved against the segment before it. *)
Fixpoint splitSep (p : list ascii) (cur : list ascii) : list (list ascii) :=
  match p with
  | [] => [rev cur]
  | c :: p' => if isSep c then rev cur :: splitSep p' [] else splitSep p' (c :: cur)
  end.

Definition isDotDot (seg : list ascii) : bool :=
  match seg with
  | [a; b] => isDot a && isDot b
  | _ => false
  end.

Definition isEmptyOrDot (seg : list ascii) : bool :=
  match seg with
  | [] => true
  | [a] => isDot a
  | _ => false
  end.

(** [stack] holds the segments kept so far, last one first. *)
Fixpoint normalizeSegments (allowAboveRoot : bool) (segs stack : list (list ascii))
  : list (list ascii) :=
  match segs with
  | [] => rev stack
  | seg :: segs' =>
      if isEmptyOrDot seg then normalizeSegments allowAboveRoot segs' stack
      else if isDotDot seg then
        match stack with
        | top :: stack' =>
            if isDotDot top
            then normalizeSegments allowAboveRoot segs' (seg :: stack)
            else normalizeSegments allowAboveRoot segs' stack'
        | [] =>
            if allowAboveRoot
            then normalizeSegments allowAboveRoot segs' [seg]
            else normalizeSegments allowAboveRoot segs' []
        end
      else normalizeSegments allowAboveRoot segs' (seg :: stack)
  end.

Fixpoint joinSegments (segs : list (list ascii)) : list ascii :=
  match segs with
  | [] => []
  | [seg] => seg
  | seg :: segs' => seg ++ "/"%char :: joinSegments segs'
  end.

(** [path.normalize(p)]. *)
Definition normalize (p : string) : string :=
  match list_ascii_of_string p with
  | [] => "."
  | (c0 :: _) as lp =>
      let absolute := isSep c0 in
      let trailing := match rev lp with c :: _ => isSep c | [] => false end in
      let body := joinSegments (normalizeSegments (negb absolute) (splitSep lp []) []) in
      match body with
      | [] => if absolute then "/" else if trailing then "./" else "."
      | _ =>
          let body' := if trailing then body ++ ["/"%char] else body in
          string_of_list_ascii (if absolute then "/"%char :: body' else body')
      end
  end.

(** [path.join(...parts)]: the non-empty parts joined by [/], normalized. *)
Definition join (parts : list string) : string :=
  match filter (fun s => negb (String.eqb s "")) parts with
  | [] => "."
  | parts' => normalize (String.concat "/" parts')
  end.

End Path.

(** ** [packages/core/src/utils/fileUtils.ts], as far as the tool reads it *)

Module FileUtils.

(** A [Part] carrying inline data (an image or a PDF, base64 encoded). *)
Record Part := { mimeType : string; data : string }.

(** [PartUnion]: a string or a [Part]. *)
Inductive PartUnion :=
| Text (s : string)
| Inline (p : Part).

(** What [detectFileType] answers; the tool tells images and PDFs from the
    rest. *)
Inductive FileType :=
| image
| pdf
| otherType (name : string).

(** [ProcessedFileReadResult], the fields [execute] reads. *)
Record ProcessedFileReadResult := {
  llmContent : PartUnion;
  error : option string;
  isTruncated : bool
}.

End FileUtils.

(** ** [packages/core/src/tools/read-many-files.ts] *)

Module ReadManyFiles.

Import Js.

Definition nl : string := String (ascii_of_nat 10) "".

(** Simple token estimation - roughly 4 characters per token:
    [Math.ceil(text.length / 4)]. *)
Definition estimateTokens (text : string) : Z := ((strlen text + 3) / 4)%Z.

Record FileFilteringParams := {
  respect_git_ignore : option bool;
  respect_llxprt_ignore : option bool
}.

Record ReadManyFilesParams := {
  paths : list string;
  include : option (list string);
  exclude : option (list string);
  recursive : option bool;
  useDefaultExcludes : option bool;
  file_filtering_options : option FileFilteringParams
}.

Record FileFilteringOptions := {
  respectGitIgnore : bool;
  respectLlxprtIgnore : bool
}.

Inductive TruncateMode := Warn | Truncate | Sample.

(** The four ephemeral settings the tool reads; [None] is [undefined]. *)
Record EphemeralSettings := {
  tool_output_max_items : option Z;
  tool_output_max_tokens : option Z;
  tool_output_truncate_mode : option TruncateMode;
  tool_output_item_size_limit : option Z
}.

(** [Config], the methods the tool calls.  [getLlxprtIgnorePatterns] and
    [filterFiles] are the file service's, [getDirectories] and
    [isPathWithinWorkspace] the workspace context's. *)
Record Config := {
  getTargetDir : string;
  getFileFilteringOptions : option FileFilteringOptions;
  getLlxprtIgnorePatterns : list string;
  filterFiles : list string -> FileFilteringOptions -> list string;
  getDirectories : list string;
  isPathWithinWorkspace : string -> bool;
  getEphemeralSettings : EphemeralSettings
}.

(** The imports of the module that are not under [Config].  An [inl] is
    the message of a thrown error, as [getErrorMessage] gives it. *)
Record Host := {
  validate : ReadManyFilesParams -> option string;
  glob : list string -> list string -> string -> string + list string;
  relative : string -> string -> string;
  resolve : string -> string -> string;
  stat : string -> string + Z;
  detectFileType : string -> FileUtils.FileType;
  processSingleFileContent : string -> string -> FileUtils.ProcessedFileReadResult;
  toLocaleString : Z -> string;
  getCurrentContextFilename : string;
  DEFAULT_FILE_FILTERING_OPTIONS : FileFilteringOptions
}.

Record SkipRecord := { path : string; reason : string }.

(** [string | PartListUnion] as [execute] returns it: one string on the
    early returns, the array of parts otherwise. *)
Inductive LlmContent :=
| Message (s : string)
| Parts (l : list FileUtils.PartUnion).

Record ToolResult := { llmContent : LlmContent; returnDisplay : string }.

(** The file system calls [execute] makes on the files it considers, in
    order.  The code keeps no such list; the model does, to state what the
    tool touches. *)
Inductive FsCall :=
| Stat (p : string)
| DetectFileType (p : string)
| ProcessSingleFileContent (p : string).

Definition calledOn (c : FsCall) : string :=
  match c with
  | Stat p | DetectFileType p | ProcessSingleFileContent p => p
  end.

(** How a call of [execute] ends. *)
Inductive Completion (A : Type) :=
| Returns (a : A)
| Throws (e : string)
| Hangs.

Arguments Returns {A} a.
Arguments Throws {A} e.
Arguments Hangs {A}.

Definition displayName : string := "ReadManyFiles".

Definition DEFAULT_EXCLUDES (h : Host) : list string :=
  [ "**/node_modules/**"; "**/.git/**"; "**/.vscode/**"; "**/.idea/**";
    "**/dist/**"; "**/build/**"; "**/coverage/**"; "**/__pycache__/**";
    "**/*.pyc"; "**/*.pyo"; "**/*.bin"; "**/*.exe"; "**/*.dll"; "**/*.so";
    "**/*.dylib"; "**/*.class"; "**/*.jar"; "**/*.war"; "**/*.zip";
    "**/*.tar"; "**/*.gz"; "**/*.bz2"; "**/*.rar"; "**/*.7z"; "**/*.doc";
    "**/*.docx"; "**/*.xls"; "**/*.xlsx"; "**/*.ppt"; "**/*.pptx";
    "**/*.odt"; "**/*.ods"; "**/*.odp"; "**/*.DS_Store"; "**/.env";
    "**/" +:+ getCurrentContextFilename h ].

Definition DEFAULT_MAX_FILE_COUNT : Z := 50.
Definition DEFAULT_MAX_TOKENS : Z := 50000.
Definition DEFAULT_TRUNCATE_MODE : TruncateMode := Warn.
Definition DEFAULT_FILE_SIZE_LIMIT : Z := 524288.

(** [a ?? b]. *)
Definition orElse {A} (a : option A) (b : A) : A :=
  match a with
  | Some x => x
  | None => b
  end.

(** The replacement patterns [String.prototype.replace] expands in its
    second argument when the first is the string ['{filePath}'] found in
    ['--- {filePath} ---']. *)
Fixpoint expandReplacement (r : string) : string :=
  match r with
  | EmptyString => EmptyString
  | String c r' =>
      if Ascii.eqb c "$" then
        match r' with
        | String d r'' =>
            if Ascii.eqb d "$" then String "$" (expandReplacement r'')
            else if Ascii.eqb d "&" then "{filePath}" +:+ expandReplacement r''
            else if Ascii.eqb d "`" then "--- " +:+ expandReplacement r''
            else if Ascii.eqb d "'" then " ---" +:+ expandReplacement r''
            else String c (expandReplacement r')
        | EmptyString => String c EmptyString
        end
      else String c (expandReplacement r')
  end.

(** [DEFAULT_OUTPUT_SEPARATOR_FORMAT.replace('{filePath}', filePath)]. *)
Definition separatorFor (filePath : string) : string :=
  "--- " +:+ expandReplacement filePath +:+ " ---".

Definition validateParams (h : Host) (params : ReadManyFilesParams) : option string :=
  if truthy (validate h params) then validate h params else None.

Section Execute.

Variable h : Host.
Variable config : Config.
Variable params : ReadManyFilesParams.

Definition inputPatterns : list string := paths params.

Definition effectiveExcludes : list string :=
  if orElse (useDefaultExcludes params) true
  then DEFAULT_EXCLUDES h ++ orElse (exclude params) [] ++ getLlxprtIgnorePatterns config
  else orElse (exclude params) [] ++ getLlxprtIgnorePatterns config.

Definition searchPatterns : list string :=
  inputPatterns ++ orElse (include params) [].

Definition defaultFileIgnores : FileFilteringOptions :=
  orElse (getFileFilteringOptions config) (DEFAULT_FILE_FILTERING_OPTIONS h).

Definition fileFilteringOptions : FileFilteringOptions :=
  {| respectGitIgnore :=
       orElse
         (match file_filtering_options params with
          | Some o => respect_git_ignore o
          | None => None
          end)
         (respectGitIgnore defaultFileIgnores);
     respectLlxprtIgnore :=
       orElse
         (match file_filtering_options params with
          | Some o => respect_llxprt_ignore o
          | None => None
          end)
         (respectLlxprtIgnore defaultFileIgnores) |}.

(** The [for (const dir of workspaceDirs)] loop around [glob]. *)
Fixpoint globWorkspace (dirs : list string) (allEntries : list string)
  : string + list string :=
  match dirs with
  | [] => inr allEntries
  | dir :: dirs' =>
      match glob h (map backslashesToSlashes searchPatterns) effectiveExcludes dir with
      | inl e => inl e
      | inr entriesInDir => globWorkspace dirs' (setAddAll entriesInDir allEntries)
      end
  end.

Definition relativeToTarget (p : string) : string := relative h (getTargetDir config) p.
Definition resolveFromTarget (p : string) : string := resolve h (getTargetDir config) p.

Definition gitFilteredEntries (entries : list string) : list string :=
  if respectGitIgnore fileFilteringOptions
  then map resolveFromTarget
         (filterFiles config (map relativeToTarget entries)
            {| respectGitIgnore := true; respectLlxprtIgnore := false |})
  else entries.

Definition finalFilteredEntries (entries : list string) : list string :=
  if respectLlxprtIgnore fileFilteringOptions
  then map resolveFromTarget
         (filterFiles config (map relativeToTarget (gitFilteredEntries entries))
            {| respectGitIgnore := false; respectLlxprtIgnore := true |})
  else gitFilteredEntries entries.

(** The state of the loop over [entries]. *)
Record Discovery := {
  filesToConsider : list string;
  discoverySkipped : list SkipRecord;
  gitIgnoredCount : Z;
  llxprtIgnoredCount : Z
}.

Definition securityReason (absoluteFilePath : string) : string :=
  "Security: Glob library returned path outside workspace. Path: " +:+ absoluteFilePath.

(** One turn of [for (const absoluteFilePath of entries)]; [entries] is
    the whole array, which the two ignore checks look into. *)
Definition considerEntry (entries : list string) (d : Discovery)
  (absoluteFilePath : string) : Discovery :=
  if negb (isPathWithinWorkspace config absoluteFilePath) then
    {| filesToConsider := filesToConsider d;
       discoverySkipped :=
         discoverySkipped d ++
         [ {| path := absoluteFilePath; reason := securityReason absoluteFilePath |} ];
       gitIgnoredCount := gitIgnoredCount d;
       llxprtIgnoredCount := llxprtIgnoredCount d |}
  else if respectGitIgnore fileFilteringOptions &&
          negb (arrayIncludes (gitFilteredEntries entries) absoluteFilePath) then
    {| filesToConsider := filesToConsider d;
       discoverySkipped := discoverySkipped d;
       gitIgnoredCount := (gitIgnoredCount d + 1)%Z;
       llxprtIgnoredCount := llxprtIgnoredCount d |}
  else if respectLlxprtIgnore fileFilteringOptions &&
          negb (arrayIncludes (finalFilteredEntries entries) absoluteFilePath) then
    {| filesToConsider := filesToConsider d;
       discoverySkipped := discoverySkipped d;
       gitIgnoredCount := gitIgnoredCount d;
       llxprtIgnoredCount := (llxprtIgnoredCount d + 1)%Z |}
  else
    {| filesToConsider := setAdd absoluteFilePath (filesToConsider d);
       discoverySkipped := discoverySkipped d;
       gitIgnoredCount := gitIgnoredCount d;
       llxprtIgnoredCount := llxprtIgnoredCount d |}.

Definition emptyDiscovery : Discovery :=
  {| filesToConsider := []; discoverySkipped := [];
     gitIgnoredCount := 0; llxprtIgnoredCount := 0 |}.

Definition considerEntries (entries : list string) : Discovery :=
  fold_left (considerEntry entries) entries emptyDiscovery.

(** The two aggregate records pushed after the loop. *)
Definition ignoredRecords (d : Discovery) : list SkipRecord :=
  (if (gitIgnoredCount d >? 0)%Z
   then [ {| path := numberToString (gitIgnoredCount d) +:+ " file(s)";
             reason := "git ignored" |} ]
   else []) ++
  (if (llxprtIgnoredCount d >? 0)%Z
   then [ {| path := numberToString (llxprtIgnoredCount d) +:+ " file(s)";
             reason := "llxprt ignored" |} ]
   else []).

(** [skippedFiles] when the [try] block is left. *)
Definition skippedAfterDiscovery (entries : list string) : list SkipRecord :=
  let d := considerEntries entries in
  discoverySkipped d ++ ignoredRecords d.

(** [sortedFiles] as first computed. *)
Definition sortedFilesOf (entries : list string) : list string :=
  sort (filesToConsider (considerEntries entries)).

(** *** The limits *)

Definition maxFileCount : Z :=
  orElse (tool_output_max_items (getEphemeralSettings config)) DEFAULT_MAX_FILE_COUNT.
Definition maxTokens : Z :=
  orElse (tool_output_max_tokens (getEphemeralSettings config)) DEFAULT_MAX_TOKENS.
Definition truncateMode : TruncateMode :=
  orElse (tool_output_truncate_mode (getEphemeralSettings config)) DEFAULT_TRUNCATE_MODE.
Definition fileSizeLimit : Z :=
  orElse (tool_output_item_size_limit (getEphemeralSettings config)) DEFAULT_FILE_SIZE_LIMIT.

(** The sampling loop
    [for (let i = 0; i < sortedFiles.length; i += step)
       if (sampledFiles.length < maxFileCount) sampledFiles.push(sortedFiles[i])].
    [fuel] bounds the number of turns: [None] is a loop that is not over
    after [fuel] turns.  [sortedFiles[i]] is read at [0 <= i < length] only
    (a push needs [0 < maxFileCount], and then [step] is positive). *)
Fixpoint sampleLoop (fuel : nat) (sortedFiles : list string) (step : Number)
  (i : Z) (sampledFiles : list string) : option (list string) :=
  if (i <? len sortedFiles)%Z then
    match fuel with
    | O => None
    | S fuel' =>
        let sampledFiles' :=
          if (len sampledFiles <? maxFileCount)%Z
          then sampledFiles ++ [nth (Z.to_nat i) sortedFiles ""]
          else sampledFiles in
        match step with
        | Infinity => Some sampledFiles'
        | Finite k => sampleLoop fuel' sortedFiles step (i + k)%Z sampledFiles'
        end
    end
  else Some sampledFiles.

Definition warnMessage (sortedFiles : list string) : string :=
  "Found " +:+ numberToString (len sortedFiles) +:+
  " files matching your pattern, but limiting to " +:+ numberToString maxFileCount +:+
  " files. Please use more specific patterns to narrow your search.".

Definition warnResult (sortedFiles : list string) : ToolResult :=
  {| llmContent := Message (warnMessage sortedFiles);
     returnDisplay :=
       "## File Count Limit Exceeded" +:+ nl +:+ nl +:+ warnMessage sortedFiles +:+
       nl +:+ nl +:+ "**Matched files:** " +:+ numberToString (len sortedFiles) +:+
       nl +:+ "**Limit:** " +:+ numberToString maxFileCount +:+ nl +:+ nl +:+
       "**Suggestion:** Use more specific glob patterns or paths to reduce the number of matched files." |}.

(** What the file count check leaves: the early return of the warn mode,
    or the files to read and the skip log so far. *)
Inductive CountCheck :=
| WarnReturn (r : ToolResult)
| Proceed (sortedFiles : list string) (skippedFiles : list SkipRecord).

(** [if (sortedFiles.length > maxFileCount) ...].  The sample loop gets one
    turn per file and one more: a positive step needs no more, and a loop
    that is not over by then never is (see [sampleLoop_hangs]).
    [sortedFiles.length = maxFileCount] throws a [RangeError] on a negative
    length. *)
Definition checkFileCount (sortedFiles : list string) (skippedFiles : list SkipRecord)
  : Completion CountCheck :=
  if (len sortedFiles >? maxFileCount)%Z then
    match truncateMode with
    | Warn => Returns (WarnReturn (warnResult sortedFiles))
    | Sample =>
        let step := ceilDiv (len sortedFiles) maxFileCount in
        match sampleLoop (S (List.length sortedFiles)) sortedFiles step 0 [] with
        | None => Hangs
        | Some sampledFiles =>
            let originalCount := len sortedFiles in
            Returns (Proceed sampledFiles
              (skippedFiles ++
               [ {| path := numberToString (originalCount - len sampledFiles) +:+ " file(s)";
                    reason := "sampling to stay within " +:+ numberToString maxFileCount +:+
                              " file limit" |} ]))
        end
    | Truncate =>
        let truncatedCount := (len sortedFiles - maxFileCount)%Z in
        if (maxFileCount <? 0)%Z then Throws "RangeError: Invalid array length"
        else
          Returns (Proceed (firstn (Z.to_nat maxFileCount) sortedFiles)
            (skippedFiles ++
             [ {| path := numberToString truncatedCount +:+ " file(s)";
                  reason := "truncated to stay within " +:+ numberToString maxFileCount +:+
                            " file limit" |} ]))
    end
  else Returns (Proceed sortedFiles skippedFiles).

(** *** The loop over the files *)

Record LoopState := {
  totalTokens : Z;
  contentParts : list FileUtils.PartUnion;
  processedFilesRelativePaths : list string;
  skippedFiles : list SkipRecord;
  fsCalls : list FsCall
}.

Inductive Next := Continue | Break.

Definition skip (st : LoopState) (p r : string) : LoopState :=
  {| totalTokens := totalTokens st;
     contentParts := contentParts st;
     processedFilesRelativePaths := processedFilesRelativePaths st;
     skippedFiles := skippedFiles st ++ [ {| path := p; reason := r |} ];
     fsCalls := fsCalls st |}.

Definition called (st : LoopState) (c : FsCall) : LoopState :=
  {| totalTokens := totalTokens st;
     contentParts := contentParts st;
     processedFilesRelativePaths := processedFilesRelativePaths st;
     skippedFiles := skippedFiles st;
     fsCalls := fsCalls st ++ [c] |}.

(** [contentParts.push(part); processedFilesRelativePaths.push(p)] with
    [totalTokens] set to [tokens]. *)
Definition accept (st : LoopState) (tokens : Z) (part : FileUtils.PartUnion) (p : string)
  : LoopState :=
  {| totalTokens := tokens;
     contentParts := contentParts st ++ [part];
     processedFilesRelativePaths := processedFilesRelativePaths st ++ [p];
     skippedFiles := skippedFiles st;
     fsCalls := fsCalls st |}.

Definition isAsset (t : FileUtils.FileType) : bool :=
  match t with
  | FileUtils.image | FileUtils.pdf => true
  | FileUtils.otherType _ => false
  end.

(** [requestedExplicitly], for a file detected as an image or a PDF. *)
Definition requestedExplicitly (filePath : string) : bool :=
  let fileExtension := toLowerCase (Path.extname filePath) in
  let fileNameWithoutExtension := Path.basename filePath fileExtension in
  existsb
    (fun pattern =>
       includes (toLowerCase pattern) fileExtension ||
       includes pattern fileNameWithoutExtension)
    inputPatterns.

Definition truncationWarning : string :=
  "[WARNING: This file was truncated. To view the full content, use the 'read_file' tool on this specific file.]"
  +:+ nl +:+ nl.

Definition truncationMarker : string :=
  nl +:+ nl +:+ "[CONTENT TRUNCATED DUE TO TOKEN LIMIT]".

(** [contentToAdd] for a file read as text. *)
Definition contentToAdd (filePath : string) (r : FileUtils.ProcessedFileReadResult)
  (text : string) : string :=
  let fileContentForLlm :=
    (if FileUtils.isTruncated r then truncationWarning else "") +:+ text in
  separatorFor filePath +:+ nl +:+ nl +:+ fileContentForLlm +:+ nl +:+ nl.

(** The part of the loop body after a successful read.  [sortedCount] is
    [sortedFiles.length]. *)
Definition addContent (sortedCount : Z) (st : LoopState) (filePath : string)
  (relativePathForDisplay : string) (r : FileUtils.ProcessedFileReadResult)
  : LoopState * Next :=
  match FileUtils.llmContent r with
  | FileUtils.Text text =>
      let toAdd := contentToAdd filePath r text in
      let contentTokens := estimateTokens toAdd in
      if (totalTokens st + contentTokens >? maxTokens)%Z then
        match truncateMode with
        | Warn =>
            (skip st
               (numberToString (sortedCount - len (processedFilesRelativePaths st)) +:+
                " remaining file(s)")
               ("would exceed token limit of " +:+ numberToString maxTokens),
             Break)
        | Truncate =>
            let remainingTokens := (maxTokens - totalTokens st)%Z in
            if (remainingTokens >? 100)%Z then
              let truncatedContent := substring0 (remainingTokens * 4) toAdd in
              (skip
                 (accept st (totalTokens st)
                    (FileUtils.Text (truncatedContent +:+ truncationMarker))
                    relativePathForDisplay)
                 relativePathForDisplay "content truncated to fit token limit",
               Break)
            else (st, Break)
        | Sample =>
            (skip st relativePathForDisplay "skipped to stay within token limit", Continue)
        end
      else
        (accept st (totalTokens st + contentTokens)%Z (FileUtils.Text toAdd)
           relativePathForDisplay,
         Continue)
  | FileUtils.Inline part =>
      let estimatedTokens := 85%Z in
      if (totalTokens st + estimatedTokens >? maxTokens)%Z then
        (skip st relativePathForDisplay "would exceed token limit (non-text content)",
         Continue)
      else
        (accept st (totalTokens st + estimatedTokens)%Z (FileUtils.Inline part)
           relativePathForDisplay,
         Continue)
  end.

(** The body of [for (const filePath of sortedFiles)].  The telemetry call
    [recordFileOperationMetric] leaves the result untouched and is left
    out. *)
Definition processFile (sortedCount : Z) (st : LoopState) (filePath : string)
  : LoopState * Next :=
  let relativePathForDisplay := backslashesToSlashes (relativeToTarget filePath) in
  let st1 := called st (Stat filePath) in
  match stat h filePath with
  | inl message =>
      (skip st1 relativePathForDisplay ("stat error: " +:+ message), Continue)
  | inr size =>
      if (size >? fileSizeLimit)%Z then
        (skip st1 relativePathForDisplay
           ("file size (" +:+ numberToString (roundDiv size 1024) +:+
            "KB) exceeds limit (" +:+ numberToString (roundDiv fileSizeLimit 1024) +:+ "KB)"),
         Continue)
      else
        let st2 := called st1 (DetectFileType filePath) in
        let fileType := detectFileType h filePath in
        if isAsset fileType && negb (requestedExplicitly filePath) then
          (skip st2 relativePathForDisplay
             "asset file (image/pdf) was not explicitly requested by name or extension",
           Continue)
        else
          let st3 := called st2 (ProcessSingleFileContent filePath) in
          let fileReadResult := processSingleFileContent h filePath (getTargetDir config) in
          if truthy (FileUtils.error fileReadResult) then
            (skip st3 relativePathForDisplay
               ("Read error: " +:+ orElse (FileUtils.error fileReadResult) ""),
             Continue)
          else addContent sortedCount st3 filePath relativePathForDisplay fileReadResult
  end.

Fixpoint fileLoop (sortedCount : Z) (files : list string) (st : LoopState) : LoopState :=
  match files with
  | [] => st
  | filePath :: files' =>
      match processFile sortedCount st filePath with
      | (st', Break) => st'
      | (st', Continue) => fileLoop sortedCount files' st'
      end
  end.

(** *** The human-readable summary *)

Definition processedLine (p : string) : string := "- `" +:+ p +:+ "`" +:+ nl.

Definition skippedLine (f : SkipRecord) : string :=
  "- `" +:+ path f +:+ "` (Reason: " +:+ reason f +:+ ")" +:+ nl.

Definition noFilesLine : string :=
  "No files were read and concatenated based on the criteria." +:+ nl.

Definition displayMessage (st : LoopState) : string :=
  let processed := processedFilesRelativePaths st in
  let skipped := skippedFiles st in
  let header :=
    "### ReadManyFiles Result (Target Dir: `" +:+ getTargetDir config +:+ "`)" +:+ nl +:+ nl in
  let processedPart :=
    if (len processed >? 0)%Z then
      "Successfully read and concatenated content from **" +:+
      numberToString (len processed) +:+ " file(s)**" +:+
      (if (totalTokens st >? 0)%Z
       then " (approximately " +:+ toLocaleString h (totalTokens st) +:+ " tokens)"
       else "") +:+
      "." +:+ nl +:+
      (if (len processed <=? 10)%Z then
         nl +:+ "**Processed Files:**" +:+ nl +:+
         String.concat "" (map processedLine processed)
       else
         nl +:+ "**Processed Files (first 10 shown):**" +:+ nl +:+
         String.concat "" (map processedLine (firstn 10 processed)) +:+
         "- ...and " +:+ numberToString (len processed - 10) +:+ " more." +:+ nl)
    else "" in
  let skippedPart :=
    if (len skipped >? 0)%Z then
      (if (len processed =? 0)%Z then noFilesLine else "") +:+
      (if (len skipped <=? 5)%Z
       then nl +:+ "**Skipped " +:+ numberToString (len skipped) +:+ " item(s):**" +:+ nl
       else nl +:+ "**Skipped " +:+ numberToString (len skipped) +:+
            " item(s) (first 5 shown):**" +:+ nl) +:+
      String.concat "" (map skippedLine (firstn 5 skipped)) +:+
      (if (len skipped >? 5)%Z
       then "- ...and " +:+ numberToString (len skipped - 5) +:+ " more." +:+ nl
       else "")
    else if (len processed =? 0)%Z && (len skipped =? 0)%Z then noFilesLine
    else "" in
  trim (header +:+ processedPart +:+ skippedPart).

Definition nothingFound : string :=
  "No files matching the criteria were found or all were skipped.".

(** *** [execute] *)

(** What a call leaves behind: the [ToolResult] it returns, and what the
    safety statements are about, as it stands when the call returns: the
    array [entries] that [glob] produced (empty when the call returns
    before it has one), the skip log [skippedFiles] and the file system
    calls. *)
Record Run := {
  result : ToolResult;
  discovered : list string;
  skipLog : list SkipRecord;
  calls : list FsCall
}.

Definition initialState (skipped : list SkipRecord) : LoopState :=
  {| totalTokens := 0; contentParts := []; processedFilesRelativePaths := [];
     skippedFiles := skipped; fsCalls := [] |}.

Definition finalContent (st : LoopState) : list FileUtils.PartUnion :=
  if (len (contentParts st) =? 0)%Z then [FileUtils.Text nothingFound]
  else contentParts st.

Definition run : Completion Run :=
  match validateParams h params with
  | Some validationError =>
      Returns
        {| result :=
             {| llmContent :=
                  Message ("Error: Invalid parameters for " +:+ displayName +:+
                           ". Reason: " +:+ validationError);
                returnDisplay := "## Parameter Error" +:+ nl +:+ nl +:+ validationError |};
           discovered := []; skipLog := []; calls := [] |}
  | None =>
      if (len searchPatterns =? 0)%Z then
        Returns
          {| result :=
               {| llmContent := Message "No search paths or include patterns provided.";
                  returnDisplay :=
                    "## Information" +:+ nl +:+ nl +:+
                    "No search paths or include patterns were specified. Nothing to read or concatenate." |};
             discovered := []; skipLog := []; calls := [] |}
      else
        match globWorkspace (getDirectories config) [] with
        | inl message =>
            Returns
              {| result :=
                   {| llmContent := Message ("Error during file search: " +:+ message);
                      returnDisplay :=
                        "## File Search Error" +:+ nl +:+ nl +:+
                        "An error occurred while searching for files:" +:+ nl +:+
                        "```" +:+ nl +:+ message +:+ nl +:+ "```" |};
                 discovered := []; skipLog := []; calls := [] |}
        | inr entries =>
            match checkFileCount (sortedFilesOf entries) (skippedAfterDiscovery entries) with
            | Hangs => Hangs
            | Throws e => Throws e
            | Returns (WarnReturn r) =>
                Returns
                  {| result := r; discovered := entries;
                     skipLog := skippedAfterDiscovery entries; calls := [] |}
            | Returns (Proceed sortedFiles skipped) =>
                let st := fileLoop (len sortedFiles) sortedFiles (initialState skipped) in
                Returns
                  {| result :=
                       {| llmContent := Parts (finalContent st);
                          returnDisplay := displayMessage st |};
                     discovered := entries;
                     skipLog := skippedFiles st;
                     calls := fsCalls st |}
            end
        end
  end.

(** The file parts of a result: none on an early return. *)
Definition fileParts (r : ToolResult) : list FileUtils.PartUnion :=
  match llmContent r with
  | Parts l => l
  | Message _ => []
  end.

(** [execute(params, signal)]: the promise's outcome. *)
Definition execute : Completion ToolResult :=
  match run with
  | Returns r => Returns (result r)
  | Throws e => Throws e
  | Hangs => Hangs
  end.

End Execute.

End ReadManyFiles.

(** ** [packages/core/src/utils/memoryDiscovery.ts] *)

Module MemoryDiscovery.

Import Js.

Definition nl : string := String (ascii_of_nat 10) "".

Record GeminiFileContent := {
  filePath : string;
  content : option string
}.

Record FileFilteringOptions := {
  respectGitIgnore : bool;
  respectLlxprtIgnore : bool
}.

Inductive ImportFormat := flat | tree.

(** The imports of the module.  [lstatIsDirectory p] is [None] when
    [fs.lstat(p)] throws, [access p] says whether [fs.access(p, R_OK)]
    resolves, [readFile] and [processImports] are [None] when they throw.
    [bfsFileSearch root fileName maxDirs options] stands for the call with
    the file service that the caller holds.  The debug logger writes to the
    console only and is left out. *)
Record Host := {
  lstatIsDirectory : string -> option bool;
  access : string -> bool;
  readFile : string -> option string;
  processImports : string -> string -> bool -> ImportFormat -> option string;
  bfsFileSearch : string -> string -> Z -> FileFilteringOptions -> list string;
  resolve : string -> string;
  relative : string -> string -> string;
  homedir : string;
  LLXPRT_CONFIG_DIR : string;
  getAllContextFilenames : list string;
  DEFAULT_MEMORY_FILE_FILTERING_OPTIONS : FileFilteringOptions
}.

(** Turns granted to a loop that climbs from [dir] by [path.dirname]: the
    climb shortens the path (see [dirname_height] and
    [findProjectRootFrom_spec]). *)
Definition climbFuel (dir : string) : nat := S (S (String.length dir)).

Section Discovery.

Variable h : Host.

(** The [while (true)] loop of [findProjectRoot].  The outer [None] is a
    loop that is not over when the fuel is. *)
Fixpoint findProjectRootFrom (fuel : nat) (currentDir : string) : option (option string) :=
  let gitPath := Path.join [currentDir; ".git"] in
  match lstatIsDirectory h gitPath with
  | Some true => Some (Some currentDir)
  | _ =>
      let parentDir := Path.dirname currentDir in
      if String.eqb parentDir currentDir then Some None
      else
        match fuel with
        | O => None
        | S fuel' => findProjectRootFrom fuel' parentDir
        end
  end.

Definition findProjectRoot (startDir : string) : option (option string) :=
  let currentDir := resolve h startDir in
  findProjectRootFrom (climbFuel currentDir) currentDir.

Section UpwardScan.

Variable contextFilename : string.
Variable resolvedHome : string.
Variable globalMemoryPath : string.
Variable ultimateStopDir : string.

(** The [while (currentDir && currentDir !== path.dirname(currentDir))]
    loop; [unshift] puts a path in front, so the list reads from the
    highest directory down. *)
Fixpoint upwardScan (fuel : nat) (currentDir : string) (upwardPaths : list string)
  : option (list string) :=
  if negb (String.eqb currentDir "") &&
     negb (String.eqb currentDir (Path.dirname currentDir)) then
    if String.eqb currentDir (Path.join [resolvedHome; LLXPRT_CONFIG_DIR h]) then
      Some upwardPaths
    else
      let potentialPath := Path.join [currentDir; contextFilename] in
      let upwardPaths' :=
        if access h potentialPath && negb (String.eqb potentialPath globalMemoryPath)
        then potentialPath :: upwardPaths
        else upwardPaths in
      if String.eqb currentDir ultimateStopDir then Some upwardPaths'
      else
        match fuel with
        | O => None
        | S fuel' => upwardScan fuel' (Path.dirname currentDir) upwardPaths'
        end
  else Some upwardPaths.

End UpwardScan.

(** [{...DEFAULT_MEMORY_FILE_FILTERING_OPTIONS, ...fileFilteringOptions}]:
    both fields of the second object are set and win. *)
Definition mergedOptions (fileFilteringOptions : FileFilteringOptions)
  : FileFilteringOptions :=
  {| respectGitIgnore := respectGitIgnore fileFilteringOptions;
     respectLlxprtIgnore := respectLlxprtIgnore fileFilteringOptions |}.

Section ForEachDir.

Variable dir : string.
Variable userHomePath : string.
Variable debugMode : bool.
Variable fileFilteringOptions : FileFilteringOptions.
Variable maxDirs : Z.

Definition resolvedHome : string := resolve h userHomePath.

Definition globalMemoryPath (contextFilename : string) : string :=
  Path.join [resolvedHome; LLXPRT_CONFIG_DIR h; contextFilename].

Definition ultimateStopDir (projectRoot : option string) : string :=
  match projectRoot with
  | Some root => Path.dirname root
  | None => Path.dirname resolvedHome
  end.

(** [upwardPaths] for one context file name, after the loop. *)
Definition upwardPathsFor (contextFilename : string) : option (list string) :=
  let resolvedCwd := resolve h dir in
  match findProjectRoot resolvedCwd with
  | None => None
  | Some projectRoot =>
      upwardScan contextFilename resolvedHome (globalMemoryPath contextFilename)
        (ultimateStopDir projectRoot) (climbFuel resolvedCwd) resolvedCwd []
  end.

(** [downwardPaths] for one context file name, sorted. *)
Definition downwardPathsFor (contextFilename : string) : list string :=
  sort (bfsFileSearch h (resolve h dir) contextFilename maxDirs
          (mergedOptions fileFilteringOptions)).

(** One turn of [for (const contextFilename of contextFilenames)]. *)
Definition addContextFilename (allPaths : list string) (contextFilename : string)
  : option (list string) :=
  let allPaths1 :=
    if access h (globalMemoryPath contextFilename)
    then setAdd (globalMemoryPath contextFilename) allPaths
    else allPaths in
  if negb (String.eqb dir "") then
    match upwardPathsFor contextFilename with
    | None => None
    | Some upwardPaths =>
        Some (setAddAll (downwardPathsFor contextFilename)
                (setAddAll upwardPaths allPaths1))
    end
  else Some allPaths1.

Fixpoint addContextFilenames (contextFilenames : list string) (allPaths : list string)
  : option (list string) :=
  match contextFilenames with
  | [] => Some allPaths
  | contextFilename :: rest =>
      match addContextFilename allPaths contextFilename with
      | None => None
      | Some allPaths' => addContextFilenames rest allPaths'
      end
  end.

Definition getContextFilePathsInternalForEachDir (extensionContextFilePaths : list string)
  : option (list string) :=
  match addContextFilenames (getAllContextFilenames h) [] with
  | None => None
  | Some allPaths => Some (setAddAll extensionContextFilePaths allPaths)
  end.

End ForEachDir.

Fixpoint forEachDir (dirs : list string) (userHomePath : string) (debugMode : bool)
  (extensionContextFilePaths : list string) (fileFilteringOptions : FileFilteringOptions)
  (maxDirs : Z) (paths : list string) : option (list string) :=
  match dirs with
  | [] => Some paths
  | dir :: dirs' =>
      match getContextFilePathsInternalForEachDir dir userHomePath fileFilteringOptions
              maxDirs extensionContextFilePaths with
      | None => None
      | Some pathsByDir =>
          forEachDir dirs' userHomePath debugMode extensionContextFilePaths
            fileFilteringOptions maxDirs (paths ++ pathsByDir)
      end
  end.

Definition getContextFilePathsInternal (currentWorkingDirectory : string)
  (includeDirectoriesToReadContext : list string) (userHomePath : string)
  (debugMode : bool) (extensionContextFilePaths : list string)
  (fileFilteringOptions : FileFilteringOptions) (maxDirs : Z) : option (list string) :=
  let dirs := setAddAll (includeDirectoriesToReadContext ++ [currentWorkingDirectory]) [] in
  match forEachDir dirs userHomePath debugMode extensionContextFilePaths
          fileFilteringOptions maxDirs [] with
  | None => None
  | Some paths => Some (setAddAll paths [])
  end.

(** One turn of the loop of [readContextFiles]: a failed read or a failed
    import expansion records the file with [null] content. *)
Definition readContextFile (debugMode : bool) (importFormat : ImportFormat)
  (filePath : string) : GeminiFileContent :=
  match readFile h filePath with
  | Some content =>
      match processImports h content (Path.dirname filePath) debugMode importFormat with
      | Some processed => {| filePath := filePath; content := Some processed |}
      | None => {| filePath := filePath; content := None |}
      end
  | None => {| filePath := filePath; content := None |}
  end.

Definition readContextFiles (filePaths : list string) (debugMode : bool)
  (importFormat : ImportFormat) : list GeminiFileContent :=
  map (readContextFile debugMode importFormat) filePaths.

(** The block of one item, [None] where the source's [map] yields [null]
    or the first [filter] drops the item. *)
Definition instructionBlock (currentWorkingDirectoryForDisplay : string)
  (item : GeminiFileContent) : option string :=
  match content item with
  | None => None
  | Some text =>
      let trimmedContent := trim text in
      if (String.length trimmedContent =? 0)%nat then None
      else
        let displayPath :=
          if Path.isAbsolute (filePath item)
          then relative h currentWorkingDirectoryForDisplay (filePath item)
          else filePath item in
        Some ("--- Context from: " +:+ displayPath +:+ " ---" +:+ nl +:+
              trimmedContent +:+ nl +:+
              "--- End of Context from: " +:+ displayPath +:+ " ---")
  end.

Fixpoint keepSome {A} (l : list (option A)) : list A :=
  match l with
  | [] => []
  | Some x :: l' => x :: keepSome l'
  | None :: l' => keepSome l'
  end.

Definition concatenateInstructions (instructionContents : list GeminiFileContent)
  (currentWorkingDirectoryForDisplay : string) : string :=
  String.concat (nl +:+ nl)
    (keepSome (map (instructionBlock currentWorkingDirectoryForDisplay) instructionContents)).

Record Memory := { memoryContent : string; fileCount : Z }.

Definition loadServerHierarchicalMemory (currentWorkingDirectory : string)
  (includeDirectoriesToReadContext : list string) (debugMode : bool)
  (extensionContextFilePaths : list string) (importFormat : ImportFormat)
  (fileFilteringOptions : option FileFilteringOptions) (maxDirs : Z) : option Memory :=
  let userHomePath := homedir h in
  match getContextFilePathsInternal currentWorkingDirectory
          includeDirectoriesToReadContext userHomePath debugMode
          extensionContextFilePaths
          (match fileFilteringOptions with
           | Some o => o
           | None => DEFAULT_MEMORY_FILE_FILTERING_OPTIONS h
           end)
          maxDirs with
  | None => None
  | Some filePaths =>
      if (len filePaths =? 0)%Z then Some {| memoryContent := ""; fileCount := 0 |}
      else
        let contentsWithPaths := readContextFiles filePaths debugMode importFormat in
        let combinedInstructions :=
          concatenateInstructions contentsWithPaths currentWorkingDirectory in
        Some {| memoryContent := combinedInstructions;
                fileCount := len contentsWithPaths |}
  end.

End Discovery.

End MemoryDiscovery.

(** ** Small worlds to run the two modules in *)

Module Fixture.

Import Js.

(** A file system as a list of files with their content. *)
Definition Files := list (string * string).

Fixpoint lookup (files : Files) (p : string) : option string :=
  match files with
  | [] => None
  | (q, text) :: files' => if String.eqb p q then Some text else lookup files' p
  end.

(** [path.relative(from, to)] where [to] lies under [from]; [to] itself
    otherwise. *)
Definition relativeUnder (from to : string) : string :=
  if String.prefix (from +:+ "/") to
  then String.substring (S (String.length from)) (String.length to) to
  else to.

(** [path.resolve(from, p)] for a [p] free of [.] and [..] segments. *)
Definition resolveUnder (from p : string) : string :=
  if Path.isAbsolute p then p else from +:+ "/" +:+ p.

Definition typeByExtension (p : string) : FileUtils.FileType :=
  let ext := toLowerCase (Path.extname p) in
  if String.eqb ext ".png" then FileUtils.image
  else if String.eqb ext ".pdf" then FileUtils.pdf
  else FileUtils.otherType "text".

Definition readAs (p text : string) : FileUtils.PartUnion :=
  match typeByExtension p with
  | FileUtils.image =>
      FileUtils.Inline {| FileUtils.mimeType := "image/png"; FileUtils.data := text |}
  | FileUtils.pdf =>
      FileUtils.Inline {| FileUtils.mimeType := "application/pdf"; FileUtils.data := text |}
  | FileUtils.otherType _ => FileUtils.Text text
  end.

(** A host over [files] whose [glob] reports [found], whatever the
    patterns. *)
Definition host (files : Files) (found : list string) : ReadManyFiles.Host :=
  {| ReadManyFiles.validate := fun _ => None;
     ReadManyFiles.glob := fun _ _ _ => inr found;
     ReadManyFiles.relative := relativeUnder;
     ReadManyFiles.resolve := resolveUnder;
     ReadManyFiles.stat := fun p =>
       match lookup files p with
       | Some text => inr (strlen text)
       | None => inl ("ENOENT: no such file or directory, stat '" +:+ p +:+ "'")
       end;
     ReadManyFiles.detectFileType := typeByExtension;
     ReadManyFiles.processSingleFileContent := fun p _ =>
       match lookup files p with
       | Some text =>
           {| FileUtils.llmContent := readAs p text;
              FileUtils.error := None;
              FileUtils.isTruncated := false |}
       | None =>
           {| FileUtils.llmContent := FileUtils.Text ("File not found: " +:+ p);
              FileUtils.error := Some ("File not found: " +:+ p);
              FileUtils.isTruncated := false |}
       end;
     ReadManyFiles.toLocaleString := numberToString;
     ReadManyFiles.getCurrentContextFilename := "LLXPRT.md";
     ReadManyFiles.DEFAULT_FILE_FILTERING_OPTIONS :=
       {| ReadManyFiles.respectGitIgnore := true;
          ReadManyFiles.respectLlxprtIgnore := true |} |}.

Definition settings (maxItems maxTokens : Z) (mode : ReadManyFiles.TruncateMode)
  : ReadManyFiles.EphemeralSettings :=
  {| ReadManyFiles.tool_output_max_items := Some maxItems;
     ReadManyFiles.tool_output_max_tokens := Some maxTokens;
     ReadManyFiles.tool_output_truncate_mode := Some mode;
     ReadManyFiles.tool_output_item_size_limit := None |}.

(** A configuration with the single workspace root [/ws] and an ignore
    service that ignores nothing. *)
Definition config (s : ReadManyFiles.EphemeralSettings) : ReadManyFiles.Config :=
  {| ReadManyFiles.getTargetDir := "/ws";
     ReadManyFiles.getFileFilteringOptions := None;
     ReadManyFiles.getLlxprtIgnorePatterns := [];
     ReadManyFiles.filterFiles := fun l _ => l;
     ReadManyFiles.getDirectories := ["/ws"];
     ReadManyFiles.isPathWithinWorkspace := fun p => String.prefix "/ws/" p;
     ReadManyFiles.getEphemeralSettings := s |}.

Definition defaults : ReadManyFiles.EphemeralSettings :=
  {| ReadManyFiles.tool_output_max_items := None;
     ReadManyFiles.tool_output_max_tokens := None;
     ReadManyFiles.tool_output_truncate_mode := None;
     ReadManyFiles.tool_output_item_size_limit := None |}.

Definition request (patterns : list string) : ReadManyFiles.ReadManyFilesParams :=
  {| ReadManyFiles.paths := patterns;
     ReadManyFiles.include := None;
     ReadManyFiles.exclude := None;
     ReadManyFiles.recursive := None;
     ReadManyFiles.useDefaultExcludes := None;
     ReadManyFiles.file_filtering_options := None |}.

(** A host for the context loader over [files]: [gitDirs] are the [.git]
    directories, [names] the recognized context file names; paths are
    written resolved, imports expand to nothing else than the content, and
    the downward search reports the files called [fileName] below [root],
    in the order of [files]. *)
Definition memoryHost (files : Files) (gitDirs : list string) (home : string)
  (names : list string) : MemoryDiscovery.Host :=
  {| MemoryDiscovery.lstatIsDirectory := fun p =>
       if arrayIncludes gitDirs p then Some true else None;
     MemoryDiscovery.access := fun p =>
       match lookup files p with
       | Some _ => true
       | None => false
       end;
     MemoryDiscovery.readFile := lookup files;
     MemoryDiscovery.processImports := fun text _ _ _ => Some text;
     MemoryDiscovery.bfsFileSearch := fun root fileName _ _ =>
       filter
         (fun p => String.prefix (root +:+ "/") p && String.eqb (Path.basename p "") fileName)
         (map fst files);
     MemoryDiscovery.resolve := fun p => p;
     MemoryDiscovery.relative := relativeUnder;
     MemoryDiscovery.homedir := home;
     MemoryDiscovery.LLXPRT_CONFIG_DIR := ".llxprt";
     MemoryDiscovery.getAllContextFilenames := names;
     MemoryDiscovery.DEFAULT_MEMORY_FILE_FILTERING_OPTIONS :=
       {| MemoryDiscovery.respectGitIgnore := false;
          MemoryDiscovery.respectLlxprtIgnore := true |} |}.

End Fixture.

(** ** The notions the statements are written with *)

Module ReadManyFilesDesign.

Import Js ReadManyFiles.

Section ReadManyFiles.
Variable h : Host.
Variable config : Config.
Variable params : ReadManyFilesParams.

(** An entry is kept for reading when it lies within the workspace and
    the two ignore filters, where they are respected, let it through. *)
Definition kept (entries : list string) (p : string) : bool :=
  isPathWithinWorkspace config p &&
  (negb (respectGitIgnore (fileFilteringOptions h config params)) ||
   arrayIncludes (gitFilteredEntries h config params entries) p) &&
  (negb (respectLlxprtIgnore (fileFilteringOptions h config params)) ||
   arrayIncludes (finalFilteredEntries h config params entries) p).

Definition securityRecord (p : string) : SkipRecord :=
  {| path := p; reason := securityReason p |}.

(** [part] is what reading [filePath] contributes to the content: its
    block, a prefix of its block followed by the truncation marker, or its
    inline data. *)
Definition partOf (filePath : string) (part : FileUtils.PartUnion) : Prop :=
  let r := processSingleFileContent h filePath (getTargetDir config) in
  match FileUtils.llmContent r with
  | FileUtils.Text text =>
      part = FileUtils.Text (contentToAdd filePath r text) \/
      exists n, part = FileUtils.Text (substring0 n (contentToAdd filePath r text) +:+ truncationMarker)
  | FileUtils.Inline p => part = FileUtils.Inline p
  end.

End ReadManyFiles.

(** [ceil(total / maxItems)] for a positive [maxItems]. *)
Definition strideOf (total maxItems : nat) : nat := (total + maxItems - 1) / maxItems.

(** The items of [l] at the indices [0], [step], [2 * step], ... *)
Definition atStride (step : nat) (l : list string) : list string :=
  map (fun k => nth (k * step) l "") (seq 0 (strideOf (List.length l) step)).

(** A pattern names an asset file explicitly when it contains the file's
    extension, letter case apart, or the file's base name without its
    extension. *)
Definition namesExplicitly (pattern filePath : string) : bool :=
  includes (toLowerCase pattern) (toLowerCase (Path.extname filePath)) ||
  includes pattern (Path.basename filePath (Path.extname filePath)).

(** The host [h] with another [glob]: the same file system, searched in
    another order. *)
Definition withGlob (h : Host)
  (g : list string -> list string -> string -> string + list string) : Host :=
  {| validate := validate h;
     glob := g;
     relative := relative h;
     resolve := resolve h;
     stat := stat h;
     detectFileType := detectFileType h;
     processSingleFileContent := processSingleFileContent h;
     toLocaleString := toLocaleString h;
     getCurrentContextFilename := getCurrentContextFilename h;
     DEFAULT_FILE_FILTERING_OPTIONS := DEFAULT_FILE_FILTERING_OPTIONS h |}.

Definition sameElements (l l' : list string) : Prop := forall x, In x l <-> In x l'.

(** Two searches find the same: the same error, or the same files in any
    order, with or without repetitions. *)
Definition sameFinds (a b : string + list string) : Prop :=
  match a, b with
  | inl e, inl e' => e = e'
  | inr l, inr l' => sameElements l l'
  | _, _ => False
  end.

(** The machine-consumable part of the outcome of a call. *)
Definition machineContent (c : Completion ToolResult) : Completion LlmContent :=
  match c with
  | Returns r => Returns (llmContent r)
  | Throws e => Throws e
  | Hangs => Hangs
  end.

Section Loop.
Variable h : Host.
Variable config : Config.

(** What one turn of the loop may change. *)
Record Grows (filePath : string) (st st' : LoopState) : Prop := {
  grows_calls : forall c, In c (fsCalls st) -> In c (fsCalls st');
  grows_calls_new : forall c, In c (fsCalls st') -> In c (fsCalls st) \/ calledOn c = filePath;
  grows_parts : forall part, In part (contentParts st') ->
    In part (contentParts st) \/
    (In (ProcessSingleFileContent filePath) (fsCalls st') /\ partOf h config filePath part);
  grows_skipped : forall r, In r (skippedFiles st) -> In r (skippedFiles st')
}.

End Loop.

(** Proves [Grows] for a state written with [skip], [called] and
    [accept]. *)
Ltac grows :=
  constructor; cbn [fsCalls contentParts skippedFiles skip called accept];
  intros ?; rewrite ?in_app_iff; cbn [In calledOn]; intuition (subst; auto).

(** An invocation that is aborted outright: it throws, or it returns a
    message in place of the file parts. *)
Definition aborted (c : Completion ToolResult) : bool :=
  match c with
  | Returns r =>
      match llmContent r with
      | Message _ => true
      | Parts _ => false
      end
  | Throws _ => true
  | Hangs => false
  end.

(** Two states of the loop that differ in their skip logs and call lists
    only. *)
Definition sameContent (st st' : LoopState) : Prop :=
  totalTokens st = totalTokens st' /\
  contentParts st = contentParts st' /\
  processedFilesRelativePaths st = processedFilesRelativePaths st'.

(** The order of [sort]. *)
Definition inOrder (a b : string) : Prop := String.leb a b = true.

End ReadManyFilesDesign.

Module MemoryDiscoveryDesign.

Import Js MemoryDiscovery.

(** The measure that [path.dirname] decreases: the length of the path,
    and one more for a path that is not its own parent; the empty path,
    whose parent is [.], counts 2. *)
Definition height (d : string) : nat :=
  if String.eqb d "" then 2
  else String.length d + (if String.eqb (Path.dirname d) d then 0 else 1).

(** A list with the repetitions of each element after its first
    occurrence dropped. *)
Fixpoint dedup (l : list string) : list string :=
  match l with
  | [] => []
  | x :: l' => x :: filter (fun y => negb (String.eqb y x)) (dedup l')
  end.

(** [d], its parent, its grandparent, ...: [n + 1] directories. *)
Fixpoint levels (n : nat) (d : string) : list string :=
  match n with
  | O => [d]
  | S n' => d :: levels n' (Path.dirname d)
  end.

(** The part of a chain of directories that the upward scan looks at: it
    ends before the empty path, before a directory that is its own parent
    (the file system root) and before [configDir], and it ends with
    [stop]. *)
Fixpoint visited (stop configDir : string) (chain : list string) : list string :=
  match chain with
  | [] => []
  | d :: chain' =>
      if String.eqb d "" || String.eqb d (Path.dirname d) || String.eqb d configDir
      then []
      else if String.eqb d stop then [d]
      else d :: visited stop configDir chain'
  end.

Section Discovery.
Variable h : Host.

(** [d] holds a [.git] directory. *)
Definition hasGit (d : string) : bool :=
  match lstatIsDirectory h (Path.join [d; ".git"]) with
  | Some true => true
  | _ => false
  end.

(** The nearest directory with a [.git] directory, from [startDir] up. *)
Definition projectRootOf (startDir : string) : option string :=
  let d := resolve h startDir in
  find hasGit (levels (climbFuel d) d).

Section ForEachDir.
Variable dir : string.
Variable userHomePath : string.
Variable fileFilteringOptions : FileFilteringOptions.
Variable maxDirs : Z.

(** The directories the upward scan looks at, from [dir] up. *)
Definition visitedLevels : list string :=
  let start := resolve h dir in
  visited (ultimateStopDir h userHomePath (projectRootOf start))
    (Path.join [resolvedHome h userHomePath; LLXPRT_CONFIG_DIR h])
    (levels (climbFuel start) start).

(** The context files of the visited directories that are readable and
    are not the global file, from the highest directory down to [dir]. *)
Definition upwardMatches (contextFilename : string) : list string :=
  rev (filter
         (fun p => access h p &&
                   negb (String.eqb p (globalMemoryPath h userHomePath contextFilename)))
         (map (fun d => Path.join [d; contextFilename]) visitedLevels)).

(** What one context file name contributes, in order: the global file,
    the upward matches, the downward matches. *)
Definition pathsFor (contextFilename : string) : list string :=
  (if access h (globalMemoryPath h userHomePath contextFilename)
   then [globalMemoryPath h userHomePath contextFilename]
   else []) ++
  (if String.eqb dir "" then []
   else upwardMatches contextFilename ++
        downwardPathsFor h dir fileFilteringOptions maxDirs contextFilename).

End ForEachDir.

(** The block of one context file in the document, if it has one. *)
Definition contribution (currentWorkingDirectory : string) (debugMode : bool)
  (importFormat : ImportFormat) (p : string) : list string :=
  match content (readContextFile h debugMode importFormat p) with
  | Some text =>
      if String.eqb (trim text) "" then []
      else
        let displayPath :=
          if Path.isAbsolute p then relative h currentWorkingDirectory p else p in
        [ "--- Context from: " +:+ displayPath +:+ " ---" +:+ nl +:+ trim text +:+ nl +:+
          "--- End of Context from: " +:+ displayPath +:+ " ---" ]
  | None => []
  end.

End Discovery.

End MemoryDiscoveryDesign.

(** ** The worlds of the examples *)

Module Worlds.

Import Js Fixture.

Section ReadManyFiles.
Import ReadManyFiles.

(** Two text files in the workspace and one file outside of it. *)
Definition files : Files :=
  [ ("/ws/a.txt", "hello"); ("/ws/b.txt", "world"); ("/etc/passwd", "root") ].

(** [glob] reports the outside file between the two others. *)
Definition escaping : Host := host files ["/ws/b.txt"; "/etc/passwd"; "/ws/a.txt"].

(** [glob] reports the two workspace files only. *)
Definition inside : Host := host files ["/ws/b.txt"; "/ws/a.txt"].

(** Twenty files [/ws/f00] ... [/ws/f19], reported in reverse order. *)
Definition twentyNames : list string :=
  map (fun k => "/ws/f" +:+ (if (k <? 10)%nat then "0" else "") +:+
                numberToString (Z.of_nat k)) (seq 0 20).

Definition twenty : Host :=
  host (map (fun p => (p, "x")) twentyNames) (rev twentyNames).

(** A picture with an upper case extension beside a text file. *)
Definition withPicture : Host :=
  host [ ("/ws/a.txt", "hello"); ("/ws/pic.PNG", "iVBORw0KGgo=") ]
       ["/ws/a.txt"; "/ws/pic.PNG"].

(** The pattern that finds the picture is in [paths]; [include] adds a
    pattern with the picture's extension. *)
Definition everything : ReadManyFilesParams :=
  {| paths := ["*"]; include := Some ["*.png"]; exclude := None; recursive := None;
     useDefaultExcludes := None; file_filtering_options := None |}.

Fixpoint repeated (n : nat) (s : string) : string :=
  match n with
  | O => ""
  | S n' => s +:+ repeated n' s
  end.

(** A text file of 500 characters. *)
Definition longText : string := repeated 50 "0123456789".

Definition long : Host := host [ ("/ws/long.txt", longText) ] ["/ws/long.txt"].

(** A limit of 3 bytes per file. *)
Definition threeBytes : Config :=
  config {| tool_output_max_items := None; tool_output_max_tokens := None;
            tool_output_truncate_mode := None;
            tool_output_item_size_limit := Some 3%Z |}.

(** Two long files and an empty one. *)
Definition crowded : Host :=
  host [ ("/ws/long.txt", longText); ("/ws/mid.txt", longText); ("/ws/z.txt", "") ]
       ["/ws/long.txt"; "/ws/mid.txt"; "/ws/z.txt"].

End ReadManyFiles.

Section MemoryDiscovery.
Import MemoryDiscovery.

Definition anyOptions : FileFilteringOptions :=
  {| respectGitIgnore := true; respectLlxprtIgnore := true |}.

(** A project [/r/p] with a [.git] directory, seen from [/r/p/a/b]: a
    global file, context files in [/r], [/r/p] and [/r/p/a/b], one three
    levels below, and one at the file system root. *)
Definition project : Host :=
  memoryHost
    [ ("/home/u/.llxprt/LLXPRT.md", "global");
      ("/LLXPRT.md", "root");
      ("/r/LLXPRT.md", "above");
      ("/r/p/LLXPRT.md", "project");
      ("/r/p/a/b/LLXPRT.md", "here");
      ("/r/p/a/b/z/LLXPRT.md", "z");
      ("/r/p/a/b/c/d/e/LLXPRT.md", "deep") ]
    ["/r/p/.git"] "/home/u" ["LLXPRT.md"].

(** Two recognized context file names in the project [/r/p]. *)
Definition twoNames : Host :=
  memoryHost
    [ ("/home/u/.llxprt/A.md", "global");
      ("/r/p/A.md", "a");
      ("/r/p/sub/A.md", "below");
      ("/r/p/B.md", "b") ]
    ["/r/p/.git"] "/home/u" ["A.md"; "B.md"].

(** No [.git] directory anywhere; the home directory is [/a/b/u] and the
    scan starts in [/a/b/u/p]. *)
Definition underHome : Host :=
  memoryHost
    [ ("/a/LLXPRT.md", "far above"); ("/a/b/u/p/LLXPRT.md", "here") ]
    [] "/a/b/u" ["LLXPRT.md"].

(** One context file, holding white space only. *)
Definition blank : Host :=
  memoryHost [ ("/r/p/LLXPRT.md", "   ") ] ["/r/p/.git"] "/home/u" ["LLXPRT.md"].

End MemoryDiscovery.

End Worlds.

(** ** [getDescription] of [packages/core/src/tools/read-many-files.ts] *)

Module ReadManyFilesDescription.

Import Js ReadManyFiles.

(** The double quote of the template literal. *)
Definition quote : string := String (ascii_of_nat 34) "".

Section GetDescription.

(** [DEFAULT_ENCODING], a constant of [fileUtils.ts]. *)
Variable DEFAULT_ENCODING : string.
Variable h : Host.
Variable config : Config.
Variable params : ReadManyFilesParams.

Definition allPatterns : list string :=
  paths params ++ orElse (include params) [].

Definition pathDesc : string :=
  "using patterns: `" +:+ String.concat "`, `" allPatterns +:+
  "` (within target directory: `" +:+ getTargetDir config +:+ "`)".

Definition paramExcludes : list string := orElse (exclude params) [].

(** [params.useDefaultExcludes !== false]. *)
Definition paramUseDefaultExcludes : bool :=
  match useDefaultExcludes params with
  | Some false => false
  | _ => true
  end.

Definition finalExclusionPatternsForDescription : list string :=
  if paramUseDefaultExcludes
  then DEFAULT_EXCLUDES h ++ paramExcludes ++ getLlxprtIgnorePatterns config
  else paramExcludes ++ getLlxprtIgnorePatterns config.

(** [this.llxprtIgnorePatterns.filter((p) => final.includes(p)).length]. *)
Definition llxprtPatternsInEffect : Z :=
  len (filter (arrayIncludes finalExclusionPatternsForDescription)
         (getLlxprtIgnorePatterns config)).

(** [excludeDesc], the note on [.llxprtignore] included. *)
Definition excludeDesc : string :=
  "Excluding: " +:+
  (if (len finalExclusionPatternsForDescription >? 0)%Z then
     "patterns like `" +:+
     String.concat "`, `" (firstn 2 finalExclusionPatternsForDescription) +:+
     (if (len finalExclusionPatternsForDescription >? 2)%Z then "...`" else "`")
   else "none specified") +:+
  (if (len (getLlxprtIgnorePatterns config) >? 0)%Z && (llxprtPatternsInEffect >? 0)%Z
   then " (includes " +:+ numberToString llxprtPatternsInEffect +:+ " from .llxprtignore)"
   else "").

Definition getDescription : string :=
  "Will attempt to read and concatenate files " +:+ pathDesc +:+ ". " +:+ excludeDesc +:+
  ". File encoding: " +:+ DEFAULT_ENCODING +:+ ". Separator: " +:+ quote +:+
  separatorFor "path/to/file.ext" +:+ quote +:+ ".".

End GetDescription.

End ReadManyFilesDescription.

(** ** The notions of the further statements *)

Module ReadManyFilesAccounting.

Import Js ReadManyFiles.

(** [l] is [l'] with some of its items left out. *)
Inductive subsequence {A} : list A -> list A -> Prop :=
| subsequence_nil : subsequence [] []
| subsequence_keep x l l' : subsequence l l' -> subsequence (x :: l) (x :: l')
| subsequence_drop x l l' : subsequence l l' -> subsequence l (x :: l').

(** [a] sorts strictly before [b]. *)
Definition before (a b : string) : Prop := String.ltb a b = true.

(** The files that were the argument of [stat], in the order of the calls. *)
Definition statted (calls : list FsCall) : list string :=
  flat_map (fun c => match c with Stat p => [p] | _ => [] end) calls.

(** The files that were the argument of [processSingleFileContent]. *)
Definition reads (calls : list FsCall) : list string :=
  flat_map (fun c => match c with ProcessSingleFileContent p => [p] | _ => [] end) calls.

(** The tokens a part is counted for when it is added in full: the
    estimate of a text, 85 for inline data. *)
Definition costOf (part : FileUtils.PartUnion) : Z :=
  match part with
  | FileUtils.Text s => estimateTokens s
  | FileUtils.Inline _ => 85%Z
  end.

Definition totalCost (parts : list FileUtils.PartUnion) : Z :=
  fold_right (fun part acc => (costOf part + acc)%Z) 0%Z parts.

(** The loop over the files passes [filePath] over without reading
    anything from it: [stat] fails, the file is larger than the limit, it
    is an image or a PDF that was not asked for, or the read fails. *)
Definition rejected (h : Host) (config : Config) (params : ReadManyFilesParams)
  (filePath : string) : bool :=
  match stat h filePath with
  | inl _ => true
  | inr size =>
      (size >? fileSizeLimit config)%Z ||
      (isAsset (detectFileType h filePath) && negb (requestedExplicitly params filePath)) ||
      truthy (FileUtils.error (processSingleFileContent h filePath (getTargetDir config)))
  end.


(** The entries [glob] produced that lie outside the workspace. *)
Definition outside (config : Config) (entries : list string) : list string :=
  filter (fun p => negb (isPathWithinWorkspace config p)) entries.

End ReadManyFilesAccounting.

Module MemoryDiscoveryAccounting.

Import Js MemoryDiscovery MemoryDiscoveryDesign.

(** An item that contributes no block: it could not be read, or it holds
    white space only. *)
Definition blankItem (item : GeminiFileContent) : bool :=
  match content item with
  | None => true
  | Some text => (String.length (trim text) =? 0)%nat
  end.

Section Discovery.
Variable h : Host.

(** What one directory contributes: for each context file name in turn
    its paths, then the extension paths, repetitions dropped. *)
Definition pathsOfDir (home : string) (opts : FileFilteringOptions) (maxDirs : Z)
  (ext : list string) (dir : string) : list string :=
  dedup (flat_map (pathsFor h dir home opts maxDirs) (getAllContextFilenames h) ++ ext).

(** The global files that are readable, one per context file name. *)
Definition globalPaths (home : string) : list string :=
  filter (access h) (map (globalMemoryPath h home) (getAllContextFilenames h)).

End Discovery.

End MemoryDiscoveryAccounting.

(** ** Further worlds *)

Module MoreWorlds.

Import Js Fixture Worlds.

Section ReadManyFiles.
Import ReadManyFiles.

(** The configuration of [Fixture.config] with an ignore service whose
    [.gitignore] lists [b.txt]. *)
Definition ignoring (s : EphemeralSettings) : Config :=
  {| getTargetDir := "/ws";
     getFileFilteringOptions := None;
     getLlxprtIgnorePatterns := [];
     filterFiles := fun l o =>
       if respectGitIgnore o then filter (fun p => negb (String.eqb p "b.txt")) l else l;
     getDirectories := ["/ws"];
     isPathWithinWorkspace := fun p => String.prefix "/ws/" p;
     getEphemeralSettings := s |}.

(** Three workspace roots. *)
Definition threeRoots : Config :=
  {| getTargetDir := "/ws";
     getFileFilteringOptions := None;
     getLlxprtIgnorePatterns := [];
     filterFiles := fun l _ => l;
     getDirectories := ["/ws"; "/lib"; "/doc"];
     isPathWithinWorkspace := fun p => String.prefix "/ws/" p;
     getEphemeralSettings := defaults |}.

(** A host whose [glob] finds [/ws/a.txt] in the first root; by the time
    of the other two roots the signal of the call is aborted, and [glob]
    throws. *)
Definition failing : Host :=
  {| validate := fun _ => None;
     glob := fun _ _ cwd =>
       if String.eqb cwd "/ws" then inr ["/ws/a.txt"]
       else inl "This operation was aborted";
     relative := relativeUnder;
     resolve := resolveUnder;
     stat := stat inside;
     detectFileType := typeByExtension;
     processSingleFileContent := processSingleFileContent inside;
     toLocaleString := numberToString;
     getCurrentContextFilename := "LLXPRT.md";
     DEFAULT_FILE_FILTERING_OPTIONS :=
       {| respectGitIgnore := true; respectLlxprtIgnore := true |} |}.

(** A configuration with two patterns from [.llxprtignore], one of them
    twice. *)
Definition withIgnoreFile : Config :=
  {| getTargetDir := "/ws";
     getFileFilteringOptions := None;
     getLlxprtIgnorePatterns := ["*.log"; "tmp/"; "*.log"];
     filterFiles := fun l _ => l;
     getDirectories := ["/ws"];
     isPathWithinWorkspace := fun p => String.prefix "/ws/" p;
     getEphemeralSettings := defaults |}.

(** A picture between two text files. *)
Definition gallery : Host :=
  host [ ("/ws/a.txt", "hello"); ("/ws/pic.PNG", "iVBORw0KGgo="); ("/ws/z.txt", "") ]
       ["/ws/a.txt"; "/ws/pic.PNG"; "/ws/z.txt"].

(** The world [inside] with a file [/ws/b.txt] that cannot be opened. *)
Definition unreadable : Host :=
  {| validate := validate inside;
     glob := glob inside;
     relative := relative inside;
     resolve := resolve inside;
     stat := stat inside;
     detectFileType := detectFileType inside;
     processSingleFileContent := fun p root =>
       if String.eqb p "/ws/b.txt" then
         {| FileUtils.llmContent := FileUtils.Text "EACCES: permission denied";
            FileUtils.error := Some "EACCES: permission denied";
            FileUtils.isTruncated := false |}
       else processSingleFileContent inside p root;
     toLocaleString := toLocaleString inside;
     getCurrentContextFilename := getCurrentContextFilename inside;
     DEFAULT_FILE_FILTERING_OPTIONS := DEFAULT_FILE_FILTERING_OPTIONS inside |}.

(** A request with exclude patterns of its own. *)
Definition excluding (useDefaults : option bool) : ReadManyFilesParams :=
  {| paths := ["src/**/*.ts"]; include := Some ["*.md"]; exclude := Some ["**/*.test.ts"];
     recursive := None; useDefaultExcludes := useDefaults;
     file_filtering_options := None |}.

End ReadManyFiles.

(** A context file in the home directory [/home/u], beside the global
    one in [/home/u/.llxprt]. *)
Definition homeFile : MemoryDiscovery.Host :=
  memoryHost
    [ ("/home/u/.llxprt/LLXPRT.md", "global"); ("/home/u/LLXPRT.md", "home") ]
    [] "/home/u" ["LLXPRT.md"].

End MoreWorlds.

(** ** Facts about the JavaScript built-ins *)

Module JsFacts.

Import Js.

Lemma len_app {A} (l l' : list A) : len (l ++ l') = (len l + len l')%Z.
Proof. unfold len. rewrite length_app. lia. Qed.

Lemma len_nonneg {A} (l : list A) : (0 <= len l)%Z.
Proof. unfold len. lia. Qed.

Lemma setAdd_In x y s : In y (setAdd x s) <-> y = x \/ In y s.
Proof. unfold setAdd. apply set_add_iff. Qed.

Lemma setAdd_NoDup x s : NoDup s -> NoDup (setAdd x s).
Proof. unfold setAdd. apply set_add_nodup. Qed.

Lemma setAdd_old x s : In x s -> setAdd x s = s.
Proof.
  unfold setAdd. induction s as [|y s IH]; simpl; [tauto|].
  intros [->|Hin].
  - destruct (string_dec x x); congruence.
  - destruct (string_dec x y); [reflexivity|]. now rewrite IH.
Qed.

Lemma setAdd_new x s : ~ In x s -> setAdd x s = s ++ [x].
Proof.
  unfold setAdd. induction s as [|y s IH]; simpl; [reflexivity|].
  intros Hn. destruct (string_dec x y) as [->|_]; [tauto|].
  rewrite IH; tauto.
Qed.

Lemma setAddAll_app l l' s : setAddAll (l ++ l') s = setAddAll l' (setAddAll l s).
Proof. unfold setAddAll. apply fold_left_app. Qed.

Lemma setAddAll_In l : forall s y, In y (setAddAll l s) <-> In y l \/ In y s.
Proof.
  induction l as [|x l IH]; intros s y; simpl.
  - tauto.
  - change (In y (setAddAll l (setAdd x s)) <-> (x = y \/ In y l) \/ In y s).
    rewrite IH, setAdd_In. intuition congruence.
Qed.

Lemma setAddAll_NoDup l : forall s, NoDup s -> NoDup (setAddAll l s).
Proof.
  induction l as [|x l IH]; intros s Hs; simpl; [assumption|].
  apply IH, setAdd_NoDup, Hs.
Qed.

Lemma arrayIncludes_In a x : arrayIncludes a x = true <-> In x a.
Proof.
  unfold arrayIncludes. rewrite existsb_exists. split.
  - intros [y [Hin Heq]]. apply String.eqb_eq in Heq. now subst.
  - intros Hin. exists x. split; [assumption|apply String.eqb_refl].
Qed.

Lemma firstn_incl {A} n : forall l : list A, incl (firstn n l) l.
Proof.
  induction n as [|n IH]; intros [|x l]; cbn; try apply incl_nil_l.
  apply incl_cons; [now left|]. apply incl_tl, IH.
Qed.

(** *** [sort] *)

Lemma insertSorted_perm x l : Permutation (insertSorted x l) (x :: l).
Proof.
  induction l as [|y l IH]; simpl; [reflexivity|].
  destruct (String.leb x y); [reflexivity|].
  rewrite IH. apply perm_swap.
Qed.

Lemma sort_perm l : Permutation (sort l) l.
Proof.
  induction l as [|x l IH]; simpl; [reflexivity|].
  rewrite insertSorted_perm. now constructor.
Qed.

Lemma sort_In l x : In x (sort l) <-> In x l.
Proof.
  split; apply Permutation_in; [apply sort_perm | symmetry; apply sort_perm].
Qed.

Lemma sort_length l : List.length (sort l) = List.length l.
Proof. apply Permutation_length, sort_perm. Qed.

End JsFacts.

Module StringFacts.

Import Js.

Lemma string_of_app a b :
  string_of_list_ascii (a ++ b) = string_of_list_ascii a +:+ string_of_list_ascii b.
Proof. induction a as [|c a IH]; cbn; [reflexivity|now rewrite IH]. Qed.

Lemma list_of_length s : List.length (list_ascii_of_string s) = String.length s.
Proof. induction s as [|c s IH]; cbn; [reflexivity|now rewrite IH]. Qed.

Lemma string_of_length l : String.length (string_of_list_ascii l) = List.length l.
Proof. induction l as [|c l IH]; cbn; [reflexivity|now rewrite IH]. Qed.

Lemma append_length a b : String.length (a +:+ b) = (String.length a + String.length b)%nat.
Proof. induction a as [|c a IH]; cbn; [reflexivity|now rewrite IH]. Qed.

Lemma toLowerCase_length s : String.length (toLowerCase s) = String.length s.
Proof. induction s as [|c s IH]; cbn; [reflexivity|now rewrite IH]. Qed.

Lemma prefix_append_left a b : forall t,
  String.prefix (a +:+ b) t = true -> String.prefix a t = true.
Proof.
  induction a as [|c a IH]; intros [|d t]; cbn; try reflexivity; try discriminate.
  destruct (ascii_dec c d); [apply IH|discriminate].
Qed.

(** A string that contains [a +:+ b] contains [a]. *)
Lemma includes_append_left a b s :
  includes s (a +:+ b) = true -> includes s a = true.
Proof.
  induction s as [|c s IH]; cbn [includes]; intros H; apply orb_prop in H as [H|H].
  - apply prefix_append_left in H. now rewrite H.
  - discriminate.
  - apply prefix_append_left in H. now rewrite H.
  - rewrite IH by assumption. apply orb_true_r.
Qed.

Lemma substring0_prefix n : forall s, String.prefix (String.substring 0 n s) s = true.
Proof.
  induction n as [|n IH]; intros [|c s]; cbn; try reflexivity.
  destruct (ascii_dec c c); [apply IH|congruence].
Qed.

Lemma substring0_length n : forall s,
  String.length (String.substring 0 n s) = Nat.min n (String.length s).
Proof.
  induction n as [|n IH]; intros [|c s]; cbn; try reflexivity. now rewrite IH.
Qed.

Lemma app_same_length {A} (a a' : list A) : forall b b',
  List.length a = List.length a' -> a ++ b = a' ++ b' -> b' = b.
Proof.
  revert a'. induction a as [|x a IH]; intros [|x' a'] b b'; cbn; try discriminate.
  - congruence.
  - intros [= Hl] [= _ H]. eapply IH; eauto.
Qed.

Lemma takeWhile_dropWhile {A} (f : A -> bool) l : takeWhile f l ++ dropWhile f l = l.
Proof.
  induction l as [|x l IH]; cbn; [reflexivity|].
  destruct (f x); cbn; [now rewrite IH|reflexivity].
Qed.

Lemma takeWhile_length {A} (f : A -> bool) l : (List.length (takeWhile f l) <= List.length l)%nat.
Proof. induction l as [|x l IH]; cbn; [lia|]. destruct (f x); cbn; lia. Qed.

Lemma dropWhile_length {A} (f : A -> bool) l : (List.length (dropWhile f l) <= List.length l)%nat.
Proof. induction l as [|x l IH]; cbn; [lia|]. destruct (f x); cbn; lia. Qed.

End StringFacts.

Module SortFacts.

Import Js JsFacts ReadManyFilesDesign.

Lemma compare_as_OT a : forall b, String.compare a b = String_as_OT.compare a b.
Proof.
  induction a as [|x a IH]; intros [|y b]; reflexivity.
Qed.

Lemma leb_refl a : String.leb a a = true.
Proof.
  unfold String.leb. pose proof (String.compare_antisym a a) as H.
  destruct (String.compare a a); cbn in H; congruence.
Qed.

Lemma lt_trans a b c : String_as_OT.lt a b -> String_as_OT.lt b c -> String_as_OT.lt a c.
Proof. exact (@StrictOrder_Transitive _ _ String_as_OT.lt_strorder a b c). Qed.

Lemma lt_irrefl a : ~ String_as_OT.lt a a.
Proof. exact (@StrictOrder_Irreflexive _ _ String_as_OT.lt_strorder a). Qed.

Lemma leb_lt_or_eq a b : String.leb a b = true <-> String_as_OT.lt a b \/ a = b.
Proof.
  unfold String.leb. rewrite compare_as_OT.
  destruct (String_as_OT.compare_spec a b) as [H|H|H].
  - split; [now right|reflexivity].
  - split; [now left|reflexivity].
  - split; [discriminate|]. intros [H'| ->].
    + exfalso. apply (lt_irrefl a). eapply lt_trans; eauto.
    + exfalso. now apply (lt_irrefl b).
Qed.

Lemma leb_trans a b c : String.leb a b = true -> String.leb b c = true -> String.leb a c = true.
Proof.
  intros H1 H2. apply leb_lt_or_eq in H1, H2. apply leb_lt_or_eq.
  destruct H1 as [H1| ->]; destruct H2 as [H2| ->]; auto.
  left. eapply lt_trans; eauto.
Qed.

Lemma insertSorted_sorted x l :
  StronglySorted inOrder l -> StronglySorted inOrder (insertSorted x l).
Proof.
  induction 1 as [|y l Hl IH Hy]; cbn.
  - repeat constructor.
  - destruct (String.leb x y) eqn:E.
    + constructor; [now constructor|]. constructor; [exact E|].
      eapply Forall_impl; [|exact Hy]. intros z Hz. eapply leb_trans; eauto.
    + constructor; [exact IH|].
      assert (Hyx : inOrder y x).
      { destruct (String.leb_total x y) as [H|H]; [congruence|exact H]. }
      rewrite Forall_forall in *. intros z Hz.
      apply (Permutation_in _ (insertSorted_perm x l)) in Hz as [<-|Hz]; auto.
Qed.

Lemma sort_sorted l : StronglySorted inOrder (sort l).
Proof.
  induction l as [|x l IH]; cbn; [constructor|]. now apply insertSorted_sorted.
Qed.

(** Two sorted lists with the same elements, each once, are equal. *)
Lemma sorted_unique l : forall l',
  StronglySorted inOrder l -> StronglySorted inOrder l' -> Permutation l l' -> l = l'.
Proof.
  induction l as [|x l IH]; intros l' Hl Hl' Hp.
  - apply Permutation_nil in Hp. now subst.
  - destruct l' as [|y l'].
    { symmetry in Hp. apply Permutation_nil in Hp. discriminate. }
    inversion Hl as [|? ? Hs Hx]; subst. inversion Hl' as [|? ? Hs' Hy]; subst.
    rewrite Forall_forall in Hx, Hy.
    assert (x = y) as ->.
    { apply String.leb_antisym.
      - assert (In y (x :: l)) as [->|Hin]
          by (eapply Permutation_in; [symmetry; exact Hp|now left]).
        + apply leb_refl.
        + now apply Hx.
      - assert (In x (y :: l')) as [->|Hin]
          by (eapply Permutation_in; [exact Hp|now left]).
        + apply leb_refl.
        + now apply Hy. }
    f_equal. apply IH; auto. eapply Permutation_cons_inv; eauto.
Qed.

Lemma sort_unique l l' :
  NoDup l -> NoDup l' -> (forall x, In x l <-> In x l') -> sort l = sort l'.
Proof.
  intros Hl Hl' Hin. apply sorted_unique; try apply sort_sorted.
  rewrite !sort_perm. now apply NoDup_Permutation.
Qed.

End SortFacts.

(** ** Facts about Node's [path] *)

Module PathFacts.

Import Js StringFacts Path.

Lemma lastComponentRev_length p : (List.length (lastComponentRev p) <= List.length p)%nat.
Proof.
  unfold lastComponentRev.
  pose proof (takeWhile_length notSep (dropWhile isSep (rev p))).
  pose proof (dropWhile_length isSep (rev p)).
  rewrite length_rev in *. lia.
Qed.

Lemma matchSuffix_same a : forall b c, matchSuffix (a ++ b) (a ++ c) = matchSuffix b c.
Proof.
  induction a as [|x a IH]; intros b c; cbn; [reflexivity|].
  now rewrite Ascii.eqb_refl.
Qed.

Lemma matchSuffix_matched s : forall c rest, matchSuffix s c = Matched rest -> c = s ++ rest.
Proof.
  induction s as [|x s IH]; intros c rest; cbn.
  - now intros [= ->].
  - destruct c as [|y c]; [discriminate|].
    destruct (Ascii.eqb y x) eqn:E; [|discriminate].
    apply Ascii.eqb_eq in E as ->. intros H. now rewrite (IH _ _ H).
Qed.

(** The shape of a path with an extension: its last component is a
    non-empty stem, a dot and the rest of the extension. *)
Lemma extname_shape p :
  Path.extname p = "" \/
  exists rext rpre,
    rpre <> [] /\
    lastComponentRev (list_ascii_of_string p) = rext ++ "."%char :: rpre /\
    Path.extname p = string_of_list_ascii ("."%char :: rev rext).
Proof.
  unfold Path.extname.
  set (rcomp := lastComponentRev (list_ascii_of_string p)).
  pose proof (takeWhile_dropWhile notDot rcomp) as Hsplit.
  destruct (dropWhile notDot rcomp) as [|d rpre] eqn:Hdrop; [now left|].
  assert (d = "."%char) as ->.
  { clear Hsplit. revert Hdrop. induction rcomp as [|x l IH]; cbn; [discriminate|].
    destruct (notDot x) eqn:E; [exact IH|].
    intros [= -> _]. unfold notDot, isDot in E.
    apply negb_false_iff, Ascii.eqb_eq in E. exact E. }
  destruct (rev rpre) as [|c pre'] eqn:Hrev; [now left|].
  destruct (isDot c && _ && _); [now left|].
  right. exists (takeWhile notDot rcomp), rpre. repeat split.
  - intros ->. discriminate.
  - now rewrite Hsplit.
Qed.

(** [path.basename(p, ext)] for the extension of [p] in lower case keeps
    the base name without extension in front. *)
Lemma basename_lower_extension p :
  exists rest,
    Path.basename p (toLowerCase (Path.extname p)) =
    Path.basename p (Path.extname p) +:+ rest.
Proof.
  destruct (extname_shape p) as [E|(rext & rpre & Hpre & Hcomp & E)].
  { rewrite E. cbn [toLowerCase]. exists "". generalize (Path.basename p ""). 
    induction s as [|c s IH]; cbn; [reflexivity|now rewrite <- IH]. }
  assert (Hlen : String.length (Path.extname p) = S (List.length rext)).
  { rewrite E, string_of_length. cbn. now rewrite length_rev. }
  assert (Hp : (S (S (List.length rext)) <= String.length p)%nat).
  { pose proof (lastComponentRev_length (list_ascii_of_string p)) as H.
    rewrite Hcomp, length_app, list_of_length in H. cbn in H.
    destruct rpre; [congruence|]. cbn in H. lia. }
  assert (Hstem : Path.basename p (Path.extname p) = string_of_list_ascii (rev rpre)).
  { unfold Path.basename. rewrite Hlen.
    replace ((0 <? S (List.length rext))%nat && (S (List.length rext) <=? String.length p)%nat)
      with true.
    2:{ symmetry. apply andb_true_iff. split; [reflexivity|apply Nat.leb_le; lia]. }
    destruct (String.eqb_spec (Path.extname p) p) as [Heq|_].
    { rewrite Heq in Hlen. lia. }
    rewrite Hcomp, E, list_ascii_of_string_of_list_ascii. cbn [rev].
    rewrite rev_involutive, matchSuffix_same. cbn.
    destruct rpre; [congruence|reflexivity]. }
  assert (Hcompstr : string_of_list_ascii (rev (rext ++ "."%char :: rpre)) =
                     string_of_list_ascii (rev rpre) +:+ Path.extname p).
  { rewrite E, rev_app_distr. cbn [rev]. rewrite <- app_assoc, string_of_app. reflexivity. }
  rewrite Hstem. unfold Path.basename.
  rewrite toLowerCase_length, Hlen.
  replace ((0 <? S (List.length rext))%nat && (S (List.length rext) <=? String.length p)%nat)
    with true.
  2:{ symmetry. apply andb_true_iff. split; [reflexivity|apply Nat.leb_le; lia]. }
  destruct (String.eqb_spec (toLowerCase (Path.extname p)) p) as [Heq|_].
  { apply (f_equal String.length) in Heq. rewrite toLowerCase_length in Heq. lia. }
  rewrite Hcomp.
  destruct (matchSuffix _ _) as [rest| |] eqn:Hm.
  - apply matchSuffix_matched in Hm.
    assert (rest = rpre) as ->.
    { apply (app_same_length (rext ++ ["."%char])
               (rev (list_ascii_of_string (toLowerCase (Path.extname p))))).
      - rewrite length_app, length_rev, list_of_length, toLowerCase_length. cbn. lia.
      - rewrite <- app_assoc. cbn. congruence. }
    destruct rpre; [congruence|]. exists "".
    generalize (string_of_list_ascii (rev (a :: rpre))).
    induction s as [|c s IH]; cbn; [reflexivity|now rewrite <- IH].
  - exists (Path.extname p). exact Hcompstr.
  - eexists. rewrite Hcompstr.
    generalize (string_of_list_ascii (rev rpre)).
    intros s. induction s as [|c s IH]; cbn; [reflexivity|now rewrite IH].
Qed.

End PathFacts.

Module ClimbFacts.

Import Js StringFacts Path MemoryDiscoveryDesign.

Lemma dropWhile_head {A} (f : A -> bool) l x t : dropWhile f l = x :: t -> f x = false.
Proof.
  induction l as [|y l IH]; cbn; [discriminate|].
  destruct (f y) eqn:E; [exact IH|]. now intros [= <- _].
Qed.

(** What is left after the trailing separators and the last component is
    shorter by two characters at least. *)
Lemma afterComponent_length l x before :
  dropWhile notSep (dropWhile isSep l) = x :: before ->
  (List.length before + 2 <= List.length l)%nat.
Proof.
  intros H. pose proof (dropWhile_length isSep l) as H1.
  destruct (dropWhile isSep l) as [|y r1] eqn:E; [discriminate|].
  apply dropWhile_head in E. cbn in H. unfold notSep in H. rewrite E in H. cbn in H.
  pose proof (dropWhile_length (fun c => negb (isSep c)) r1) as H2.
  fold notSep in H2. unfold notSep in H2. rewrite H in H2. cbn in *. lia.
Qed.

Lemma dirname_nonempty d : dirname d <> "".
Proof.
  unfold dirname. destruct (list_ascii_of_string d) as [|c0 rest]; [discriminate|].
  destruct (dropWhile notSep _) as [|x before].
  - destruct (isSep c0); discriminate.
  - destruct (isSep c0 && _); discriminate.
Qed.

Lemma dirname_climbs d :
  d <> "" ->
  (String.length (dirname d) < String.length d)%nat \/
  (dirname (dirname d) = dirname d /\ (String.length (dirname d) <= String.length d)%nat).
Proof.
  intros Hd. unfold dirname at 1 3 4 5.
  rewrite <- (list_of_length d).
  destruct (list_ascii_of_string d) as [|c0 rest] eqn:E.
  { destruct d; [congruence|discriminate]. }
  destruct (dropWhile notSep (dropWhile isSep (rev rest))) as [|x before] eqn:Ha.
  - right. destruct (isSep c0); cbn; split; try reflexivity; lia.
  - left. apply afterComponent_length in Ha. rewrite length_rev in Ha.
    destruct (isSep c0 && _).
    + cbn. lia.
    + rewrite string_of_length. cbn. rewrite length_rev. lia.
Qed.

Lemma dirname_height d :
  dirname d <> d -> (height (dirname d) < height d)%nat.
Proof.
  intros Hne. unfold height at 2.
  destruct (String.eqb_spec d "") as [->|Hd]; [cbn; lia|].
  destruct (String.eqb_spec (dirname d) d) as [|_]; [contradiction|].
  unfold height.
  destruct (String.eqb_spec (dirname d) "") as [E|_]; [now apply dirname_nonempty in E|].
  destruct (dirname_climbs d Hd) as [H|[Hfix H]].
  - destruct (String.eqb _ _); lia.
  - rewrite Hfix, String.eqb_refl. lia.
Qed.

Lemma height_bound d : (height d <= S (S (String.length d)))%nat.
Proof.
  unfold height. destruct (String.eqb d ""); [lia|]. destruct (String.eqb _ _); lia.
Qed.

(** A path of height one is its own parent and is not empty. *)
Lemma height_one d : (height d <= 1)%nat -> dirname d = d /\ d <> "".
Proof.
  unfold height. destruct (String.eqb_spec d "") as [->|Hd]; [lia|].
  destruct (String.eqb_spec (dirname d) d) as [E|_]; [tauto|].
  destruct d; [congruence|cbn; lia].
Qed.

End ClimbFacts.

(** ** [read_many_files]: the discovery and the loop *)

Module ReadManyFilesFacts.

Import Js JsFacts ReadManyFiles ReadManyFilesDesign.

Section Facts.
Variable h : Host.
Variable config : Config.
Variable params : ReadManyFilesParams.

Local Abbreviation considerEntry := (considerEntry h config params).
Local Abbreviation kept := (kept h config params).

Lemma considerEntry_files all d p q :
  In q (filesToConsider (considerEntry all d p)) <->
  In q (filesToConsider d) \/ (q = p /\ kept all p = true).
Proof.
  unfold ReadManyFiles.considerEntry, ReadManyFilesDesign.kept.
  set (g := respectGitIgnore _).
  set (gi := arrayIncludes (gitFilteredEntries _ _ _ _) p).
  set (l := respectLlxprtIgnore _).
  set (li := arrayIncludes (finalFilteredEntries _ _ _ _) p).
  destruct (isPathWithinWorkspace config p), g, gi, l, li; cbn;
    rewrite ?setAdd_In; intuition (try congruence).
Qed.

Lemma considerEntry_skipped all d p r :
  In r (discoverySkipped (considerEntry all d p)) <->
  In r (discoverySkipped d) \/
  (isPathWithinWorkspace config p = false /\ r = securityRecord p).
Proof.
  unfold ReadManyFiles.considerEntry, securityRecord.
  set (g := respectGitIgnore _).
  set (gi := arrayIncludes (gitFilteredEntries _ _ _ _) p).
  set (l := respectLlxprtIgnore _).
  set (li := arrayIncludes (finalFilteredEntries _ _ _ _) p).
  destruct (isPathWithinWorkspace config p), g, gi, l, li; cbn;
    rewrite ?in_app_iff; cbn; intuition (try congruence).
Qed.

Lemma fold_considerEntry_files all l : forall d q,
  In q (filesToConsider (fold_left (considerEntry all) l d)) <->
  In q (filesToConsider d) \/ (In q l /\ kept all q = true).
Proof.
  induction l as [|p l IH]; intros d q; simpl.
  - tauto.
  - rewrite IH, considerEntry_files. intuition (subst; auto).
Qed.

Lemma fold_considerEntry_skipped all l : forall d r,
  In r (discoverySkipped (fold_left (considerEntry all) l d)) <->
  In r (discoverySkipped d) \/
  (exists p, In p l /\ isPathWithinWorkspace config p = false /\ r = securityRecord p).
Proof.
  induction l as [|p l IH]; intros d r; simpl.
  - split; [tauto|]. intros [H|[p [[] _]]]. assumption.
  - rewrite IH, considerEntry_skipped. split.
    + intros [[H|[H1 H2]]|[p' [H1 H2]]]; eauto 6.
    + intros [H|[p' [[->|H1] H2]]]; eauto 6; tauto.
Qed.

(** The files to read are the entries kept. *)
Lemma sortedFilesOf_In entries q :
  In q (sortedFilesOf h config params entries) <-> In q entries /\ kept entries q = true.
Proof.
  unfold sortedFilesOf, considerEntries. rewrite sort_In, fold_considerEntry_files.
  simpl. tauto.
Qed.

Lemma kept_within entries q : kept entries q = true -> isPathWithinWorkspace config q = true.
Proof.
  unfold ReadManyFilesDesign.kept. intros H. apply andb_prop in H as [H _].
  apply andb_prop in H as [H _]. exact H.
Qed.

(** Every entry outside the workspace has its record in the skip log. *)
Lemma skippedAfterDiscovery_security entries p :
  In p entries -> isPathWithinWorkspace config p = false ->
  In (securityRecord p) (skippedAfterDiscovery h config params entries).
Proof.
  intros Hin Hout. unfold skippedAfterDiscovery. apply in_or_app. left.
  unfold considerEntries. apply fold_considerEntry_skipped. right. eauto.
Qed.

End Facts.

End ReadManyFilesFacts.

Module ReadManyFilesLoop.

Import Js JsFacts ReadManyFiles ReadManyFilesDesign ReadManyFilesFacts.

Section Facts.
Variable h : Host.
Variable config : Config.
Variable params : ReadManyFilesParams.

Local Abbreviation processFile := (processFile h config params).
Local Abbreviation fileLoop := (fileLoop h config params).
Local Abbreviation addContent := (addContent config).
Local Abbreviation sampleLoop := (sampleLoop config).
Local Abbreviation checkFileCount := (checkFileCount config).
Local Abbreviation partOf := (partOf h config).

Lemma addContent_grows n st filePath rel st' nx :
  In (ProcessSingleFileContent filePath) (fsCalls st) ->
  addContent n st filePath rel (processSingleFileContent h filePath (getTargetDir config))
    = (st', nx) ->
  Grows h config filePath st st'.
Proof.
  intros Hcall. unfold ReadManyFiles.addContent.
  destruct (FileUtils.llmContent _) as [text|part] eqn:Hc.
  - destruct (_ >? _)%Z.
    + destruct (truncateMode config).
      * intros [= <- <-]. grows.
      * destruct (_ >? 100)%Z; intros [= <- <-]; grows.
        right. split; [assumption|]. unfold ReadManyFilesDesign.partOf. rewrite Hc. right. eauto.
      * intros [= <- <-]. grows.
    + intros [= <- <-]. grows.
      right. split; [assumption|]. unfold ReadManyFilesDesign.partOf. rewrite Hc. now left.
  - destruct (_ >? _)%Z; intros [= <- <-]; grows.
    right. split; [assumption|]. unfold ReadManyFilesDesign.partOf. now rewrite Hc.
Qed.

Lemma processFile_grows n st filePath st' nx :
  processFile n st filePath = (st', nx) -> Grows h config filePath st st'.
Proof.
  unfold ReadManyFiles.processFile.
  destruct (stat h filePath) as [message|size].
  { intros [= <- <-]. grows. }
  destruct (_ >? _)%Z.
  { intros [= <- <-]. grows. }
  destruct (_ && _).
  { intros [= <- <-]. grows. }
  destruct (truthy _).
  { intros [= <- <-]. grows. }
  intros Hadd. apply addContent_grows in Hadd.
  - destruct Hadd as [H1 H2 H3 H4]. constructor.
    + intros c Hc. apply H1. cbn. rewrite !in_app_iff. tauto.
    + intros c Hc. apply H2 in Hc as [Hc| ->]; [|now right].
      cbn in Hc. rewrite !in_app_iff in Hc. cbn in Hc. intuition (subst; auto).
    + intros part Hp. apply H3 in Hp as [Hp|Hp]; [left; exact Hp|right; exact Hp].
    + intros r Hr. apply H4. exact Hr.
  - cbn. rewrite !in_app_iff. cbn. tauto.
Qed.

(** What the whole loop may change, over the files [files]. *)
Lemma fileLoop_grows n files : forall st,
  (forall c, In c (fsCalls st) -> In c (fsCalls (fileLoop n files st))) /\
  (forall c, In c (fsCalls (fileLoop n files st)) ->
     In c (fsCalls st) \/ In (calledOn c) files) /\
  (forall part, In part (contentParts (fileLoop n files st)) ->
     In part (contentParts st) \/
     exists filePath, In filePath files /\
       In (ProcessSingleFileContent filePath) (fsCalls (fileLoop n files st)) /\
       partOf filePath part) /\
  (forall r, In r (skippedFiles st) -> In r (skippedFiles (fileLoop n files st))).
Proof.
  induction files as [|f files IH]; intros st; cbn [ReadManyFiles.fileLoop].
  - repeat split; auto.
  - destruct (processFile n st f) as [st' nx] eqn:Hstep.
    apply processFile_grows in Hstep as [H1 H2 H3 H4].
    destruct nx.
    + destruct (IH st') as (I1 & I2 & I3 & I4). repeat split.
      * auto.
      * intros c Hc. apply I2 in Hc as [Hc|Hc]; [|right; now right].
        apply H2 in Hc as [Hc|Hc]; [now left|right; now left].
      * intros part Hp. apply I3 in Hp as [Hp|(f' & Hf & Hc & Hp)].
        -- apply H3 in Hp as [Hp|[Hc Hp]]; [now left|].
           right. exists f. split; [now left|]. split; [apply I1, Hc|exact Hp].
        -- right. exists f'. split; [now right|]. tauto.
      * auto.
    + repeat split.
      * auto.
      * intros c Hc. apply H2 in Hc as [Hc|Hc]; [now left|right; now left].
      * intros part Hp. apply H3 in Hp as [Hp|[Hc Hp]]; [now left|].
        right. exists f. split; [now left|]. tauto.
      * auto.
Qed.

(** *** The file count check keeps files of the list only *)

Lemma sampleLoop_incl fuel sortedFiles step : forall i sampledFiles res,
  (0 <= i)%Z ->
  (forall k, step = Finite k -> 0 <= k)%Z ->
  incl sampledFiles sortedFiles ->
  sampleLoop fuel sortedFiles step i sampledFiles = Some res ->
  incl res sortedFiles.
Proof.
  induction fuel as [|fuel IH]; intros i sampled res Hi Hk Hincl; cbn [ReadManyFiles.sampleLoop].
  - destruct (_ <? _)%Z; [discriminate|]. now intros [= <-].
  - destruct (i <? len sortedFiles)%Z eqn:Hlt; [|now intros [= <-]].
    apply Z.ltb_lt in Hlt.
    assert (Hincl' : incl
      (if (len sampled <? maxFileCount config)%Z
       then sampled ++ [nth (Z.to_nat i) sortedFiles ""] else sampled) sortedFiles).
    { destruct (_ <? _)%Z; [|assumption].
      apply incl_app; [assumption|]. intros x [<-|[]].
      apply nth_In. unfold len in Hlt. lia. }
    destruct step as [k|].
    + apply IH; auto. specialize (Hk k eq_refl). lia.
    + now intros [= <-].
Qed.

Lemma ceilDiv_nonneg a b k : (0 <= a)%Z -> (0 < b)%Z -> ceilDiv a b = Finite k -> (0 <= k)%Z.
Proof.
  unfold ceilDiv. intros Ha Hb. destruct (b =? 0)%Z eqn:E; [discriminate|].
  intros [= <-].
  assert ((- a) / b <= 0)%Z; [|lia].
  apply Z.div_le_upper_bound; lia.
Qed.

Lemma sampleLoop_full fuel sortedFiles step : forall i sampledFiles res,
  (maxFileCount config <= len sampledFiles)%Z ->
  sampleLoop fuel sortedFiles step i sampledFiles = Some res ->
  res = sampledFiles.
Proof.
  induction fuel as [|fuel IH]; intros i sampled res Hfull; cbn [ReadManyFiles.sampleLoop].
  - destruct (_ <? _)%Z; [discriminate|]. now intros [= <-].
  - destruct (i <? len sortedFiles)%Z; [|now intros [= <-]].
    destruct (len sampled <? maxFileCount config)%Z eqn:E; [apply Z.ltb_lt in E; lia|].
    destruct step as [k|]; [|now intros [= <-]].
    apply IH. exact Hfull.
Qed.

(** A step that is not positive never ends the sampling loop. *)
Lemma sampleLoop_hangs fuel sortedFiles k : forall i sampledFiles,
  (k <= 0)%Z -> (i < len sortedFiles)%Z ->
  sampleLoop fuel sortedFiles (Finite k) i sampledFiles = None.
Proof.
  induction fuel as [|fuel IH]; intros i sampled Hk Hi; cbn [ReadManyFiles.sampleLoop];
    apply Z.ltb_lt in Hi as Hlt; rewrite Hlt; [reflexivity|].
  apply IH; lia.
Qed.

Lemma checkFileCount_grows sortedFiles skipped files' skipped' :
  checkFileCount sortedFiles skipped = Returns (Proceed files' skipped') ->
  incl files' sortedFiles /\ incl skipped skipped'.
Proof.
  unfold ReadManyFiles.checkFileCount.
  destruct (_ >? _)%Z eqn:Hgt.
  2:{ intros [= <- <-]. split; apply incl_refl. }
  destruct (truncateMode config).
  - discriminate.
  - destruct (_ <? 0)%Z; [discriminate|]. intros [= <- <-]. split.
    + apply firstn_incl.
    + apply incl_appl, incl_refl.
  - destruct (sampleLoop _ _ _ _ _) as [sampled|] eqn:Hs; [|discriminate].
    intros [= <- <-]. split; [|apply incl_appl, incl_refl].
    destruct (Z.le_gt_cases (maxFileCount config) 0) as [Hle|Hpos].
    + apply sampleLoop_full in Hs; [subst; intros x []|]. cbn. exact Hle.
    + eapply sampleLoop_incl in Hs; eauto; try lia.
      * intros k Hk. eapply ceilDiv_nonneg; eauto. apply len_nonneg.
      * intros x [].
Qed.

Lemma checkFileCount_warn sortedFiles skipped r :
  checkFileCount sortedFiles skipped = Returns (WarnReturn r) ->
  r = warnResult config sortedFiles /\
  truncateMode config = Warn /\ (len sortedFiles > maxFileCount config)%Z.
Proof.
  unfold ReadManyFiles.checkFileCount.
  destruct (_ >? _)%Z eqn:Hgt; [|discriminate].
  apply Z.gtb_lt in Hgt.
  destruct (truncateMode config).
  - intros [= <-]. repeat split. lia.
  - destruct (_ <? 0)%Z; discriminate.
  - destruct (sampleLoop _ _ _ _ _); discriminate.
Qed.

End Facts.

End ReadManyFilesLoop.

(** ** [read_many_files]: the workspace boundary *)

Module ReadManyFilesSafety.

Import Js JsFacts ReadManyFiles ReadManyFilesDesign ReadManyFilesFacts ReadManyFilesLoop.

(** Whatever [execute] returns, every file system call it made on a file
    was on an entry that [glob] produced and that lies within the
    workspace; every file part of the result comes from such a call; and
    every entry outside the workspace has its own record, with the
    [Security:] reason, in the skip log. *)
Lemma run_within_workspace h config params r :
  run h config params = Returns r ->
  (forall c, In c (calls r) ->
     In (calledOn c) (discovered r) /\
     isPathWithinWorkspace config (calledOn c) = true) /\
  (forall part, In part (fileParts (result r)) ->
     part = FileUtils.Text nothingFound \/
     exists filePath,
       isPathWithinWorkspace config filePath = true /\
       In (ProcessSingleFileContent filePath) (calls r) /\
       partOf h config filePath part) /\
  (forall p, In p (discovered r) -> isPathWithinWorkspace config p = false ->
     In (securityRecord p) (skipLog r)).
Proof.
  unfold run.
  destruct (validateParams h params).
  { intros [= <-]. cbn. repeat split; intros; contradiction. }
  destruct (_ =? 0)%Z.
  { intros [= <-]. cbn. repeat split; intros; contradiction. }
  destruct (globWorkspace _ _ _ _ _) as [message|entries].
  { intros [= <-]. cbn. repeat split; intros; contradiction. }
  destruct (checkFileCount _ _ _) as [[r'|sortedFiles skipped]| |] eqn:Hcount;
    try discriminate.
  { apply checkFileCount_warn in Hcount as [-> _].
    intros [= <-]. cbn. repeat split; intros; try contradiction.
    now apply skippedAfterDiscovery_security. }
  apply checkFileCount_grows in Hcount as [Hfiles Hskipped].
  intros [= <-]. cbn [calls discovered skipLog result fileParts llmContent].
  destruct (fileLoop_grows h config params (len sortedFiles) sortedFiles
              (initialState skipped)) as (_ & Hcalls & Hparts & Hskip).
  assert (Hkept : forall f, In f sortedFiles ->
            In f entries /\ isPathWithinWorkspace config f = true).
  { intros f Hf. apply Hfiles, sortedFilesOf_In in Hf as [Hin Hk].
    split; [assumption|]. eapply kept_within; eauto. }
  repeat split.
  - apply Hcalls in H as [[]|H]. now apply Hkept.
  - apply Hcalls in H as [[]|H]. now apply Hkept.
  - intros part. unfold finalContent. destruct (_ =? 0)%Z.
    + intros [<-|[]]. now left.
    + intros Hp. apply Hparts in Hp as [[]|(f & Hf & Hc & Hp)].
      right. exists f. split; [now apply Hkept|]. tauto.
  - intros p Hin Hout. apply Hskip. cbn. apply Hskipped.
    now apply skippedAfterDiscovery_security.
Qed.

Import Fixture Worlds.

(** C2 (as stated, refuted).  In the world [escaping] one discovered path
    lies outside the workspace, and the invocation is not aborted: it
    returns the content of the two workspace files. *)
Lemma security_violation_aborts_counterexample :
  globWorkspace escaping (config defaults) (request ["*.txt"]) ["/ws"] []
    = inr ["/ws/b.txt"; "/etc/passwd"; "/ws/a.txt"] /\
  isPathWithinWorkspace (config defaults) "/etc/passwd" = false /\
  aborted (execute escaping (config defaults) (request ["*.txt"])) = false /\
  exists r,
    execute escaping (config defaults) (request ["*.txt"]) = Returns r /\
    fileParts r =
      [ FileUtils.Text ("--- /ws/a.txt ---" +:+ nl +:+ nl +:+ "hello" +:+ nl +:+ nl);
        FileUtils.Text ("--- /ws/b.txt ---" +:+ nl +:+ nl +:+ "world" +:+ nl +:+ nl) ].
Proof.
  split; [reflexivity|]. split; [reflexivity|]. split; [reflexivity|].
  eexists. split; vm_compute; reflexivity.
Qed.

End ReadManyFilesSafety.

(** ** [read_many_files]: the file count limit *)

Module ReadManyFilesCount.

Import Js JsFacts ReadManyFiles ReadManyFilesDesign ReadManyFilesFacts ReadManyFilesLoop Fixture Worlds.

(** C3 (as stated, refuted).  Two files match, the limit is one file and
    the policy is [warn]: no file is read, no content is returned and no
    record is added to the skip log; the call returns the warning. *)
Lemma warn_keeps_first_items_counterexample :
  sortedFilesOf inside (config (settings 1 50000 Warn)) (request ["*.txt"])
    ["/ws/b.txt"; "/ws/a.txt"] = ["/ws/a.txt"; "/ws/b.txt"] /\
  exists r,
    run inside (config (settings 1 50000 Warn)) (request ["*.txt"]) = Returns r /\
    calls r = [] /\
    fileParts (result r) = [] /\
    skipLog r = [] /\
    llmContent (result r) =
      Message "Found 2 files matching your pattern, but limiting to 1 files. Please use more specific patterns to narrow your search.".
Proof.
  split; [reflexivity|]. eexists. split; [vm_compute; reflexivity|].
  repeat split.
Qed.

(** C3 (amended).  When more files are found than [maxFileCount] allows
    and the policy is [warn], the call reads no file and returns only the
    warning that names the two numbers; the skip log is left as the
    discovery made it. *)
Theorem warn_returns_the_warning_only h config params entries :
  validateParams h params = None ->
  searchPatterns params <> [] ->
  globWorkspace h config params (getDirectories config) [] = inr entries ->
  truncateMode config = Warn ->
  (len (sortedFilesOf h config params entries) > maxFileCount config)%Z ->
  run h config params =
    Returns {| result := warnResult config (sortedFilesOf h config params entries);
               discovered := entries;
               skipLog := skippedAfterDiscovery h config params entries;
               calls := [] |}.
Proof.
  intros Hvalid Hpatterns Hglob Hmode Hover. unfold run.
  rewrite Hvalid.
  destruct (len (searchPatterns params) =? 0)%Z eqn:Hlen.
  { apply Z.eqb_eq in Hlen. unfold len in Hlen.
    destruct (searchPatterns params); [congruence|cbn in Hlen; lia]. }
  rewrite Hglob. unfold checkFileCount. rewrite Hmode.
  apply Z.gt_lt, Z.gtb_lt in Hover. now rewrite Hover.
Qed.

Lemma warn_returns_the_warning_only_witness :
  run inside (config (settings 1 50000 Warn)) (request ["*.txt"]) =
    Returns {| result := warnResult (config (settings 1 50000 Warn)) ["/ws/a.txt"; "/ws/b.txt"];
               discovered := ["/ws/b.txt"; "/ws/a.txt"];
               skipLog := [];
               calls := [] |}.
Proof.
  apply (warn_returns_the_warning_only inside (config (settings 1 50000 Warn))
           (request ["*.txt"]) ["/ws/b.txt"; "/ws/a.txt"]).
  - reflexivity.
  - discriminate.
  - reflexivity.
  - reflexivity.
  - reflexivity.
Defined.

(** *** The sampling loop *)

Lemma ceilDiv_positive a b : (0 < b)%Z -> ceilDiv a b = Finite ((a + b - 1) / b)%Z.
Proof.
  intros Hb. unfold ceilDiv. destruct (b =? 0)%Z eqn:E; [apply Z.eqb_eq in E; lia|].
  f_equal.
  assert (H : ((- a) / b = - ((a + b - 1) / b))%Z); [|lia].
  symmetry. apply Z.div_unique with (r := (b - 1 - (a + b - 1) mod b)%Z).
  - left. pose proof (Z.mod_pos_bound (a + b - 1) b Hb). lia.
  - pose proof (Z.div_mod (a + b - 1) b). lia.
Qed.

Lemma strideOf_spec total step j :
  (0 < step)%nat -> (j * step < total <-> j < strideOf total step)%nat.
Proof.
  intros Hs. unfold strideOf.
  pose proof (Nat.div_mod_eq (total + step - 1) step) as E.
  pose proof (Nat.mod_upper_bound (total + step - 1) step ltac:(lia)) as B.
  set (q := ((total + step - 1) / step)%nat) in *.
  set (r := ((total + step - 1) mod step)%nat) in *.
  split; intros H; nia.
Qed.

Section Sampling.
Variable config : Config.
Variable sortedFiles : list string.
Variable step : nat.
Hypothesis step_positive : (0 < step)%nat.
Hypothesis enough : (List.length sortedFiles <= step * Z.to_nat (maxFileCount config))%nat.

Lemma sampleLoop_stride fuel : forall j,
  (j <= strideOf (List.length sortedFiles) step)%nat ->
  (List.length sortedFiles < fuel + j * step)%nat ->
  sampleLoop config fuel sortedFiles (Finite (Z.of_nat step)) (Z.of_nat (j * step))
    (map (fun k => nth (k * step) sortedFiles "") (seq 0 j))
  = Some (atStride step sortedFiles).
Proof.
  induction fuel as [|fuel IH]; intros j Hj Hfuel; cbn [sampleLoop].
  - destruct (_ <? _)%Z eqn:E; [apply Z.ltb_lt in E; unfold len in E; lia|].
    apply Z.ltb_ge in E. unfold len in E.
    assert (~ (j * step < List.length sortedFiles)%nat) as Hn by lia.
    rewrite strideOf_spec in Hn by assumption.
    unfold atStride. do 3 f_equal. lia.
  - destruct (_ <? _)%Z eqn:E.
    + apply Z.ltb_lt in E. unfold len in E.
      assert (j * step < List.length sortedFiles)%nat as Hlt by lia.
      assert ((len (map (fun k => nth (k * step) sortedFiles "") (seq 0 j))
                 <? maxFileCount config)%Z = true) as ->.
      { apply Z.ltb_lt. unfold len. rewrite length_map, length_seq. nia. }
      rewrite Nat2Z.id.
      replace (Z.of_nat (j * step) + Z.of_nat step)%Z with (Z.of_nat (S j * step)) by lia.
      replace (map _ (seq 0 j) ++ [nth (j * step) sortedFiles ""])
        with (map (fun k => nth (k * step) sortedFiles "") (seq 0 (S j))).
      * apply IH; [|lia]. apply strideOf_spec in Hlt; [lia|assumption].
      * rewrite seq_S, map_app. reflexivity.
    + apply Z.ltb_ge in E. unfold len in E.
      assert (~ (j * step < List.length sortedFiles)%nat) as Hn by lia.
      rewrite strideOf_spec in Hn by assumption.
      unfold atStride. do 3 f_equal. lia.
Qed.

End Sampling.

Lemma atStride_length step l : List.length (atStride step l) = strideOf (List.length l) step.
Proof. unfold atStride. now rewrite length_map, length_seq. Qed.

(** C4 (as stated, refuted).  Two files exceed a limit of zero and a
    limit of minus one.  With the limit zero the step is [Infinity] and
    the policy [sample] selects no file, not even the one at index 0;
    with the limit minus one the step is negative and the sampling loop
    never ends. *)
Lemma sample_without_positive_limit_counterexample :
  (len ["/ws/a.txt"; "/ws/b.txt"] > maxFileCount (config (settings 0 50000 Sample)))%Z /\
  ceilDiv (len ["/ws/a.txt"; "/ws/b.txt"]) 0 = Infinity /\
  checkFileCount (config (settings 0 50000 Sample)) ["/ws/a.txt"; "/ws/b.txt"] [] =
    Returns (Proceed []
      [ {| path := "2 file(s)"; reason := "sampling to stay within 0 file limit" |} ]) /\
  (len ["/ws/a.txt"; "/ws/b.txt"] > maxFileCount (config (settings (-1) 50000 Sample)))%Z /\
  ceilDiv (len ["/ws/a.txt"; "/ws/b.txt"]) (-1) = Finite (-2) /\
  (forall fuel,
     sampleLoop (config (settings (-1) 50000 Sample)) fuel ["/ws/a.txt"; "/ws/b.txt"]
       (Finite (-2)) 0 [] = None) /\
  checkFileCount (config (settings (-1) 50000 Sample)) ["/ws/a.txt"; "/ws/b.txt"] [] = Hangs.
Proof.
  repeat split; try reflexivity.
  intros fuel. apply sampleLoop_hangs; [lia|reflexivity].
Qed.

(** C4 (amended).  When more files are found than [maxFileCount] allows,
    the limit is positive and the policy is [sample], the files read are
    those at the indices 0, [step], 2 [step], ... of the sorted list, for
    [step = ceil(total / maxFileCount)]; they are at most [maxFileCount],
    and the number of the files left out is recorded in one record added
    to the skip log. *)
Theorem sample_selects_at_stride config sortedFiles skipped :
  truncateMode config = Sample ->
  (0 < maxFileCount config)%Z ->
  (len sortedFiles > maxFileCount config)%Z ->
  let step := strideOf (List.length sortedFiles) (Z.to_nat (maxFileCount config)) in
  let sampledFiles := atStride step sortedFiles in
  ceilDiv (len sortedFiles) (maxFileCount config) = Finite (Z.of_nat step) /\
  checkFileCount config sortedFiles skipped =
    Returns (Proceed sampledFiles
      (skipped ++
       [ {| path := numberToString (len sortedFiles - len sampledFiles) +:+ " file(s)";
            reason := "sampling to stay within " +:+
                      numberToString (maxFileCount config) +:+ " file limit" |} ])) /\
  (len sampledFiles <= maxFileCount config)%Z.
Proof.
  intros Hmode Hpos Hover step sampledFiles.
  remember (Z.to_nat (maxFileCount config)) as m eqn:Em.
  remember (List.length sortedFiles) as n eqn:En.
  assert (Hmz : Z.of_nat m = maxFileCount config) by lia.
  assert (Hm : (0 < m)%nat) by lia.
  assert (Hnm : (m < n)%nat) by (unfold len in Hover; lia).
  assert (Hceil : ceilDiv (len sortedFiles) (maxFileCount config) = Finite (Z.of_nat step)).
  { rewrite ceilDiv_positive by assumption. f_equal. unfold step, strideOf, len.
    rewrite <- En, Nat2Z.inj_div. f_equal; lia. }
  pose proof (Nat.div_mod_eq (n + m - 1) m) as E.
  pose proof (Nat.mod_upper_bound (n + m - 1) m ltac:(lia)) as B.
  assert (Hstep : (0 < step)%nat).
  { unfold step, strideOf. apply Nat.div_str_pos. lia. }
  assert (Henough : (n <= step * m)%nat).
  { unfold step, strideOf. nia. }
  split; [assumption|]. split.
  - unfold checkFileCount. rewrite Hmode, Hceil.
    apply Z.gt_lt, Z.gtb_lt in Hover. rewrite Hover.
    pose proof (sampleLoop_stride config sortedFiles step Hstep
                  ltac:(lia) (S n) 0 ltac:(lia) ltac:(lia)) as Hloop.
    cbn [Nat.mul seq map Z.of_nat] in Hloop. rewrite <- En, Hloop. reflexivity.
  - unfold sampledFiles, len. rewrite atStride_length, <- En.
    assert (strideOf n step <= m)%nat; [|lia].
    destruct (Nat.le_gt_cases (strideOf n step) m) as [|Hgt]; [assumption|].
    apply strideOf_spec in Hgt; [|assumption]. nia.
Qed.

(** Twenty files and a limit of five: the files at the indices 0, 4, 8,
    12 and 16 are read and [15 file(s)] are recorded as left out. *)
Lemma sample_selects_at_stride_witness :
  sortedFilesOf twenty (config (settings 5 50000 Sample)) (request ["*"]) (rev twentyNames)
    = twentyNames /\
  checkFileCount (config (settings 5 50000 Sample)) twentyNames [] =
    Returns (Proceed ["/ws/f00"; "/ws/f04"; "/ws/f08"; "/ws/f12"; "/ws/f16"]
      [ {| path := "15 file(s)"; reason := "sampling to stay within 5 file limit" |} ]).
Proof.
  split; [reflexivity|].
  exact (proj1 (proj2 (sample_selects_at_stride (config (settings 5 50000 Sample))
                         twentyNames [] eq_refl eq_refl eq_refl))).
Defined.

End ReadManyFilesCount.

(** ** [read_many_files]: assets and the token budget *)

Module ReadManyFilesBudget.

Import Js JsFacts StringFacts PathFacts ReadManyFiles ReadManyFilesDesign Fixture Worlds.

Lemma requestedExplicitly_named params filePath :
  requestedExplicitly params filePath = true ->
  existsb (fun pattern => namesExplicitly pattern filePath) (paths params) = true.
Proof.
  unfold requestedExplicitly, inputPatterns. rewrite !existsb_exists.
  intros (pattern & Hin & H). exists pattern. split; [assumption|].
  unfold namesExplicitly. apply orb_prop in H as [H|H].
  - now rewrite H.
  - destruct (basename_lower_extension filePath) as [rest Hrest].
    rewrite Hrest in H. apply includes_append_left in H. rewrite H. apply orb_true_r.
Qed.

(** C10.  A file detected as an image or a PDF, of which no pattern of
    [params.paths] names the extension (letter case apart) or the base
    name without extension, is skipped with the record that says so: the
    file is not read, no part is added and [totalTokens] is untouched.
    The patterns of [params.include] are not looked at. *)
Theorem asset_skipped_unless_named h config params n st filePath size :
  stat h filePath = inr size ->
  (size <= fileSizeLimit config)%Z ->
  isAsset (detectFileType h filePath) = true ->
  existsb (fun pattern => namesExplicitly pattern filePath) (paths params) = false ->
  processFile h config params n st filePath =
    ({| totalTokens := totalTokens st;
        contentParts := contentParts st;
        processedFilesRelativePaths := processedFilesRelativePaths st;
        skippedFiles :=
          skippedFiles st ++
          [ {| path := backslashesToSlashes (relative h (getTargetDir config) filePath);
               reason := "asset file (image/pdf) was not explicitly requested by name or extension" |} ];
        fsCalls := fsCalls st ++ [Stat filePath; DetectFileType filePath] |},
     Continue).
Proof.
  intros Hstat Hsize Hasset Hnamed. unfold processFile. rewrite Hstat.
  destruct (size >? fileSizeLimit config)%Z eqn:E; [apply Z.gtb_lt in E; lia|].
  rewrite Hasset.
  destruct (requestedExplicitly params filePath) eqn:Hreq.
  { apply requestedExplicitly_named in Hreq. congruence. }
  unfold skip, called. cbn. rewrite <- app_assoc. reflexivity.
Qed.

(** The picture [/ws/pic.PNG] is found by the pattern [*] of
    [params.paths]; the pattern [*.png] of [params.include] does not make
    it requested. *)
Lemma asset_skipped_unless_named_witness :
  exists r,
    run withPicture (config defaults) everything = Returns r /\
    fst (processFile withPicture (config defaults) everything 2 (initialState [])
           "/ws/pic.PNG") =
      {| totalTokens := 0; contentParts := []; processedFilesRelativePaths := [];
         skippedFiles :=
           [ {| path := "pic.PNG";
                reason := "asset file (image/pdf) was not explicitly requested by name or extension" |} ];
         fsCalls := [Stat "/ws/pic.PNG"; DetectFileType "/ws/pic.PNG"] |} /\
    fileParts (result r) =
      [ FileUtils.Text ("--- /ws/a.txt ---" +:+ nl +:+ nl +:+ "hello" +:+ nl +:+ nl) ].
Proof.
  eexists. split; [vm_compute; reflexivity|]. split; [|reflexivity].
  rewrite (asset_skipped_unless_named withPicture (config defaults) everything 2 (initialState [])
             "/ws/pic.PNG" 12 eq_refl ltac:(vm_compute; discriminate) eq_refl eq_refl).
  reflexivity.
Defined.

(** *** The token budget under the truncate policy *)

Lemma estimateTokens_substring0 n s :
  (0 <= n)%Z -> (estimateTokens (substring0 (n * 4) s) <= n)%Z.
Proof.
  intros Hn. unfold estimateTokens, substring0, strlen.
  rewrite substring0_length.
  assert (H : ((Z.of_nat (Nat.min (Z.to_nat (n * 4)) (String.length s)) + 3) / 4 < n + 1)%Z).
  { apply Z.div_lt_upper_bound; lia. }
  lia.
Qed.

(** C5 (as stated, refuted).  The policy is [truncate], the token limit is
    5 and the first file costs 7 tokens: no prefix of it is included and
    no truncation marker is written; the loop stops with nothing read. *)
Lemma truncate_includes_prefix_counterexample :
  estimateTokens
    (contentToAdd "/ws/a.txt"
       (processSingleFileContent inside "/ws/a.txt" "/ws") "hello") = 7%Z /\
  exists r,
    run inside (config (settings 50 5 Truncate)) (request ["*.txt"]) = Returns r /\
    llmContent (result r) = Parts [FileUtils.Text nothingFound] /\
    calls r = [Stat "/ws/a.txt"; DetectFileType "/ws/a.txt";
               ProcessSingleFileContent "/ws/a.txt"].
Proof.
  split; [reflexivity|]. eexists. split; [vm_compute; reflexivity|]. split; reflexivity.
Qed.

(** C5 (amended).  Under the truncate policy, when the block of a file
    read as text (its separator line and its content) would push the
    total past [maxTokens], the loop stops at this file, whatever files
    follow, with [totalTokens] unchanged.  If more than 100 tokens remain,
    the part added is the prefix of the block of [4 * remainingTokens]
    characters, which costs at most [remainingTokens] tokens, followed by
    the truncation marker, and the file counts as processed; otherwise no
    part is added. *)
Theorem truncate_includes_prefix_if_room h config params n st filePath rest size text :
  truncateMode config = Truncate ->
  stat h filePath = inr size ->
  (size <= fileSizeLimit config)%Z ->
  isAsset (detectFileType h filePath) && negb (requestedExplicitly params filePath) = false ->
  truthy (FileUtils.error (processSingleFileContent h filePath (getTargetDir config))) = false ->
  FileUtils.llmContent (processSingleFileContent h filePath (getTargetDir config))
    = FileUtils.Text text ->
  let block :=
    contentToAdd filePath (processSingleFileContent h filePath (getTargetDir config)) text in
  (totalTokens st + estimateTokens block > maxTokens config)%Z ->
  let remainingTokens := (maxTokens config - totalTokens st)%Z in
  let truncatedContent := substring0 (remainingTokens * 4) block in
  let relativePathForDisplay :=
    backslashesToSlashes (relative h (getTargetDir config) filePath) in
  let st' := fileLoop h config params n (filePath :: rest) st in
  fsCalls st' =
    fsCalls st ++ [Stat filePath; DetectFileType filePath; ProcessSingleFileContent filePath] /\
  totalTokens st' = totalTokens st /\
  (if (remainingTokens >? 100)%Z then
     String.prefix truncatedContent block = true /\
     (estimateTokens truncatedContent <= remainingTokens)%Z /\
     contentParts st' =
       contentParts st ++ [FileUtils.Text (truncatedContent +:+ truncationMarker)] /\
     processedFilesRelativePaths st' =
       processedFilesRelativePaths st ++ [relativePathForDisplay] /\
     skippedFiles st' =
       skippedFiles st ++
       [ {| path := relativePathForDisplay;
            reason := "content truncated to fit token limit" |} ]
   else
     contentParts st' = contentParts st /\
     processedFilesRelativePaths st' = processedFilesRelativePaths st).
Proof.
  intros Hmode Hstat Hsize Hasset Herror Htext block Hover remainingTokens
    truncatedContent relativePathForDisplay st'.
  assert (Hstep : processFile h config params n st filePath =
    (if (remainingTokens >? 100)%Z
     then skip
            (accept (called (called (called st (Stat filePath)) (DetectFileType filePath))
                       (ProcessSingleFileContent filePath))
               (totalTokens st) (FileUtils.Text (truncatedContent +:+ truncationMarker))
               relativePathForDisplay)
            relativePathForDisplay "content truncated to fit token limit"
     else called (called (called st (Stat filePath)) (DetectFileType filePath))
            (ProcessSingleFileContent filePath),
     Break)).
  { unfold processFile. rewrite Hstat.
    destruct (size >? fileSizeLimit config)%Z eqn:E; [apply Z.gtb_lt in E; lia|].
    rewrite Hasset, Herror. unfold addContent. rewrite Htext.
    cbn [totalTokens called]. fold block.
    apply Z.gt_lt, Z.gtb_lt in Hover. rewrite Hover, Hmode.
    fold remainingTokens. destruct (remainingTokens >? 100)%Z; reflexivity. }
  unfold st'. cbn [fileLoop]. rewrite Hstep.
  destruct (remainingTokens >? 100)%Z eqn:Hroom; unfold skip, accept, called;
    cbn [fsCalls totalTokens contentParts processedFilesRelativePaths skippedFiles];
    rewrite <- !app_assoc.
  - repeat split.
    + apply substring0_prefix.
    + apply estimateTokens_substring0. apply Z.gtb_lt in Hroom. lia.
  - repeat split.
Qed.

(** The block of [/ws/long.txt] has 524 characters and costs 131 tokens;
    with a token limit of 101 its first 404 characters are added, followed
    by the marker. *)
Lemma truncate_includes_prefix_if_room_witness :
  estimateTokens ("--- /ws/long.txt ---" +:+ nl +:+ nl +:+ longText +:+ nl +:+ nl) = 131%Z /\
  (estimateTokens
     (substring0 404 ("--- /ws/long.txt ---" +:+ nl +:+ nl +:+ longText +:+ nl +:+ nl))
   <= 101)%Z /\
  contentParts
    (fileLoop long (config (settings 50 101 Truncate)) (request ["*.txt"]) 1
       ["/ws/long.txt"] (initialState [])) =
  [ FileUtils.Text
      (substring0 404 ("--- /ws/long.txt ---" +:+ nl +:+ nl +:+ longText +:+ nl +:+ nl)
       +:+ truncationMarker) ].
Proof.
  split; [reflexivity|].
  destruct (truncate_includes_prefix_if_room long (config (settings 50 101 Truncate))
              (request ["*.txt"]) 1 (initialState []) "/ws/long.txt" [] 500 longText
              eq_refl eq_refl ltac:(vm_compute; discriminate) eq_refl eq_refl eq_refl
              ltac:(vm_compute; reflexivity)) as (_ & _ & H).
  exact (conj (proj1 (proj2 H)) (proj1 (proj2 (proj2 H)))).
Defined.

End ReadManyFilesBudget.

(** ** [read_many_files]: termination and the other policies *)

Module ReadManyFilesTermination.

Import Js JsFacts ReadManyFiles ReadManyFilesDesign ReadManyFilesFacts ReadManyFilesLoop.
Import Fixture Worlds.

(** A positive step ends the sampling loop within one turn per file left. *)
Lemma sampleLoop_returns config fuel sortedFiles k : forall i sampledFiles,
  (0 < k)%Z -> (len sortedFiles - i < Z.of_nat fuel + 1)%Z ->
  exists res, sampleLoop config fuel sortedFiles (Finite k) i sampledFiles = Some res.
Proof.
  induction fuel as [|fuel IH]; intros i sampled Hk Hfuel; cbn [sampleLoop].
  - destruct (i <? len sortedFiles)%Z eqn:E; [apply Z.ltb_lt in E; lia|eauto].
  - destruct (i <? len sortedFiles)%Z eqn:E; [|eauto]. apply IH; lia.
Qed.

Lemma ceilDiv_sign a b :
  (0 < a)%Z ->
  match ceilDiv a b with
  | Infinity => b = 0%Z
  | Finite k => (0 < b /\ 0 < k)%Z \/ (b < 0 /\ k <= 0)%Z
  end.
Proof.
  intros Ha. unfold ceilDiv. destruct (b =? 0)%Z eqn:E; [now apply Z.eqb_eq in E|].
  apply Z.eqb_neq in E. destruct (Z.lt_trichotomy b 0) as [Hb|[Hb|Hb]]; [right|lia|left].
  - split; [assumption|]. assert (0 <= (- a) / b)%Z; [|lia].
    rewrite <- (Z.div_opp_opp (- a) b) by lia. apply Z.div_pos; lia.
  - split; [assumption|]. assert ((- a) / b < 0)%Z; [|lia].
    apply Z.div_lt_upper_bound; lia.
Qed.

(** The file count check hangs in one case only: the sample policy with a
    negative limit and a file to sample. *)
Lemma checkFileCount_hangs config sortedFiles skipped :
  checkFileCount config sortedFiles skipped = Hangs <->
  truncateMode config = Sample /\ (maxFileCount config < 0)%Z /\ sortedFiles <> [].
Proof.
  unfold checkFileCount.
  destruct (len sortedFiles >? maxFileCount config)%Z eqn:Hgt.
  2:{ split; [discriminate|]. intros (_ & Hneg & Hne). rewrite Z.gtb_ltb in Hgt. apply Z.ltb_ge in Hgt.
      pose proof (len_nonneg sortedFiles). lia. }
  apply Z.gtb_lt in Hgt.
  destruct (truncateMode config).
  - split; [discriminate|]. intros ([=] & _).
  - split; [destruct (_ <? 0)%Z; discriminate|]. intros ([=] & _).
  - destruct sortedFiles as [|f files].
    { cbn. split; [discriminate|]. intros (_ & _ & H). congruence. }
    assert (Hpos : (0 < len (f :: files))%Z) by (unfold len; cbn [List.length]; lia).
    pose proof (ceilDiv_sign (len (f :: files)) (maxFileCount config) Hpos) as Hs.
    destruct (ceilDiv _ _) as [k|].
    + destruct Hs as [[Hb Hk]|[Hb Hk]].
      * destruct (sampleLoop_returns config (S (List.length (f :: files))) (f :: files) k 0 []
                    Hk ltac:(unfold len; lia)) as [res ->].
        split; [discriminate|]. intros (_ & Hneg & _). lia.
      * rewrite sampleLoop_hangs by lia. split; [|reflexivity].
        intros _. repeat split; [assumption|discriminate].
    + cbn [sampleLoop]. apply Z.ltb_lt in Hpos as ->.
      split; [discriminate|]. intros (_ & Hneg & _). lia.
Qed.

(** X1.  With a limit on the number of files that is not negative, a call
    of [execute] returns: it neither throws nor hangs. *)
Theorem execute_returns h config params :
  (0 <= maxFileCount config)%Z ->
  exists r, execute h config params = Returns r.
Proof.
  intros Hmax. unfold execute, run.
  destruct (validateParams h params); [eauto|].
  destruct (_ =? 0)%Z; [eauto|].
  destruct (globWorkspace _ _ _ _ _) as [message|entries]; [eauto|].
  destruct (checkFileCount _ _ _) as [[r|files skipped]|e|] eqn:Hc; eauto.
  - exfalso. unfold checkFileCount in Hc.
    destruct (_ >? _)%Z; [|discriminate]. destruct (truncateMode config); try discriminate.
    + destruct (maxFileCount config <? 0)%Z eqn:E; [apply Z.ltb_lt in E; lia|discriminate].
    + destruct (sampleLoop _ _ _ _ _ _); discriminate.
  - exfalso. apply checkFileCount_hangs in Hc as (_ & Hneg & _). lia.
Qed.

Lemma execute_returns_witness :
  exists r, execute escaping (config defaults) (request ["*.txt"]) = Returns r.
Proof.
  apply (execute_returns escaping (config defaults) (request ["*.txt"])).
  vm_compute. discriminate.
Defined.

End ReadManyFilesTermination.

Module ReadManyFilesPolicies.

Import Js JsFacts ReadManyFiles ReadManyFilesDesign ReadManyFilesFacts ReadManyFilesLoop.
Import Fixture Worlds.

(** X2.  When more files are found than [maxFileCount] allows (a limit
    that is not negative) and the policy is [truncate], the first
    [maxFileCount] files of the sorted list are kept, in their order, and
    the number of the others is recorded in one record added to the skip
    log. *)
Theorem truncate_keeps_first_items config sortedFiles skipped :
  truncateMode config = Truncate ->
  (0 <= maxFileCount config)%Z ->
  (len sortedFiles > maxFileCount config)%Z ->
  checkFileCount config sortedFiles skipped =
    Returns (Proceed (firstn (Z.to_nat (maxFileCount config)) sortedFiles)
      (skipped ++
       [ {| path := numberToString (len sortedFiles - maxFileCount config) +:+ " file(s)";
            reason := "truncated to stay within " +:+
                      numberToString (maxFileCount config) +:+ " file limit" |} ])) /\
  len (firstn (Z.to_nat (maxFileCount config)) sortedFiles) = maxFileCount config.
Proof.
  intros Hmode Hmax Hover. split.
  - unfold checkFileCount. rewrite Hmode.
    apply Z.gt_lt, Z.gtb_lt in Hover. rewrite Hover.
    destruct (maxFileCount config <? 0)%Z eqn:E; [apply Z.ltb_lt in E; lia|reflexivity].
  - unfold len in *. rewrite length_firstn. lia.
Qed.

(** Ten files and a limit of three: the first three files are kept and
    [7 file(s)] are recorded as left out. *)
Lemma truncate_keeps_first_items_witness :
  checkFileCount (config (settings 3 50000 Truncate)) (firstn 10 twentyNames) [] =
    Returns (Proceed ["/ws/f00"; "/ws/f01"; "/ws/f02"]
      [ {| path := "7 file(s)"; reason := "truncated to stay within 3 file limit" |} ]).
Proof.
  exact (proj1 (truncate_keeps_first_items (config (settings 3 50000 Truncate))
                  (firstn 10 twentyNames) [] eq_refl
                  ltac:(vm_compute; discriminate) eq_refl)).
Defined.

(** X3.  Whatever the policy, a file larger than [fileSizeLimit] is
    skipped on its own, with a record giving its size and the limit in
    KB, before it is read and before any token accounting; the loop goes
    on. *)
Theorem oversized_file_skipped h config params n st filePath size :
  stat h filePath = inr size ->
  (size > fileSizeLimit config)%Z ->
  processFile h config params n st filePath =
    ({| totalTokens := totalTokens st;
        contentParts := contentParts st;
        processedFilesRelativePaths := processedFilesRelativePaths st;
        skippedFiles :=
          skippedFiles st ++
          [ {| path := backslashesToSlashes (relative h (getTargetDir config) filePath);
               reason := "file size (" +:+ numberToString (roundDiv size 1024) +:+
                         "KB) exceeds limit (" +:+
                         numberToString (roundDiv (fileSizeLimit config) 1024) +:+ "KB)" |} ];
        fsCalls := fsCalls st ++ [Stat filePath] |},
     Continue).
Proof.
  intros Hstat Hsize. unfold processFile. rewrite Hstat.
  apply Z.gt_lt, Z.gtb_lt in Hsize. rewrite Hsize. reflexivity.
Qed.

(** A limit of 3 bytes: the five bytes of [/ws/a.txt] are too many. *)
Lemma oversized_file_skipped_witness :
  fst (processFile inside threeBytes (request ["*.txt"]) 2 (initialState []) "/ws/a.txt") =
  {| totalTokens := 0; contentParts := []; processedFilesRelativePaths := [];
     skippedFiles := [ {| path := "a.txt";
                          reason := "file size (0KB) exceeds limit (0KB)" |} ];
     fsCalls := [Stat "/ws/a.txt"] |}.
Proof.
  rewrite (oversized_file_skipped inside threeBytes (request ["*.txt"]) 2 (initialState [])
             "/ws/a.txt" 5 eq_refl eq_refl).
  reflexivity.
Defined.

Section TokenLimit.
Variable h : Host.
Variable config : Config.
Variable params : ReadManyFilesParams.
Variable n : Z.
Variable st : LoopState.
Variable filePath : string.
Variable size : Z.
Variable text : string.

Hypothesis stat_ok : stat h filePath = inr size.
Hypothesis size_ok : (size <= fileSizeLimit config)%Z.
Hypothesis not_unrequested_asset :
  isAsset (detectFileType h filePath) && negb (requestedExplicitly params filePath) = false.
Hypothesis read_ok :
  truthy (FileUtils.error (processSingleFileContent h filePath (getTargetDir config))) = false.
Hypothesis read_text :
  FileUtils.llmContent (processSingleFileContent h filePath (getTargetDir config))
    = FileUtils.Text text.
Hypothesis over_limit :
  (totalTokens st +
   estimateTokens
     (contentToAdd filePath (processSingleFileContent h filePath (getTargetDir config)) text)
   > maxTokens config)%Z.

Lemma processFile_over_limit :
  processFile h config params n st filePath =
    let st3 := called (called (called st (Stat filePath)) (DetectFileType filePath))
                 (ProcessSingleFileContent filePath) in
    let relativePathForDisplay :=
      backslashesToSlashes (relative h (getTargetDir config) filePath) in
    match truncateMode config with
    | Warn =>
        (skip st3
           (numberToString (n - len (processedFilesRelativePaths st)) +:+ " remaining file(s)")
           ("would exceed token limit of " +:+ numberToString (maxTokens config)),
         Break)
    | Truncate =>
        if (maxTokens config - totalTokens st >? 100)%Z then
          (skip
             (accept st3 (totalTokens st)
                (FileUtils.Text
                   (substring0 ((maxTokens config - totalTokens st) * 4)
                      (contentToAdd filePath
                         (processSingleFileContent h filePath (getTargetDir config)) text)
                    +:+ truncationMarker))
                relativePathForDisplay)
             relativePathForDisplay "content truncated to fit token limit",
           Break)
        else (st3, Break)
    | Sample =>
        (skip st3 relativePathForDisplay "skipped to stay within token limit", Continue)
    end.
Proof.
  unfold processFile. rewrite stat_ok.
  destruct (size >? fileSizeLimit config)%Z eqn:E; [apply Z.gtb_lt in E; lia|].
  rewrite not_unrequested_asset, read_ok. unfold addContent. rewrite read_text.
  cbn [totalTokens called processedFilesRelativePaths].
  apply Z.gt_lt, Z.gtb_lt in over_limit. rewrite over_limit.
  destruct (truncateMode config); reflexivity.
Qed.

End TokenLimit.

(** X4.  Under the warn policy, a text file whose block would push the
    total past [maxTokens] ends the loop: nothing of it or of the files
    after it is added, and one record is pushed for all the remaining
    files. *)
Theorem warn_stops_at_token_limit h config params n st filePath rest size text :
  truncateMode config = Warn ->
  stat h filePath = inr size ->
  (size <= fileSizeLimit config)%Z ->
  isAsset (detectFileType h filePath) && negb (requestedExplicitly params filePath) = false ->
  truthy (FileUtils.error (processSingleFileContent h filePath (getTargetDir config))) = false ->
  FileUtils.llmContent (processSingleFileContent h filePath (getTargetDir config))
    = FileUtils.Text text ->
  (totalTokens st +
   estimateTokens
     (contentToAdd filePath (processSingleFileContent h filePath (getTargetDir config)) text)
   > maxTokens config)%Z ->
  fileLoop h config params n (filePath :: rest) st =
    {| totalTokens := totalTokens st;
       contentParts := contentParts st;
       processedFilesRelativePaths := processedFilesRelativePaths st;
       skippedFiles :=
         skippedFiles st ++
         [ {| path := numberToString (n - len (processedFilesRelativePaths st)) +:+
                      " remaining file(s)";
              reason := "would exceed token limit of " +:+
                        numberToString (maxTokens config) |} ];
       fsCalls :=
         fsCalls st ++
         [Stat filePath; DetectFileType filePath; ProcessSingleFileContent filePath] |}.
Proof.
  intros Hmode Hstat Hsize Hasset Herr Htext Hover. cbn [fileLoop].
  rewrite (processFile_over_limit h config params n st filePath size text) by assumption.
  rewrite Hmode. unfold skip, called. cbn. now rewrite <- !app_assoc.
Qed.

(** A limit of 8 tokens: [/ws/a.txt] costs 7 and is added, [/ws/b.txt]
    would make 14 and ends the loop. *)
Lemma warn_stops_at_token_limit_witness :
  exists r,
    run inside (config (settings 50 8 Warn)) (request ["*.txt"]) = Returns r /\
    fileParts (result r) =
      [ FileUtils.Text ("--- /ws/a.txt ---" +:+ nl +:+ nl +:+ "hello" +:+ nl +:+ nl) ] /\
    skippedFiles
      (fileLoop inside (config (settings 50 8 Warn)) (request ["*.txt"]) 2 ["/ws/b.txt"]
         (fileLoop inside (config (settings 50 8 Warn)) (request ["*.txt"]) 2 ["/ws/a.txt"]
            (initialState []))) =
      [ {| path := "1 remaining file(s)"; reason := "would exceed token limit of 8" |} ].
Proof.
  eexists. split; [vm_compute; reflexivity|]. split; [reflexivity|].
  rewrite (warn_stops_at_token_limit inside (config (settings 50 8 Warn)) (request ["*.txt"]) 2
             (fileLoop inside (config (settings 50 8 Warn)) (request ["*.txt"]) 2 ["/ws/a.txt"]
                (initialState []))
             "/ws/b.txt" [] 5 "world" eq_refl eq_refl ltac:(vm_compute; discriminate)
             eq_refl eq_refl eq_refl ltac:(vm_compute; reflexivity)).
  reflexivity.
Defined.

(** X5.  Under the sample policy, a text file whose block would push the
    total past [maxTokens] is skipped on its own, with its record, and the
    loop goes on with the next file. *)
Theorem sample_skips_at_token_limit h config params n st filePath rest size text :
  truncateMode config = Sample ->
  stat h filePath = inr size ->
  (size <= fileSizeLimit config)%Z ->
  isAsset (detectFileType h filePath) && negb (requestedExplicitly params filePath) = false ->
  truthy (FileUtils.error (processSingleFileContent h filePath (getTargetDir config))) = false ->
  FileUtils.llmContent (processSingleFileContent h filePath (getTargetDir config))
    = FileUtils.Text text ->
  (totalTokens st +
   estimateTokens
     (contentToAdd filePath (processSingleFileContent h filePath (getTargetDir config)) text)
   > maxTokens config)%Z ->
  fileLoop h config params n (filePath :: rest) st =
    fileLoop h config params n rest
      {| totalTokens := totalTokens st;
         contentParts := contentParts st;
         processedFilesRelativePaths := processedFilesRelativePaths st;
         skippedFiles :=
           skippedFiles st ++
           [ {| path := backslashesToSlashes (relative h (getTargetDir config) filePath);
                reason := "skipped to stay within token limit" |} ];
         fsCalls :=
           fsCalls st ++
           [Stat filePath; DetectFileType filePath; ProcessSingleFileContent filePath] |}.
Proof.
  intros Hmode Hstat Hsize Hasset Herr Htext Hover. cbn [fileLoop].
  rewrite (processFile_over_limit h config params n st filePath size text) by assumption.
  rewrite Hmode. unfold skip, called. cbn. now rewrite <- !app_assoc.
Qed.

(** A limit of 140 tokens: the 131 tokens of [/ws/long.txt] fit, and of
    the files after it [/ws/mid.txt] (131 tokens) is skipped and the
    short [/ws/z.txt] is still added. *)
Lemma sample_skips_at_token_limit_witness :
  exists r,
    run crowded (config (settings 50 140 Sample)) (request ["*.txt"]) = Returns r /\
    skipLog r = [ {| path := "mid.txt"; reason := "skipped to stay within token limit" |} ] /\
    List.length (fileParts (result r)) = 2%nat.
Proof.
  eexists. split; [vm_compute; reflexivity|]. split; [|reflexivity].
  change (skippedFiles
            (fileLoop crowded (config (settings 50 140 Sample)) (request ["*.txt"]) 3
               ["/ws/mid.txt"; "/ws/z.txt"]
               (fileLoop crowded (config (settings 50 140 Sample)) (request ["*.txt"]) 3
                  ["/ws/long.txt"] (initialState []))) =
          [ {| path := "mid.txt"; reason := "skipped to stay within token limit" |} ]).
  rewrite (sample_skips_at_token_limit crowded (config (settings 50 140 Sample))
             (request ["*.txt"]) 3
             (fileLoop crowded (config (settings 50 140 Sample)) (request ["*.txt"]) 3
                ["/ws/long.txt"] (initialState []))
             "/ws/mid.txt" ["/ws/z.txt"] 500 longText eq_refl eq_refl
             ltac:(vm_compute; discriminate) eq_refl eq_refl eq_refl
             ltac:(vm_compute; reflexivity)).
  reflexivity.
Defined.

End ReadManyFilesPolicies.

(** ** [read_many_files]: reproducible content *)

Module ReadManyFilesOrder.

Import Js JsFacts SortFacts ReadManyFiles ReadManyFilesDesign ReadManyFilesFacts.

Lemma sameElements_refl l : sameElements l l.
Proof. intros x. reflexivity. Qed.

Lemma sameElements_map (f : string -> string) l l' :
  sameElements l l' -> sameElements (map f l) (map f l').
Proof.
  intros H x. rewrite !in_map_iff. split; intros (y & <- & Hy); exists y; split; auto;
    now apply H.
Qed.

Lemma sameElements_setAddAll l l' s s' :
  sameElements l l' -> sameElements s s' -> sameElements (setAddAll l s) (setAddAll l' s').
Proof.
  intros Hl Hs x. rewrite !setAddAll_In. unfold sameElements in *.
  rewrite Hl, Hs. reflexivity.
Qed.

Lemma arrayIncludes_same a b x :
  sameElements a b -> arrayIncludes a x = arrayIncludes b x.
Proof.
  intros H. apply eq_true_iff_eq. rewrite !arrayIncludes_In. apply H.
Qed.

Section Order.
Variable h : Host.
Variable g : list string -> list string -> string -> string + list string.
Variable config : Config.
Variable params : ReadManyFilesParams.

Hypothesis same_finds : forall patterns ignore cwd,
  sameFinds (glob h patterns ignore cwd) (g patterns ignore cwd).

Hypothesis filter_by_elements : forall l l' o,
  sameElements l l' -> sameElements (filterFiles config l o) (filterFiles config l' o).

Lemma globWorkspace_same dirs : forall acc acc',
  sameElements acc acc' ->
  sameFinds (globWorkspace h config params dirs acc)
            (globWorkspace (withGlob h g) config params dirs acc').
Proof.
  induction dirs as [|dir dirs IH]; intros acc acc' Hacc; cbn [globWorkspace].
  - exact Hacc.
  - change (glob (withGlob h g)) with g.
    change (effectiveExcludes (withGlob h g) config params)
      with (effectiveExcludes h config params).
    pose proof (same_finds (map backslashesToSlashes (searchPatterns params))
                  (effectiveExcludes h config params) dir) as Hg.
    destruct (glob h _ _ dir) as [e|l], (g _ _ dir) as [e'|l']; cbn in Hg; try contradiction.
    + exact Hg.
    + apply IH. now apply sameElements_setAddAll.
Qed.

Lemma globWorkspace_NoDup (host : Host) dirs : forall acc entries,
  NoDup acc -> globWorkspace host config params dirs acc = inr entries -> NoDup entries.
Proof.
  induction dirs as [|dir dirs IH]; intros acc entries Hacc; cbn [globWorkspace].
  - now intros [= <-].
  - destruct (glob host _ _ dir) as [e|l]; [discriminate|].
    apply IH. now apply setAddAll_NoDup.
Qed.

Lemma gitFilteredEntries_same e e' :
  sameElements e e' ->
  sameElements (gitFilteredEntries h config params e)
               (gitFilteredEntries (withGlob h g) config params e').
Proof.
  intros He. unfold gitFilteredEntries.
  change (fileFilteringOptions (withGlob h g) config params)
    with (fileFilteringOptions h config params).
  destruct (respectGitIgnore _); [|exact He].
  apply sameElements_map, filter_by_elements, sameElements_map, He.
Qed.

Lemma finalFilteredEntries_same e e' :
  sameElements e e' ->
  sameElements (finalFilteredEntries h config params e)
               (finalFilteredEntries (withGlob h g) config params e').
Proof.
  intros He. unfold finalFilteredEntries.
  change (fileFilteringOptions (withGlob h g) config params)
    with (fileFilteringOptions h config params).
  destruct (respectLlxprtIgnore _); [|now apply gitFilteredEntries_same].
  apply sameElements_map, filter_by_elements, sameElements_map.
  now apply gitFilteredEntries_same.
Qed.

Lemma kept_same e e' q :
  sameElements e e' ->
  kept h config params e q = kept (withGlob h g) config params e' q.
Proof.
  intros He. unfold kept.
  change (fileFilteringOptions (withGlob h g) config params)
    with (fileFilteringOptions h config params).
  rewrite (arrayIncludes_same _ _ q (gitFilteredEntries_same e e' He)).
  rewrite (arrayIncludes_same _ _ q (finalFilteredEntries_same e e' He)).
  reflexivity.
Qed.

Lemma considerEntry_NoDup (host : Host) all d p :
  NoDup (filesToConsider d) -> NoDup (filesToConsider (considerEntry host config params all d p)).
Proof.
  intros Hd. unfold considerEntry.
  repeat match goal with |- context [if ?b then _ else _] => destruct b end; cbn;
    auto using setAdd_NoDup.
Qed.

Lemma considerEntries_NoDup (host : Host) entries :
  NoDup (filesToConsider (considerEntries host config params entries)).
Proof.
  unfold considerEntries. generalize entries at 1. intros all.
  assert (H : NoDup (filesToConsider emptyDiscovery)) by constructor.
  revert H. generalize emptyDiscovery.
  induction entries as [|p l IH]; intros d Hd; cbn [fold_left]; [exact Hd|].
  apply IH. now apply considerEntry_NoDup.
Qed.

Lemma sortedFilesOf_same e e' :
  sameElements e e' ->
  sortedFilesOf h config params e = sortedFilesOf (withGlob h g) config params e'.
Proof.
  intros He. unfold sortedFilesOf. apply sort_unique; try apply considerEntries_NoDup.
  intros q.
  pose proof (sortedFilesOf_In h config params e q) as H1.
  pose proof (sortedFilesOf_In (withGlob h g) config params e' q) as H2.
  unfold sortedFilesOf in H1, H2. rewrite sort_In in H1, H2.
  rewrite H1, H2, (kept_same e e' q He). unfold sameElements in He. now rewrite He.
Qed.

(** The loop reads the files with the same answers under both hosts. *)
Lemma fileLoop_withGlob n files st :
  fileLoop (withGlob h g) config params n files st = fileLoop h config params n files st.
Proof. reflexivity. Qed.

Lemma processFile_sameContent n st st' filePath :
  sameContent st st' ->
  sameContent (fst (processFile h config params n st filePath))
              (fst (processFile h config params n st' filePath)) /\
  snd (processFile h config params n st filePath) =
  snd (processFile h config params n st' filePath).
Proof.
  intros (Ht & Hc & Hp). unfold processFile, addContent, sameContent.
  destruct (stat h filePath) as [message|size]; [cbn; auto|].
  destruct (_ >? _)%Z; [cbn; auto|].
  destruct (_ && _); [cbn; auto|].
  destruct (truthy _); [cbn; auto|].
  destruct (FileUtils.llmContent _) as [text|part]; cbn [totalTokens called];
    rewrite <- Ht.
  - destruct (_ >? _)%Z.
    + destruct (truncateMode config); [cbn; auto| |cbn; auto].
      destruct (_ >? 100)%Z; cbn; rewrite ?Hc, ?Hp; auto.
    + cbn; rewrite ?Hc, ?Hp; auto.
  - destruct (_ >? _)%Z; cbn; rewrite ?Hc, ?Hp; auto.
Qed.

Lemma fileLoop_sameContent n files : forall st st',
  sameContent st st' ->
  sameContent (fileLoop h config params n files st) (fileLoop h config params n files st').
Proof.
  induction files as [|f files IH]; intros st st' Hs; cbn [fileLoop]; [exact Hs|].
  destruct (processFile_sameContent n st st' f Hs) as [H1 H2].
  destruct (processFile h config params n st f) as [s1 n1],
           (processFile h config params n st' f) as [s2 n2].
  cbn in H1, H2. subst n2. destruct n1; [now apply IH|exact H1].
Qed.

(** The file count check does not look at the skip log. *)
Lemma checkFileCount_skipped sortedFiles skipped skipped' :
  match checkFileCount config sortedFiles skipped,
        checkFileCount config sortedFiles skipped' with
  | Returns (WarnReturn r), Returns (WarnReturn r') => r = r'
  | Returns (Proceed files _), Returns (Proceed files' _) => files = files'
  | Throws e, Throws e' => e = e'
  | Hangs, Hangs => True
  | _, _ => False
  end.
Proof.
  unfold checkFileCount. destruct (_ >? _)%Z; [|reflexivity].
  destruct (truncateMode config); [reflexivity| |].
  - destruct (_ <? 0)%Z; reflexivity.
  - destruct (sampleLoop _ _ _ _ _ _); [reflexivity|exact I].
Qed.

End Order.

(** C9.  The machine-consumable content of a call is a function of its
    inputs and of the file system; it does not even depend on the order in
    which [glob] reports the files it finds, nor on repetitions among
    them, as long as the ignore service filters a list by its elements:
    two runs over the same file system return the same [llmContent], to
    the character. *)
Theorem machine_content_is_reproducible h g config params :
  (forall patterns ignore cwd,
     sameFinds (glob h patterns ignore cwd) (g patterns ignore cwd)) ->
  (forall l l' o,
     sameElements l l' -> sameElements (filterFiles config l o) (filterFiles config l' o)) ->
  machineContent (execute (withGlob h g) config params) =
  machineContent (execute h config params).
Proof.
  intros Hfinds Hfilter. unfold execute, run.
  change (validateParams (withGlob h g) params) with (validateParams h params).
  destruct (validateParams h params); [reflexivity|].
  destruct (_ =? 0)%Z; [reflexivity|].
  pose proof (globWorkspace_same h g config params Hfinds (getDirectories config) [] []
                (sameElements_refl [])) as Hg.
  destruct (globWorkspace h config params _ _) as [e|entries] eqn:G1,
           (globWorkspace (withGlob h g) config params _ _) as [e'|entries'] eqn:G2;
    cbn in Hg; try contradiction.
  { now subst. }
  rewrite <- (sortedFilesOf_same h g config params Hfilter entries entries' Hg).
  pose proof (checkFileCount_skipped config (sortedFilesOf h config params entries)
                (skippedAfterDiscovery h config params entries)
                (skippedAfterDiscovery (withGlob h g) config params entries')) as Hc.
  destruct (checkFileCount _ _ (skippedAfterDiscovery h _ _ _)) as [[r|files sk]|e|],
           (checkFileCount _ _ (skippedAfterDiscovery (withGlob h g) _ _ _))
             as [[r'|files' sk']|e'|];
    try contradiction; try (now subst).
  subst files'. cbn. rewrite fileLoop_withGlob.
  assert (Hs : sameContent (initialState sk') (initialState sk)) by (repeat split).
  apply (fileLoop_sameContent h config params (len files) files) in Hs as (_ & Hparts & _).
  unfold finalContent. now rewrite Hparts.
Qed.

Import Fixture Worlds.

(** The two workspace files, found as [b, a] by one search and as
    [a, b, a] by another. *)
Lemma machine_content_is_reproducible_witness :
  machineContent
    (execute (withGlob inside (fun _ _ _ => inr ["/ws/a.txt"; "/ws/b.txt"; "/ws/a.txt"]))
       (config defaults) (request ["*.txt"])) =
  Returns
    (Parts
       [ FileUtils.Text ("--- /ws/a.txt ---" +:+ nl +:+ nl +:+ "hello" +:+ nl +:+ nl);
         FileUtils.Text ("--- /ws/b.txt ---" +:+ nl +:+ nl +:+ "world" +:+ nl +:+ nl) ]).
Proof.
  rewrite (machine_content_is_reproducible inside
             (fun _ _ _ => inr ["/ws/a.txt"; "/ws/b.txt"; "/ws/a.txt"])
             (config defaults) (request ["*.txt"])).
  - reflexivity.
  - intros patterns ignore cwd x. cbn. tauto.
  - intros l l' o H. exact H.
Defined.

End ReadManyFilesOrder.

(** ** The context loader *)

Module MemoryDiscoveryFacts.

Import Js JsFacts StringFacts ClimbFacts MemoryDiscovery MemoryDiscoveryDesign.

Lemma filter_filter {A} (f g : A -> bool) l :
  filter f (filter g l) = filter (fun x => f x && g x) l.
Proof.
  induction l as [|x l IH]; cbn; [reflexivity|].
  destruct (g x); cbn; rewrite IH; [|rewrite andb_false_r]; try reflexivity.
  now rewrite andb_true_r.
Qed.

(** Adding the elements of [l] to a set leaves the set in front and adds
    the new elements in the order of their first occurrence. *)
Lemma setAddAll_dedup l : forall s,
  setAddAll l s = s ++ filter (fun y => negb (arrayIncludes s y)) (dedup l).
Proof.
  induction l as [|x l IH]; intros s; cbn [setAddAll fold_left dedup].
  - cbn. now rewrite app_nil_r.
  - change (fold_left (fun acc y => setAdd y acc) l (setAdd x s))
      with (setAddAll l (setAdd x s)).
    rewrite IH. cbn [filter]. destruct (arrayIncludes s x) eqn:E; cbn [negb].
    + apply arrayIncludes_In in E. rewrite (setAdd_old x s E). f_equal.
      rewrite filter_filter. apply filter_ext_in. intros y _.
      destruct (String.eqb_spec y x) as [->|_]; cbn.
      * apply arrayIncludes_In in E. rewrite E. reflexivity.
      * now rewrite andb_true_r.
    + assert (Hn : ~ In x s).
      { intros Hin. apply arrayIncludes_In in Hin. congruence. }
      rewrite (setAdd_new x s Hn), <- app_assoc. cbn [app]. do 2 f_equal.
      rewrite filter_filter. apply filter_ext_in. intros y _.
      unfold arrayIncludes. rewrite existsb_app. cbn [existsb].
      rewrite orb_false_r, negb_orb. reflexivity.
Qed.

Lemma setAddAll_from_empty l : setAddAll l [] = dedup l.
Proof.
  rewrite setAddAll_dedup. cbn [app]. rewrite <- (filter_ext (fun _ => true)).
  - clear. induction (dedup l) as [|x d IH]; cbn; [reflexivity|now rewrite IH].
  - reflexivity.
Qed.

Section Facts.
Variable h : Host.

Lemma levels_fixpoint n : forall d x, Path.dirname d = d -> In x (levels n d) -> x = d.
Proof.
  induction n as [|n IH]; intros d x Hfix; cbn.
  - intros [<-|[]]. reflexivity.
  - rewrite Hfix. intros [<-|Hin]; [reflexivity|now apply IH].
Qed.

Lemma find_none_fixpoint n d :
  Path.dirname d = d -> hasGit h d = false -> find (hasGit h) (levels n d) = None.
Proof.
  intros Hfix Hgit. destruct (find _ _) as [x|] eqn:E; [|reflexivity].
  apply find_some in E as [Hin Hx].
  apply levels_fixpoint in Hin; [|assumption]. congruence.
Qed.

(** [findProjectRoot] finds the nearest directory, from the start up,
    that holds a [.git] directory; its loop ends within the fuel. *)
Lemma findProjectRootFrom_spec fuel : forall d,
  (height d <= S fuel)%nat ->
  findProjectRootFrom h fuel d = Some (find (hasGit h) (levels fuel d)).
Proof.
  induction fuel as [|fuel IH]; intros d Hh; cbn [findProjectRootFrom levels find];
    unfold hasGit at 1.
  - apply height_one in Hh as [Hfix _]. rewrite Hfix, String.eqb_refl.
    destruct (lstatIsDirectory h _) as [[|]|]; reflexivity.
  - assert (Hrec : findProjectRootFrom h fuel (Path.dirname d) =
                   Some (find (hasGit h) (levels fuel (Path.dirname d))) \/
                   Path.dirname d = d).
    { destruct (String.eqb_spec (Path.dirname d) d) as [E|E]; [now right|left].
      apply IH. pose proof (dirname_height d E). lia. }
    assert (Hnone : hasGit h d = false ->
              (if String.eqb (Path.dirname d) d then Some None
               else findProjectRootFrom h fuel (Path.dirname d)) =
              Some (find (hasGit h) (levels fuel (Path.dirname d)))).
    { intros Hgit. destruct (String.eqb_spec (Path.dirname d) d) as [E|E].
      - rewrite E. now rewrite find_none_fixpoint.
      - destruct Hrec as [Hrec|Hrec]; [exact Hrec|contradiction]. }
    unfold hasGit in Hnone.
    destruct (lstatIsDirectory h _) as [[|]|]; try reflexivity; now apply Hnone.
Qed.

Lemma findProjectRoot_spec startDir :
  findProjectRoot h startDir = Some (projectRootOf h startDir).
Proof.
  unfold findProjectRoot, projectRootOf. apply findProjectRootFrom_spec.
  unfold climbFuel. pose proof (height_bound (resolve h startDir)). lia.
Qed.

Section UpwardScan.
Variable contextFilename : string.
Variable home : string.
Variable global : string.
Variable stop : string.

Lemma upwardScan_spec fuel : forall d acc,
  (height d <= S fuel)%nat ->
  upwardScan h contextFilename home global stop fuel d acc =
    Some (rev (filter (fun p => access h p && negb (String.eqb p global))
                 (map (fun d' => Path.join [d'; contextFilename])
                    (visited stop (Path.join [home; LLXPRT_CONFIG_DIR h]) (levels fuel d))))
          ++ acc).
Proof.
  induction fuel as [|fuel IH]; intros d acc Hh.
  - apply height_one in Hh as [Hfix Hne]. cbn [upwardScan levels visited].
    rewrite Hfix, String.eqb_refl, andb_false_r, orb_true_r. reflexivity.
  - cbn [upwardScan levels visited].
    destruct (String.eqb d "") eqn:E1; [reflexivity|].
    destruct (String.eqb d (Path.dirname d)) eqn:E2; [reflexivity|].
    cbn [negb andb orb].
    destruct (String.eqb d (Path.join [home; LLXPRT_CONFIG_DIR h])); [reflexivity|].
    destruct (String.eqb d stop).
    + cbn. destruct (access h _ && _); reflexivity.
    + rewrite IH.
      * cbn [map filter]. destruct (access h _ && _); cbn [rev]; rewrite <- ?app_assoc;
          reflexivity.
      * apply String.eqb_neq in E2.
        assert (Path.dirname d <> d) as E by congruence.
        pose proof (dirname_height d E). lia.
Qed.

End UpwardScan.

Lemma upwardPathsFor_spec dir home contextFilename :
  upwardPathsFor h dir home contextFilename = Some (upwardMatches h dir home contextFilename).
Proof.
  unfold upwardPathsFor, upwardMatches, visitedLevels.
  rewrite findProjectRoot_spec, upwardScan_spec.
  - now rewrite app_nil_r.
  - unfold climbFuel. pose proof (height_bound (resolve h dir)). lia.
Qed.

Lemma addContextFilename_spec dir home opts maxDirs allPaths contextFilename :
  addContextFilename h dir home opts maxDirs allPaths contextFilename =
    Some (setAddAll (pathsFor h dir home opts maxDirs contextFilename) allPaths).
Proof.
  unfold addContextFilename, pathsFor. rewrite upwardPathsFor_spec.
  rewrite setAddAll_app.
  assert (Hg : (if access h (globalMemoryPath h home contextFilename)
                then setAdd (globalMemoryPath h home contextFilename) allPaths
                else allPaths) =
               setAddAll (if access h (globalMemoryPath h home contextFilename)
                          then [globalMemoryPath h home contextFilename] else []) allPaths).
  { destruct (access h _); reflexivity. }
  rewrite Hg. destruct (String.eqb dir ""); cbn [negb]; [reflexivity|].
  now rewrite setAddAll_app.
Qed.

Lemma addContextFilenames_spec dir home opts maxDirs names : forall allPaths,
  addContextFilenames h dir home opts maxDirs names allPaths =
    Some (setAddAll (flat_map (pathsFor h dir home opts maxDirs) names) allPaths).
Proof.
  induction names as [|name names IH]; intros allPaths; cbn [addContextFilenames flat_map].
  - reflexivity.
  - rewrite addContextFilename_spec, IH, setAddAll_app. reflexivity.
Qed.

Lemma getContextFilePathsInternalForEachDir_spec dir home opts maxDirs ext :
  getContextFilePathsInternalForEachDir h dir home opts maxDirs ext =
    Some (dedup (flat_map (pathsFor h dir home opts maxDirs) (getAllContextFilenames h) ++ ext)).
Proof.
  unfold getContextFilePathsInternalForEachDir.
  rewrite addContextFilenames_spec, <- setAddAll_app, setAddAll_from_empty. reflexivity.
Qed.

Lemma forEachDir_total home debug ext opts maxDirs dirs : forall paths,
  exists all, forEachDir h dirs home debug ext opts maxDirs paths = Some all.
Proof.
  induction dirs as [|dir dirs IH]; intros paths; cbn [forEachDir]; [eauto|].
  rewrite getContextFilePathsInternalForEachDir_spec. apply IH.
Qed.

(** The discovery always returns: no loop of it runs out of fuel. *)
Lemma getContextFilePathsInternal_total cwd include home debug ext opts maxDirs :
  exists filePaths,
    getContextFilePathsInternal h cwd include home debug ext opts maxDirs = Some filePaths.
Proof.
  unfold getContextFilePathsInternal.
  destruct (forEachDir_total home debug ext opts maxDirs
              (setAddAll (include ++ [cwd]) []) []) as [all ->]. eauto.
Qed.

Lemma keepSome_flat_map {A B} (f : A -> option B) l :
  keepSome (map f l) = flat_map (fun x => match f x with Some b => [b] | None => [] end) l.
Proof.
  induction l as [|x l IH]; cbn; [reflexivity|]. destruct (f x); cbn; now rewrite IH.
Qed.

Lemma concatenateInstructions_spec cwd debug format filePaths :
  concatenateInstructions h (readContextFiles h filePaths debug format) cwd =
  String.concat (nl +:+ nl) (flat_map (contribution h cwd debug format) filePaths).
Proof.
  unfold concatenateInstructions, readContextFiles. f_equal.
  rewrite map_map, keepSome_flat_map. apply flat_map_ext. intros p.
  unfold instructionBlock, contribution.
  destruct (content _) as [text|]; [|reflexivity].
  destruct (String.eqb_spec (trim text) "") as [->|Hne]; [reflexivity|].
  destruct (trim text) eqn:E; [congruence|]. cbn [String.length Nat.eqb].
  unfold readContextFile.
  destruct (readFile h p) as [c|]; [destruct (processImports h c _ _ _)|]; reflexivity.
Qed.

End Facts.

End MemoryDiscoveryFacts.

Module MemoryDiscoverySpec.

Import Js JsFacts StringFacts ClimbFacts MemoryDiscovery MemoryDiscoveryDesign MemoryDiscoveryFacts Fixture Worlds.

Lemma dedup_In l : forall x, In x (dedup l) <-> In x l.
Proof.
  induction l as [|y l IH]; intros x; cbn; [tauto|].
  rewrite filter_In, IH. destruct (String.eqb_spec x y) as [->|Hne]; cbn.
  - intuition.
  - intuition congruence.
Qed.

Lemma dedup_NoDup l : NoDup (dedup l).
Proof.
  induction l as [|y l IH]; cbn; constructor.
  - rewrite filter_In, String.eqb_refl. cbn. intros [_ H]. discriminate.
  - now apply NoDup_filter.
Qed.

(** C6 (as stated, refuted).  With the two recognized names [A.md] and
    [B.md], the upward match [/r/p/B.md] comes after the downward match
    [/r/p/sub/A.md] in the final list. *)
Lemma precedence_order_counterexample :
  upwardMatches twoNames "/r/p" "/home/u" "B.md" = ["/r/p/B.md"] /\
  downwardPathsFor twoNames "/r/p" anyOptions 200 "A.md" = ["/r/p/A.md"; "/r/p/sub/A.md"] /\
  getContextFilePathsInternalForEachDir twoNames "/r/p" "/home/u" anyOptions 200 ["/ext/E.md"] =
    Some [ "/home/u/.llxprt/A.md"; "/r/p/A.md"; "/r/p/sub/A.md"; "/r/p/B.md"; "/ext/E.md" ].
Proof. repeat split; reflexivity. Qed.

(** C6 (amended).  The final list holds no path twice and is ordered by
    first occurrence in this sequence: for each recognized context file
    name in turn, its global file if readable, then its upward matches
    from the highest directory down, then its downward matches sorted;
    after all names, the extension-provided paths.  With one recognized
    name this is: global, upward, downward, extension. *)
Theorem precedence_order_per_name h dir home opts maxDirs ext :
  let sequence :=
    flat_map (pathsFor h dir home opts maxDirs) (getAllContextFilenames h) ++ ext in
  getContextFilePathsInternalForEachDir h dir home opts maxDirs ext = Some (dedup sequence) /\
  NoDup (dedup sequence) /\
  (forall p, In p (dedup sequence) <-> In p sequence) /\
  (forall name, getAllContextFilenames h = [name] ->
     sequence =
       (if access h (globalMemoryPath h home name)
        then [globalMemoryPath h home name] else []) ++
       (if String.eqb dir "" then []
        else upwardMatches h dir home name ++ downwardPathsFor h dir opts maxDirs name) ++
       ext).
Proof.
  intros sequence. split.
  { unfold getContextFilePathsInternalForEachDir, sequence.
    rewrite addContextFilenames_spec, <- setAddAll_app. f_equal.
    apply setAddAll_from_empty. }
  split; [apply dedup_NoDup|]. split; [apply dedup_In|].
  intros name Hname. unfold sequence. rewrite Hname. cbn [flat_map].
  rewrite app_nil_r. unfold pathsFor. now rewrite <- app_assoc.
Qed.

(** The fixture of the design document: the project root marker two
    levels above the working directory, a global file, a downward match
    three levels deep, and one extension-provided path. *)
Example precedence_order_fixture :
  getContextFilePathsInternalForEachDir project "/r/p/a/b" "/home/u" anyOptions 200
    ["/ext/E.md"] =
    Some [ "/home/u/.llxprt/LLXPRT.md";
           "/r/LLXPRT.md"; "/r/p/LLXPRT.md"; "/r/p/a/b/LLXPRT.md";
           "/r/p/a/b/c/d/e/LLXPRT.md"; "/r/p/a/b/z/LLXPRT.md";
           "/ext/E.md" ].
Proof. reflexivity. Qed.

(** C7 (as stated, refuted).  No [.git] directory exists above
    [/a/b/u/p], and [/a] is a directory above it, below the file system
    root, with a readable context file that is not the global file; the
    upward scan does not record it: it stops at [/a/b], the parent of the
    home directory. *)
Lemma upward_scan_counterexample :
  findProjectRoot underHome "/a/b/u/p" = Some None /\
  levels 3 "/a/b/u/p" = ["/a/b/u/p"; "/a/b/u"; "/a/b"; "/a"] /\
  Path.dirname "/a" = "/" /\
  access underHome "/a/LLXPRT.md" = true /\
  globalMemoryPath underHome "/a/b/u" "LLXPRT.md" = "/a/b/u/.llxprt/LLXPRT.md" /\
  visitedLevels underHome "/a/b/u/p" "/a/b/u" = ["/a/b/u/p"; "/a/b/u"; "/a/b"] /\
  upwardPathsFor underHome "/a/b/u/p" "/a/b/u" "LLXPRT.md" = Some ["/a/b/u/p/LLXPRT.md"].
Proof. repeat split; reflexivity. Qed.

(** C7 (amended).  The upward scan looks at the start directory and its
    parents in turn and ends with the stop directory, which is the parent
    of the nearest directory holding a [.git] directory or, when there is
    none, the parent of the home directory; it also ends before the global
    configuration directory and before a directory that is its own parent
    (the file system root), which is not looked at.  At each directory
    looked at, a readable context file that is not the global file is
    recorded; the list goes from the highest directory down. *)
Theorem upward_scan_levels h dir home contextFilename :
  findProjectRoot h (resolve h dir) = Some (projectRootOf h (resolve h dir)) /\
  visitedLevels h dir home =
    visited
      (match projectRootOf h (resolve h dir) with
       | Some root => Path.dirname root
       | None => Path.dirname (resolve h home)
       end)
      (Path.join [resolve h home; LLXPRT_CONFIG_DIR h])
      (levels (climbFuel (resolve h dir)) (resolve h dir)) /\
  upwardPathsFor h dir home contextFilename =
    Some (rev (filter
                 (fun p => access h p &&
                           negb (String.eqb p (globalMemoryPath h home contextFilename)))
                 (map (fun d => Path.join [d; contextFilename]) (visitedLevels h dir home)))).
Proof.
  split.
  { unfold findProjectRoot. apply findProjectRootFrom_spec.
    unfold climbFuel. pose proof (height_bound (resolve h (resolve h dir))). lia. }
  split; [reflexivity|].
  unfold upwardPathsFor. rewrite findProjectRoot_spec, upwardScan_spec.
  - now rewrite app_nil_r.
  - unfold climbFuel. pose proof (height_bound (resolve h dir)). lia.
Qed.

(** In the project [/r/p] the scan from [/r/p/a/b] ends with [/r], one
    level above the project root. *)
Example upward_scan_project :
  projectRootOf project "/r/p/a/b" = Some "/r/p" /\
  visitedLevels project "/r/p/a/b" "/home/u" = ["/r/p/a/b"; "/r/p/a"; "/r/p"; "/r"] /\
  upwardPathsFor project "/r/p/a/b" "/home/u" "LLXPRT.md" =
    Some ["/r/LLXPRT.md"; "/r/p/LLXPRT.md"; "/r/p/a/b/LLXPRT.md"].
Proof. repeat split; reflexivity. Qed.

(** C8 (as stated, refuted).  The one context file found holds white
    space only: no file contributes content to the document, and the file
    count is 1. *)
Lemma file_count_counterexample :
  getContextFilePathsInternal blank "/r/p" [] "/home/u" false [] anyOptions 200
    = Some ["/r/p/LLXPRT.md"] /\
  flat_map (contribution blank "/r/p" false tree) ["/r/p/LLXPRT.md"] = [] /\
  loadServerHierarchicalMemory blank "/r/p" [] false [] tree None 200 =
    Some {| memoryContent := ""; fileCount := 1 |}.
Proof. repeat split; reflexivity. Qed.

(** C8 (amended).  [loadServerHierarchicalMemory] returns; the document is
    the blocks of the files found, in order, joined by an empty line,
    where a file has a block, its trimmed content between the two
    delimiter lines, unless its content is [null] or empty after
    trimming; the file count is the number of the files found, with or
    without a block, hence at least the number of blocks. *)
Theorem file_count_is_files_found h cwd include debug ext format opts maxDirs :
  exists filePaths,
    getContextFilePathsInternal h cwd include (homedir h) debug ext
      (match opts with
       | Some o => o
       | None => DEFAULT_MEMORY_FILE_FILTERING_OPTIONS h
       end) maxDirs = Some filePaths /\
    loadServerHierarchicalMemory h cwd include debug ext format opts maxDirs =
      Some {| memoryContent :=
                String.concat (nl +:+ nl)
                  (flat_map (contribution h cwd debug format) filePaths);
              fileCount := len filePaths |} /\
    (len (flat_map (contribution h cwd debug format) filePaths) <= len filePaths)%Z.
Proof.
  destruct (getContextFilePathsInternal_total h cwd include (homedir h) debug ext
              (match opts with
               | Some o => o
               | None => DEFAULT_MEMORY_FILE_FILTERING_OPTIONS h
               end) maxDirs) as [filePaths Hpaths].
  exists filePaths. split; [exact Hpaths|]. split.
  - unfold loadServerHierarchicalMemory. rewrite Hpaths.
    destruct (len filePaths =? 0)%Z eqn:E.
    + apply Z.eqb_eq in E. destruct filePaths; [reflexivity|]. unfold len in E. cbn in E. lia.
    + rewrite concatenateInstructions_spec. unfold readContextFiles, len.
      now rewrite length_map.
  - unfold len. apply inj_le. clear Hpaths.
    induction filePaths as [|p l IH]; cbn [flat_map]; [lia|].
    rewrite length_app. cbn [List.length].
    assert (List.length (contribution h cwd debug format p) <= 1)%nat; [|lia].
    unfold contribution. destruct (content _); [|cbn; lia].
    destruct (String.eqb _ _); cbn; lia.
Qed.

(** In the project fixture seven files are found and six have a block. *)
Example file_count_project :
  exists m,
    loadServerHierarchicalMemory project "/r/p/a/b" [] false ["/ext/E.md"] tree None 200
      = Some m /\
    fileCount m = 7%Z /\
    List.length
      (flat_map (contribution project "/r/p/a/b" false tree)
         [ "/home/u/.llxprt/LLXPRT.md";
           "/r/LLXPRT.md"; "/r/p/LLXPRT.md"; "/r/p/a/b/LLXPRT.md";
           "/r/p/a/b/c/d/e/LLXPRT.md"; "/r/p/a/b/z/LLXPRT.md";
           "/ext/E.md" ]) = 6%nat.
Proof. eexists. repeat split; reflexivity. Qed.

End MemoryDiscoverySpec.

Module MemoryDiscoveryExtras.

Import Js JsFacts StringFacts ClimbFacts MemoryDiscovery MemoryDiscoveryDesign.
Import MemoryDiscoveryFacts Fixture Worlds.

(** X6.  The discovery of the context files always returns, with a list
    that holds no path twice: the two loops that climb by [path.dirname]
    end at a directory that is its own parent at the latest, within the
    turns they are granted. *)
Theorem discovery_terminates h cwd include home debug ext opts maxDirs :
  exists filePaths,
    getContextFilePathsInternal h cwd include home debug ext opts maxDirs = Some filePaths /\
    NoDup filePaths.
Proof.
  unfold getContextFilePathsInternal.
  destruct (forEachDir_total h home debug ext opts maxDirs
              (setAddAll (include ++ [cwd]) []) []) as [all ->].
  eexists. split; [reflexivity|]. apply setAddAll_NoDup. constructor.
Qed.

(** X7.  A context file that cannot be read is kept in the result with
    [null] content, and the files before and after it are read as
    without it. *)
Theorem unreadable_file_is_kept h before p after debug format :
  readFile h p = None ->
  readContextFiles h (before ++ p :: after) debug format =
    readContextFiles h before debug format ++
    {| filePath := p; content := None |} :: readContextFiles h after debug format.
Proof.
  intros Hread. unfold readContextFiles. rewrite map_app. cbn [map].
  unfold readContextFile at 2. now rewrite Hread.
Qed.

(** The extension-provided [/ext/E.md] does not exist in the project
    fixture. *)
Lemma unreadable_file_is_kept_witness :
  readContextFiles project ["/r/p/LLXPRT.md"; "/ext/E.md"; "/r/LLXPRT.md"] false tree =
    [ {| filePath := "/r/p/LLXPRT.md"; content := Some "project" |};
      {| filePath := "/ext/E.md"; content := None |};
      {| filePath := "/r/LLXPRT.md"; content := Some "above" |} ].
Proof.
  exact (unreadable_file_is_kept project ["/r/p/LLXPRT.md"] "/ext/E.md" ["/r/LLXPRT.md"]
           false tree eq_refl).
Defined.

End MemoryDiscoveryExtras.

(** ** Subsequences *)

Module SubsequenceFacts.

Import ReadManyFilesAccounting.

Lemma subsequence_nil_l {A} (l : list A) : subsequence [] l.
Proof. induction l; constructor; assumption. Qed.

Lemma subsequence_refl {A} (l : list A) : subsequence l l.
Proof. induction l; constructor; assumption. Qed.

Lemma subsequence_In {A} (l l' : list A) :
  subsequence l l' -> forall x, In x l -> In x l'.
Proof.
  induction 1 as [|x l l' _ IH|x l l' _ IH]; intros y Hy.
  - assumption.
  - destruct Hy as [->|Hy]; [now left|right; now apply IH].
  - right. now apply IH.
Qed.

Lemma subsequence_length {A} (l l' : list A) :
  subsequence l l' -> (List.length l <= List.length l')%nat.
Proof. induction 1; cbn; lia. Qed.

Lemma subsequence_trans {A} (l2 l3 : list A) :
  subsequence l2 l3 -> forall l1, subsequence l1 l2 -> subsequence l1 l3.
Proof.
  induction 1 as [|x l2 l3 _ IH|x l2 l3 _ IH]; intros l1 H1.
  - assumption.
  - inversion H1; subst.
    + constructor. now apply IH.
    + apply subsequence_drop. now apply IH.
  - apply subsequence_drop. now apply IH.
Qed.

Lemma subsequence_app {A} (a a' b b' : list A) :
  subsequence a a' -> subsequence b b' -> subsequence (a ++ b) (a' ++ b').
Proof. induction 1; cbn; intros Hb; try constructor; auto. Qed.

Lemma subsequence_firstn {A} n : forall l : list A, subsequence (firstn n l) l.
Proof.
  induction n as [|n IH]; intros [|x l]; cbn; try constructor; auto using subsequence_nil_l.
Qed.

Lemma subsequence_skipn {A} n : forall l : list A, subsequence (skipn n l) l.
Proof.
  induction n as [|n IH]; intros [|x l]; cbn; try constructor; auto using subsequence_refl.
Qed.

Lemma subsequence_sorted {A} (R : A -> A -> Prop) (l l' : list A) :
  subsequence l l' -> StronglySorted R l' -> StronglySorted R l.
Proof.
  induction 1 as [|x l l' Hsub IH|x l l' Hsub IH]; intros Hs.
  - constructor.
  - apply StronglySorted_inv in Hs as [Hs Hx]. constructor; [now apply IH|].
    rewrite Forall_forall in *. intros y Hy. apply Hx.
    now apply (subsequence_In _ _ Hsub).
  - apply StronglySorted_inv in Hs as [Hs _]. now apply IH.
Qed.

Lemma skipn_nth {A} (d : A) : forall n l,
  (n < List.length l)%nat -> skipn n l = nth n l d :: skipn (S n) l.
Proof.
  induction n as [|n IH]; intros [|x l] Hn; cbn in *; try lia; [reflexivity|].
  apply IH. lia.
Qed.

Lemma skipn_skipn_add {A} a : forall b (l : list A), skipn (a + b) l = skipn a (skipn b l).
Proof.
  intros b l. rewrite Nat.add_comm. revert l.
  induction b as [|b IH]; intros l; cbn; [reflexivity|].
  destruct l as [|x l]; [now rewrite skipn_nil|]. apply IH.
Qed.

End SubsequenceFacts.

Module ReadManyFilesCalls.

Import Js JsFacts StringFacts SortFacts ReadManyFiles ReadManyFilesDesign.
Import ReadManyFilesFacts ReadManyFilesLoop ReadManyFilesAccounting SubsequenceFacts.

Lemma statted_app a b : statted (a ++ b) = statted a ++ statted b.
Proof. apply flat_map_app. Qed.

Lemma reads_app a b : reads (a ++ b) = reads a ++ reads b.
Proof. apply flat_map_app. Qed.

(** A sorted list without repetitions is strictly sorted. *)
Lemma sorted_strictly l :
  StronglySorted inOrder l -> NoDup l -> StronglySorted before l.
Proof.
  induction 1 as [|x l Hs IH Hx]; intros Hnd; constructor.
  - apply IH. now inversion Hnd.
  - inversion Hnd as [|? ? Hnotin _]; subst.
    rewrite Forall_forall in *. intros y Hy. specialize (Hx y Hy).
    unfold before, inOrder, String.ltb, String.leb in *.
    destruct (String.compare x y) eqn:E; try reflexivity; try discriminate.
    apply String.compare_eq_iff in E. now subst.
Qed.

Section Facts.
Variable h : Host.
Variable config : Config.
Variable params : ReadManyFilesParams.

Lemma sortedFilesOf_NoDup entries : NoDup (sortedFilesOf h config params entries).
Proof.
  apply (Permutation_NoDup (Permutation_sym (sort_perm _))).
  apply ReadManyFilesOrder.considerEntries_NoDup.
Qed.

Lemma sortedFilesOf_strictly entries :
  StronglySorted before (sortedFilesOf h config params entries).
Proof.
  apply sorted_strictly; [apply sort_sorted|apply sortedFilesOf_NoDup].
Qed.

(** The sampling loop picks its files from left to right. *)
Lemma sampleLoop_subsequence fuel sortedFiles step : forall i sampledFiles res,
  (0 <= i)%Z ->
  (forall k, step = Finite k -> 0 < k)%Z ->
  sampleLoop config fuel sortedFiles step i sampledFiles = Some res ->
  exists picked,
    res = sampledFiles ++ picked /\
    subsequence picked (skipn (Z.to_nat i) sortedFiles).
Proof.
  induction fuel as [|fuel IH]; intros i sampled res Hi Hstep; cbn [sampleLoop];
    destruct (i <? len sortedFiles)%Z eqn:E; intros H; try discriminate;
    try (injection H as <-; exists []; rewrite app_nil_r; split;
         [reflexivity|apply subsequence_nil_l]).
  apply Z.ltb_lt in E. unfold len in E.
  assert (Hlt : (Z.to_nat i < List.length sortedFiles)%nat) by lia.
  rewrite (skipn_nth "" _ _ Hlt).
  destruct step as [k|].
  - specialize (Hstep k eq_refl).
    apply IH in H as (picked & -> & Hsub); [|lia|intros k' [= <-]; lia].
    assert (Hsub' : subsequence picked (skipn (S (Z.to_nat i)) sortedFiles)).
    { apply (subsequence_trans _ _ (subsequence_skipn (Z.to_nat (i + k) - S (Z.to_nat i)) _)).
      rewrite <- skipn_skipn_add.
      replace (Z.to_nat (i + k) - S (Z.to_nat i) + S (Z.to_nat i))%nat
        with (Z.to_nat (i + k)) by lia.
      assumption. }
    destruct (len sampled <? maxFileCount config)%Z.
    + exists (nth (Z.to_nat i) sortedFiles "" :: picked). split.
      * now rewrite <- app_assoc.
      * now constructor.
    + exists picked. split; [reflexivity|now apply subsequence_drop].
  - injection H as <-. destruct (len sampled <? maxFileCount config)%Z.
    + exists [nth (Z.to_nat i) sortedFiles ""]. split; [reflexivity|].
      constructor. apply subsequence_nil_l.
    + exists []. rewrite app_nil_r. split; [reflexivity|apply subsequence_nil_l].
Qed.

(** The sampling loop stops pushing at the limit. *)
Lemma sampleLoop_bounded fuel sortedFiles step : forall i sampledFiles res,
  (len sampledFiles <= Z.max 0 (maxFileCount config))%Z ->
  sampleLoop config fuel sortedFiles step i sampledFiles = Some res ->
  (len res <= Z.max 0 (maxFileCount config))%Z.
Proof.
  induction fuel as [|fuel IH]; intros i sampled res Hlen; cbn [sampleLoop];
    destruct (i <? len sortedFiles)%Z; intros H; try discriminate;
    try (injection H as <-; assumption).
  assert (Hlen' :
    (len (if (len sampled <? maxFileCount config)%Z
          then sampled ++ [nth (Z.to_nat i) sortedFiles ""] else sampled)
     <= Z.max 0 (maxFileCount config))%Z).
  { destruct (len sampled <? maxFileCount config)%Z eqn:E; [|assumption].
    apply Z.ltb_lt in E. rewrite len_app. unfold len in *. cbn. lia. }
  destruct step as [k|].
  - now apply IH in H.
  - now injection H as <-.
Qed.

(** The file count policies drop files; they neither add nor reorder
    any, and they leave no more than the limit. *)
Lemma checkFileCount_subsequence sortedFiles skipped files' skipped' :
  checkFileCount config sortedFiles skipped = Returns (Proceed files' skipped') ->
  subsequence files' sortedFiles /\
  (len files' <= Z.max 0 (maxFileCount config))%Z.
Proof.
  unfold checkFileCount.
  destruct (len sortedFiles >? maxFileCount config)%Z eqn:Hover.
  - destruct (truncateMode config).
    + discriminate.
    + destruct (maxFileCount config <? 0)%Z eqn:Hneg; [discriminate|].
      intros [= <- _]. apply Z.ltb_ge in Hneg. split; [apply subsequence_firstn|].
      unfold len. rewrite length_firstn. lia.
    + destruct sortedFiles as [|f rest] eqn:Hfiles.
      { cbn. intros [= <- _]. split; [constructor|cbn; lia]. }
      rewrite <- Hfiles in *.
      destruct (sampleLoop _ _ _ _ _ _) as [sampled|] eqn:Hloop; [|discriminate].
      intros [= <- _]. split.
      * assert (Hpos : (0 < len sortedFiles)%Z) by (subst; unfold len; cbn; lia).
        pose proof (ReadManyFilesTermination.ceilDiv_sign _ (maxFileCount config) Hpos) as Hs.
        destruct (ceilDiv _ _) as [k|] eqn:Hk.
        -- destruct Hs as [[_ Hkpos]|[_ Hkneg]].
           ++ apply sampleLoop_subsequence in Hloop as (picked & -> & Hsub);
                [assumption|lia|intros k' [= <-]; assumption].
           ++ rewrite (sampleLoop_hangs config _ _ _ _ _ Hkneg Hpos) in Hloop. discriminate.
        -- apply sampleLoop_subsequence in Hloop as (picked & -> & Hsub);
             [assumption|lia|discriminate].
      * eapply sampleLoop_bounded; [|exact Hloop]. unfold len; cbn; lia.
  - intros [= <- _]. split; [apply subsequence_refl|].
    destruct (Z.gtb_spec (len sortedFiles) (maxFileCount config)); [discriminate|lia].
Qed.

(** The calls of one turn of the loop. *)
Lemma addContent_calls n st filePath rel r :
  fsCalls (fst (addContent config n st filePath rel r)) = fsCalls st.
Proof.
  unfold addContent.
  destruct (FileUtils.llmContent r).
  - destruct (_ >? _)%Z; [|reflexivity].
    destruct (truncateMode config); try reflexivity.
    destruct (_ >? _)%Z; reflexivity.
  - destruct (_ >? _)%Z; reflexivity.
Qed.

Lemma processFile_calls n st filePath :
  exists rest,
    fsCalls (fst (processFile h config params n st filePath)) =
      fsCalls st ++ Stat filePath :: rest /\
    statted rest = [] /\
    (reads rest = [] \/ reads rest = [filePath]).
Proof.
  unfold processFile. destruct (stat h filePath) as [message|size].
  { exists []. cbn. auto. }
  destruct (size >? fileSizeLimit config)%Z.
  { exists []. cbn. auto. }
  destruct (isAsset _ && negb _).
  { exists [DetectFileType filePath]. cbn. rewrite <- app_assoc. auto. }
  exists [DetectFileType filePath; ProcessSingleFileContent filePath].
  destruct (truthy _).
  - cbn. rewrite <- !app_assoc. auto.
  - rewrite addContent_calls. cbn. rewrite <- !app_assoc. auto.
Qed.

Lemma fileLoop_calls n files : forall st,
  exists cs,
    fsCalls (fileLoop h config params n files st) = fsCalls st ++ cs /\
    subsequence (statted cs) files /\
    subsequence (reads cs) (statted cs).
Proof.
  induction files as [|filePath files IH]; intros st; cbn [fileLoop].
  { exists []. rewrite app_nil_r. repeat split; constructor. }
  destruct (processFile_calls n st filePath) as (rest & Hcalls & Hst & Hreads).
  destruct (processFile h config params n st filePath) as [st' nx]. cbn [fst] in Hcalls.
  assert (Hone : subsequence (reads (Stat filePath :: rest)) [filePath]).
  { change (reads (Stat filePath :: rest)) with (reads rest).
    destruct Hreads as [-> | ->]; repeat constructor. }
  destruct nx.
  - destruct (IH st') as (cs & Hcs & Hsub & Hsub').
    exists (Stat filePath :: rest ++ cs). rewrite Hcs, Hcalls, <- app_assoc.
    split; [reflexivity|].
    change (Stat filePath :: rest ++ cs) with ((Stat filePath :: rest) ++ cs).
    rewrite statted_app, reads_app.
    change (statted (Stat filePath :: rest)) with (filePath :: statted rest).
    rewrite Hst. cbn [app]. split.
    + now constructor.
    + apply (subsequence_app _ [filePath] _ _ Hone Hsub').
  - exists (Stat filePath :: rest). split; [assumption|].
    change (statted (Stat filePath :: rest)) with (filePath :: statted rest).
    rewrite Hst. split.
    + constructor. apply subsequence_nil_l.
    + exact Hone.
Qed.

End Facts.

End ReadManyFilesCalls.

Module ReadManyFilesBudgetFacts.

Import Js JsFacts StringFacts ReadManyFiles ReadManyFilesDesign ReadManyFilesAccounting.

Lemma totalCost_app a b : totalCost (a ++ b) = (totalCost a + totalCost b)%Z.
Proof. induction a as [|x a IH]; cbn; [reflexivity|]. fold (totalCost (a ++ b)) (totalCost a). lia. Qed.

Lemma strlen_append a b : strlen (a +:+ b) = (strlen a + strlen b)%Z.
Proof. unfold strlen. rewrite append_length. lia. Qed.

(** A truncated block costs its share of the budget and the 40
    characters of the marker. *)
Lemma truncated_cost remainingTokens block :
  (0 <= remainingTokens)%Z ->
  (costOf (FileUtils.Text (substring0 (remainingTokens * 4) block +:+ truncationMarker))
   <= remainingTokens + 10)%Z.
Proof.
  intros Hrem. cbn [costOf]. unfold estimateTokens. rewrite strlen_append.
  change (strlen truncationMarker) with 40%Z.
  assert (strlen (substring0 (remainingTokens * 4) block) <= remainingTokens * 4)%Z.
  { unfold strlen, substring0. rewrite substring0_length. lia. }
  enough ((strlen (substring0 (remainingTokens * 4) block) + 40 + 3) / 4
          < remainingTokens + 11)%Z by lia.
  apply Z.div_lt_upper_bound; lia.
Qed.

Section Facts.
Variable h : Host.
Variable config : Config.
Variable params : ReadManyFilesParams.

Hypothesis budget : (0 <= maxTokens config)%Z.

Lemma addContent_budget n st filePath rel r st' nx :
  (totalTokens st <= maxTokens config)%Z ->
  totalCost (contentParts st) = totalTokens st ->
  addContent config n st filePath rel r = (st', nx) ->
  (totalTokens st' <= maxTokens config)%Z /\
  match nx with
  | Continue => totalCost (contentParts st') = totalTokens st'
  | Break =>
      (totalCost (contentParts st') <= maxTokens config + 10)%Z /\
      (truncateMode config <> Truncate ->
       (totalCost (contentParts st') <= maxTokens config)%Z)
  end.
Proof.
  intros Hle Hcost. unfold addContent.
  destruct (FileUtils.llmContent r) as [text|part].
  - destruct (_ >? _)%Z eqn:Hover.
    + destruct (truncateMode config) eqn:Hmode.
      * intros [= <- <-]. cbn [skip accept called totalTokens contentParts]. split; [assumption|]. split; [lia|]. intros _. lia.
      * destruct (_ >? 100)%Z eqn:Hroom.
        -- intros [= <- <-]. cbn [skip accept totalTokens contentParts].
           split; [assumption|]. rewrite totalCost_app. cbn [totalCost fold_right].
           split; [|congruence].
           pose proof (truncated_cost (maxTokens config - totalTokens st)
                         (contentToAdd filePath r text) ltac:(lia)).
           lia.
        -- intros [= <- <-]. split; [assumption|]. split; [lia|congruence].
      * intros [= <- <-]. cbn [skip accept called totalTokens contentParts]. auto.
    + intros [= <- <-]. cbn [accept totalTokens contentParts].
      rewrite totalCost_app. cbn [totalCost fold_right costOf].
      destruct (Z.gtb_spec (totalTokens st + estimateTokens (contentToAdd filePath r text))
                  (maxTokens config)); [discriminate|]. split; lia.
  - destruct (_ >? _)%Z eqn:Hover.
    + intros [= <- <-]. cbn [skip accept called totalTokens contentParts]. auto.
    + intros [= <- <-]. cbn [accept totalTokens contentParts].
      rewrite totalCost_app. cbn [totalCost fold_right costOf].
      destruct (Z.gtb_spec (totalTokens st + 85) (maxTokens config)); [discriminate|].
      split; lia.
Qed.

Lemma processFile_budget n st filePath st' nx :
  (totalTokens st <= maxTokens config)%Z ->
  totalCost (contentParts st) = totalTokens st ->
  processFile h config params n st filePath = (st', nx) ->
  (totalTokens st' <= maxTokens config)%Z /\
  match nx with
  | Continue => totalCost (contentParts st') = totalTokens st'
  | Break =>
      (totalCost (contentParts st') <= maxTokens config + 10)%Z /\
      (truncateMode config <> Truncate ->
       (totalCost (contentParts st') <= maxTokens config)%Z)
  end.
Proof.
  intros Hle Hcost. unfold processFile.
  destruct (stat h filePath) as [message|size]; [intros [= <- <-]; cbn [skip accept called totalTokens contentParts]; auto|].
  destruct (size >? fileSizeLimit config)%Z; [intros [= <- <-]; cbn [skip accept called totalTokens contentParts]; auto|].
  destruct (isAsset _ && negb _); [intros [= <- <-]; cbn [skip accept called totalTokens contentParts]; auto|].
  destruct (truthy _); [intros [= <- <-]; cbn [skip accept called totalTokens contentParts]; auto|].
  now apply addContent_budget.
Qed.

Lemma fileLoop_budget n files : forall st,
  (totalTokens st <= maxTokens config)%Z ->
  totalCost (contentParts st) = totalTokens st ->
  (totalCost (contentParts (fileLoop h config params n files st)) <= maxTokens config + 10)%Z /\
  (truncateMode config <> Truncate ->
   (totalCost (contentParts (fileLoop h config params n files st)) <= maxTokens config)%Z).
Proof.
  induction files as [|filePath files IH]; intros st Hle Hcost; cbn [fileLoop].
  { split; [lia|intros _; lia]. }
  destruct (processFile h config params n st filePath) as [st' nx] eqn:Hp.
  apply processFile_budget in Hp as [Hle' Hnx]; [|assumption..].
  destruct nx; [now apply IH|assumption].
Qed.

End Facts.

End ReadManyFilesBudgetFacts.

Module ReadManyFilesInvariants.

Import Js JsFacts StringFacts SortFacts ReadManyFiles ReadManyFilesDesign.
Import ReadManyFilesFacts ReadManyFilesLoop ReadManyFilesAccounting SubsequenceFacts.
Import ReadManyFilesCalls ReadManyFilesBudgetFacts.
Import Fixture Worlds MoreWorlds.

(** X8.  With a token limit that is not negative, the parts that a call
    returns cost no more than the limit plus 10 tokens, where a text counts
    for its estimate and inline data for 85 tokens; the 10 tokens are the
    marker that the truncate mode appends outside of the budget, and without
    that mode the cost stays within the limit. The one part that says that
    nothing was read is not counted. *)
Theorem content_within_token_budget h config params r :
  (0 <= maxTokens config)%Z ->
  run h config params = Returns r ->
  fileParts (result r) = [FileUtils.Text nothingFound] \/
  ((totalCost (fileParts (result r)) <= maxTokens config + 10)%Z /\
   (truncateMode config <> Truncate ->
    (totalCost (fileParts (result r)) <= maxTokens config)%Z)).
Proof.
  intros Hmax. unfold run.
  destruct (validateParams h params); [intros [= <-]; right; cbn; split; [lia|intros _; lia]|].
  destruct (_ =? 0)%Z; [intros [= <-]; right; cbn; split; [lia|intros _; lia]|].
  destruct (globWorkspace _ _ _ _ _) as [message|entries];
    [intros [= <-]; right; cbn; split; [lia|intros _; lia]|].
  destruct (checkFileCount _ _ _) as [[r'|files skipped]|e|] eqn:Hc; try discriminate.
  - intros [= <-]. apply checkFileCount_warn in Hc as (-> & _). right. cbn.
    split; [lia|intros _; lia].
  - intros [= <-]. cbn [result fileParts llmContent]. unfold finalContent.
    destruct (_ =? 0)%Z; [now left|right].
    now apply fileLoop_budget.
Qed.

(** A file of 131 tokens under a limit of 101 tokens in truncate mode: the
    part returned counts for 111 tokens. *)
Lemma content_within_token_budget_witness :
  exists r,
    run long (config (settings 50 101 Truncate)) (request ["*.txt"]) = Returns r /\
    totalCost (fileParts (result r)) = 111%Z /\
    (totalCost (fileParts (result r)) <= 101 + 10)%Z.
Proof.
  eexists. split; [vm_compute; reflexivity|]. split; [vm_compute; reflexivity|].
  destruct (content_within_token_budget long (config (settings 50 101 Truncate))
              (request ["*.txt"]) _ ltac:(vm_compute; discriminate) eq_refl)
    as [Hnone|[Hle _]].
  - vm_compute in Hnone. discriminate Hnone.
  - exact Hle.
Defined.

(** X9.  The files that a call examines are files that passed the discovery,
    taken in the ascending order of their paths and each one once; the files
    it reads are among those it examined, in the same order. *)
Theorem files_examined_once_in_order h config params r :
  run h config params = Returns r ->
  subsequence (statted (calls r)) (sortedFilesOf h config params (discovered r)) /\
  subsequence (reads (calls r)) (statted (calls r)) /\
  StronglySorted before (statted (calls r)).
Proof.
  assert (Hnone : subsequence (@nil string) (sortedFilesOf h config params []) /\
                  subsequence (reads []) (statted []) /\
                  StronglySorted before (statted [])).
  { repeat split; try constructor. }
  unfold run.
  destruct (validateParams h params); [intros [= <-]; exact Hnone|].
  destruct (_ =? 0)%Z; [intros [= <-]; exact Hnone|].
  destruct (globWorkspace _ _ _ _ _) as [message|entries]; [intros [= <-]; exact Hnone|].
  destruct (checkFileCount _ _ _) as [[r'|files skipped]|e|] eqn:Hc; try discriminate.
  - intros [= <-]. cbn [calls discovered].
    repeat split; try constructor. apply subsequence_nil_l.
  - intros [= <-]. cbn [calls discovered].
    apply checkFileCount_subsequence in Hc as [Hsub _].
    destruct (fileLoop_calls h config params (len files) files (initialState skipped))
      as (cs & -> & Hst & Hrd).
    cbn [initialState fsCalls app].
    assert (Hall : subsequence (statted cs) (sortedFilesOf h config params entries))
      by (apply (subsequence_trans _ _ Hsub _ Hst)).
    repeat split; try assumption.
    apply (subsequence_sorted _ _ _ Hall), sortedFilesOf_strictly.
Qed.

Lemma files_examined_once_in_order_witness :
  exists r,
    run escaping (config defaults) (request ["*.txt"]) = Returns r /\
    discovered r = ["/ws/b.txt"; "/etc/passwd"; "/ws/a.txt"] /\
    statted (calls r) = ["/ws/a.txt"; "/ws/b.txt"] /\
    StronglySorted before (statted (calls r)).
Proof.
  eexists. split; [vm_compute; reflexivity|]. split; [reflexivity|].
  split; [reflexivity|].
  apply (files_examined_once_in_order escaping (config defaults) (request ["*.txt"]) _ eq_refl).
Defined.

(** X10.  A call examines no more files than the limit on the number of
    files allows, in each of the three modes. *)
Theorem no_more_files_than_the_limit h config params r :
  run h config params = Returns r ->
  (len (statted (calls r)) <= Z.max 0 (maxFileCount config))%Z.
Proof.
  unfold run.
  destruct (validateParams h params); [intros [= <-]; cbn; lia|].
  destruct (_ =? 0)%Z; [intros [= <-]; cbn; lia|].
  destruct (globWorkspace _ _ _ _ _) as [message|entries]; [intros [= <-]; cbn; lia|].
  destruct (checkFileCount _ _ _) as [[r'|files skipped]|e|] eqn:Hc; try discriminate.
  - intros [= <-]. cbn. lia.
  - intros [= <-]. cbn [calls].
    apply checkFileCount_subsequence in Hc as [_ Hlen].
    destruct (fileLoop_calls h config params (len files) files (initialState skipped))
      as (cs & -> & Hst & _).
    cbn [initialState fsCalls app].
    apply subsequence_length in Hst. unfold len in *. lia.
Qed.

(** Two files under a limit of one file, in truncate mode. *)
Lemma no_more_files_than_the_limit_witness :
  exists r,
    run inside (config (settings 1 50000 Truncate)) (request ["*.txt"]) = Returns r /\
    statted (calls r) = ["/ws/a.txt"] /\
    (len (statted (calls r)) <= 1)%Z.
Proof.
  eexists. split; [vm_compute; reflexivity|]. split; [vm_compute; reflexivity|].
  apply (no_more_files_than_the_limit inside (config (settings 1 50000 Truncate))
           (request ["*.txt"]) _ eq_refl).
Defined.

End ReadManyFilesInvariants.

Module ReadManyFilesDiscovery.

Import Js JsFacts StringFacts ReadManyFiles ReadManyFilesDesign.
Import ReadManyFilesFacts ReadManyFilesLoop ReadManyFilesAccounting SubsequenceFacts.
Import ReadManyFilesCalls.
Import Fixture Worlds MoreWorlds.

Section Facts.
Variable h : Host.
Variable config : Config.
Variable params : ReadManyFilesParams.

(** One turn of the loop over the entries moves exactly one of the four
    counts. *)
Lemma considerEntry_counts all d p :
  ~ In p (filesToConsider d) ->
  let d' := considerEntry h config params all d p in
  discoverySkipped d' = discoverySkipped d ++ map securityRecord (outside config [p]) /\
  (len (outside config [p]) + gitIgnoredCount d' + llxprtIgnoredCount d' +
   len (filesToConsider d') =
   gitIgnoredCount d + llxprtIgnoredCount d + len (filesToConsider d) + 1)%Z.
Proof.
  intros Hnew. unfold considerEntry, outside. cbn [filter].
  destruct (negb (isPathWithinWorkspace config p));
    [|destruct (_ && _); [|destruct (_ && _)]];
    cbn [discoverySkipped gitIgnoredCount llxprtIgnoredCount filesToConsider map];
    rewrite ?app_nil_r, ?(setAdd_new _ _ Hnew), ?len_app; unfold len; cbn [List.length];
    (split; [reflexivity|lia]).
Qed.

Lemma outside_cons p l : outside config (p :: l) = outside config [p] ++ outside config l.
Proof. unfold outside. cbn [filter]. now destruct (negb _). Qed.

Lemma fold_considerEntry_counts all l : forall d,
  NoDup l ->
  (forall p, In p l -> ~ In p (filesToConsider d)) ->
  let d' := fold_left (considerEntry h config params all) l d in
  discoverySkipped d' = discoverySkipped d ++ map securityRecord (outside config l) /\
  (len (outside config l) + gitIgnoredCount d' + llxprtIgnoredCount d' +
   len (filesToConsider d') =
   gitIgnoredCount d + llxprtIgnoredCount d + len (filesToConsider d) + len l)%Z.
Proof.
  induction l as [|p l IH]; intros d Hnd Hnew; cbn [fold_left].
  { cbn [outside filter map]. rewrite app_nil_r. unfold len. cbn [List.length].
    split; [reflexivity|lia]. }
  inversion Hnd as [|? ? Hp Hnd']; subst.
  destruct (considerEntry_counts all d p (Hnew p (or_introl eq_refl))) as [Hs Hc].
  destruct (IH (considerEntry h config params all d p) Hnd') as [Hs' Hc'].
  { intros q Hq Hin. apply considerEntry_files in Hin as [Hin|[-> _]].
    - now apply (Hnew q (or_intror Hq)).
    - contradiction. }
  cbn zeta in *. rewrite outside_cons. split.
  - rewrite Hs', Hs, <- app_assoc, <- map_app. reflexivity.
  - rewrite len_app. unfold len in *. cbn [List.length] in *. lia.
Qed.

(** The loop over the workspace directories ends at the first directory
    in which [glob] throws. *)
Lemma globWorkspace_fails before dir after message : forall acc,
  (forall d, In d before ->
     exists found,
       glob h (map backslashesToSlashes (searchPatterns params))
         (effectiveExcludes h config params) d = inr found) ->
  glob h (map backslashesToSlashes (searchPatterns params))
    (effectiveExcludes h config params) dir = inl message ->
  globWorkspace h config params (before ++ dir :: after) acc = inl message.
Proof.
  induction before as [|d before IH]; intros acc Hbefore Hdir; cbn [app globWorkspace].
  - now rewrite Hdir.
  - destruct (Hbefore d (or_introl eq_refl)) as [found ->].
    apply IH; [|assumption]. intros d' Hd'. apply Hbefore. now right.
Qed.

End Facts.

(** X11.  Every entry that [glob] produced is accounted for once: it is
    logged as lying outside the workspace, counted as ignored by git,
    counted as ignored by [.llxprtignore], or kept for reading. *)
Theorem every_entry_is_accounted_for h config params entries :
  globWorkspace h config params (getDirectories config) [] = inr entries ->
  let d := considerEntries h config params entries in
  discoverySkipped d = map securityRecord (outside config entries) /\
  (len entries =
   len (outside config entries) + gitIgnoredCount d + llxprtIgnoredCount d +
   len (filesToConsider d))%Z.
Proof.
  intros Hglob d.
  assert (Hnd : NoDup entries).
  { apply (ReadManyFilesOrder.globWorkspace_NoDup _ _ _ _ _ _ (NoDup_nil _) Hglob). }
  destruct (fold_considerEntry_counts h config params entries entries
              (emptyDiscovery) Hnd (fun _ _ H => H)) as [Hs Hc].
  split; [exact Hs|]. cbn zeta in Hc. cbn [emptyDiscovery gitIgnoredCount llxprtIgnoredCount filesToConsider] in Hc.
  unfold d, considerEntries. unfold len in *. cbn [List.length] in Hc. lia.
Qed.

(** Of the three entries of the world [escaping], with [b.txt] ignored by
    git: one lies outside, one is ignored, one is kept. *)
Lemma every_entry_is_accounted_for_witness :
  exists d,
    d = considerEntries escaping (ignoring defaults) (request ["*.txt"])
          ["/ws/b.txt"; "/etc/passwd"; "/ws/a.txt"] /\
    discoverySkipped d = [securityRecord "/etc/passwd"] /\
    gitIgnoredCount d = 1%Z /\ llxprtIgnoredCount d = 0%Z /\
    filesToConsider d = ["/ws/a.txt"] /\
    (3 = 1 + gitIgnoredCount d + llxprtIgnoredCount d + len (filesToConsider d))%Z.
Proof.
  eexists. split; [reflexivity|].
  repeat (split; [vm_compute; reflexivity|]).
  apply (every_entry_is_accounted_for escaping (ignoring defaults) (request ["*.txt"])
           ["/ws/b.txt"; "/etc/passwd"; "/ws/a.txt"] eq_refl).
Defined.

(** X12.  Every file system call of [execute] is on a file that the ignore
    filters let through, where they are respected: a file that git or
    [.llxprtignore] ignores is neither examined nor read. *)
Theorem ignored_files_never_read h config params r :
  run h config params = Returns r ->
  Forall
    (fun c =>
       (respectGitIgnore (fileFilteringOptions h config params) = true ->
        In (calledOn c) (gitFilteredEntries h config params (discovered r))) /\
       (respectLlxprtIgnore (fileFilteringOptions h config params) = true ->
        In (calledOn c) (finalFilteredEntries h config params (discovered r))))
    (calls r).
Proof.
  unfold run.
  destruct (validateParams h params); [intros [= <-]; constructor|].
  destruct (_ =? 0)%Z; [intros [= <-]; constructor|].
  destruct (globWorkspace _ _ _ _ _) as [message|entries]; [intros [= <-]; constructor|].
  destruct (checkFileCount _ _ _) as [[r'|files skipped]|e|] eqn:Hc; try discriminate;
    intros [= <-]; [constructor|].
  cbn [calls discovered]. apply Forall_forall. intros c Hin.
  apply checkFileCount_grows in Hc as [Hfiles _].
  destruct (fileLoop_grows h config params (len files) files (initialState skipped))
    as (_ & Hcalls & _).
  apply Hcalls in Hin as [[]|Hin].
  apply Hfiles, sortedFilesOf_In in Hin as [_ Hkept].
  unfold kept in Hkept. apply andb_true_iff in Hkept as [Hkept Hllxprt].
  apply andb_true_iff in Hkept as [_ Hgit].
  split; intros Hon; rewrite Hon in *; cbn in *; now apply arrayIncludes_In.
Qed.

(** With [b.txt] ignored by git, the call examines [/ws/a.txt] only. *)
Lemma ignored_files_never_read_witness :
  exists r,
    run inside (ignoring defaults) (request ["*.txt"]) = Returns r /\
    discovered r = ["/ws/b.txt"; "/ws/a.txt"] /\
    gitFilteredEntries inside (ignoring defaults) (request ["*.txt"]) (discovered r)
      = ["/ws/a.txt"] /\
    Forall (fun c => calledOn c = "/ws/a.txt") (calls r).
Proof.
  eexists. split; [vm_compute; reflexivity|]. split; [reflexivity|].
  split; [vm_compute; reflexivity|].
  eapply Forall_impl;
    [|exact (ignored_files_never_read inside (ignoring defaults) (request ["*.txt"]) _
               eq_refl)].
  intros c [Hgit _]. specialize (Hgit eq_refl). vm_compute in Hgit.
  destruct Hgit as [Heq|[]]. now symmetry.
Defined.

(** X13.  When [glob] throws in a workspace directory after it has answered
    in the directories before, the call returns the error of this directory,
    the first one in which [glob] throws, in place of any content: what was
    found in the directories before is dropped, the directories after are
    not searched, and no file is touched. *)
Theorem search_error_is_reported h config params before dir after message :
  validateParams h params = None ->
  searchPatterns params <> [] ->
  getDirectories config = before ++ dir :: after ->
  (forall d, In d before ->
     exists found,
       glob h (map backslashesToSlashes (searchPatterns params))
         (effectiveExcludes h config params) d = inr found) ->
  glob h (map backslashesToSlashes (searchPatterns params))
    (effectiveExcludes h config params) dir = inl message ->
  run h config params =
    Returns
      {| result :=
           {| llmContent := Message ("Error during file search: " +:+ message);
              returnDisplay :=
                "## File Search Error" +:+ nl +:+ nl +:+
                "An error occurred while searching for files:" +:+ nl +:+
                "```" +:+ nl +:+ message +:+ nl +:+ "```" |};
         discovered := []; skipLog := []; calls := [] |}.
Proof.
  intros Hvalid Hpatterns Hdirs Hbefore Hdir.
  unfold run. rewrite Hvalid, Hdirs.
  rewrite (globWorkspace_fails h config params before dir after message [] Hbefore Hdir).
  destruct (searchPatterns params) as [|p ps] eqn:Hp; [contradiction|]. reflexivity.
Qed.

(** In the world [failing] the search of [/ws] finds a file and the search
    of [/lib] throws: the call returns the error and nothing of [/ws]. *)
Lemma search_error_is_reported_witness :
  glob failing ["*.txt"] (effectiveExcludes failing threeRoots (request ["*.txt"])) "/ws"
    = inr ["/ws/a.txt"] /\
  exists r,
    run failing threeRoots (request ["*.txt"]) = Returns r /\
    llmContent (result r) = Message "Error during file search: This operation was aborted" /\
    discovered r = [] /\
    calls r = [].
Proof.
  split; [reflexivity|]. eexists. split.
  - apply (search_error_is_reported failing threeRoots (request ["*.txt"])
             ["/ws"] "/lib" ["/doc"] "This operation was aborted"
             eq_refl ltac:(discriminate) eq_refl).
    + intros d [<-|[]]. eexists. reflexivity.
    + reflexivity.
  - repeat split.
Defined.

End ReadManyFilesDiscovery.

Module ReadManyFilesSampleMode.

Import Js JsFacts StringFacts ReadManyFiles ReadManyFilesDesign.
Import ReadManyFilesFacts ReadManyFilesLoop ReadManyFilesAccounting SubsequenceFacts.
Import ReadManyFilesCalls.
Import Fixture Worlds MoreWorlds.

Section Facts.
Variable h : Host.
Variable config : Config.
Variable params : ReadManyFilesParams.

Hypothesis sample_mode : truncateMode config = Sample.

(** In sample mode a successful read goes on to the next file, with one
    path more among the processed ones or one record more in the log. *)
Lemma addContent_sample n st filePath rel r :
  snd (addContent config n st filePath rel r) = Continue /\
  (len (processedFilesRelativePaths (fst (addContent config n st filePath rel r))) +
   len (skippedFiles (fst (addContent config n st filePath rel r))) =
   len (processedFilesRelativePaths st) + len (skippedFiles st) + 1)%Z.
Proof.
  unfold addContent. rewrite sample_mode.
  destruct (FileUtils.llmContent r); destruct (_ >? _)%Z;
    cbn [fst snd skip accept processedFilesRelativePaths skippedFiles];
    rewrite len_app; unfold len; cbn [List.length]; (split; [reflexivity|lia]).
Qed.

Lemma processFile_sample n st filePath :
  snd (processFile h config params n st filePath) = Continue /\
  (len (processedFilesRelativePaths (fst (processFile h config params n st filePath))) +
   len (skippedFiles (fst (processFile h config params n st filePath))) =
   len (processedFilesRelativePaths st) + len (skippedFiles st) + 1)%Z.
Proof.
  unfold processFile.
  destruct (stat h filePath) as [message|size];
    [|destruct (size >? fileSizeLimit config)%Z;
      [|destruct (isAsset _ && negb _); [|destruct (truthy _)]]];
    try (cbn [fst snd skip called processedFilesRelativePaths skippedFiles];
         rewrite len_app; unfold len; cbn [List.length]; split; [reflexivity|lia]).
  exact (addContent_sample n
           (called (called (called st (Stat filePath)) (DetectFileType filePath))
              (ProcessSingleFileContent filePath)) _ _ _).
Qed.

End Facts.

(** X14.  In sample mode the loop over the files never stops early: it
    examines every file, and every file ends either among the processed ones
    or with one record of its own in the skip log. *)
Theorem sample_mode_accounts_for_every_file h config params n files st :
  truncateMode config = Sample ->
  let st' := fileLoop h config params n files st in
  statted (fsCalls st') = statted (fsCalls st) ++ files /\
  (len (processedFilesRelativePaths st') + len (skippedFiles st') =
   len (processedFilesRelativePaths st) + len (skippedFiles st) + len files)%Z.
Proof.
  intros Hmode. revert st.
  induction files as [|filePath files IH]; intros st; cbn [fileLoop].
  { rewrite app_nil_r. unfold len. cbn [List.length]. split; [reflexivity|lia]. }
  destruct (processFile_sample h config params Hmode n st filePath) as [Hnext Hcount].
  destruct (processFile_calls h config params n st filePath) as (rest & Hcalls & Hst & _).
  destruct (processFile h config params n st filePath) as [st1 nx].
  cbn [fst snd] in *. subst nx. destruct (IH st1) as [Hs Hc]. cbn zeta. split.
  - rewrite Hs, Hcalls, statted_app.
    change (statted (Stat filePath :: rest)) with (filePath :: statted rest).
    rewrite Hst, <- app_assoc. reflexivity.
  - unfold len in *. cbn [List.length]. lia.
Qed.

(** Three files under a limit of 140 tokens: two are processed, one is
    skipped. *)
Lemma sample_mode_accounts_for_every_file_witness :
  exists st',
    st' = fileLoop crowded (config (settings 50 140 Sample)) (request ["*.txt"]) 3
            ["/ws/long.txt"; "/ws/mid.txt"; "/ws/z.txt"] (initialState []) /\
    processedFilesRelativePaths st' = ["long.txt"; "z.txt"] /\
    statted (fsCalls st') = ["/ws/long.txt"; "/ws/mid.txt"; "/ws/z.txt"] /\
    (len (processedFilesRelativePaths st') + len (skippedFiles st') = 3)%Z.
Proof.
  eexists. split; [reflexivity|]. split; [vm_compute; reflexivity|].
  apply (sample_mode_accounts_for_every_file crowded (config (settings 50 140 Sample))
           (request ["*.txt"]) 3 ["/ws/long.txt"; "/ws/mid.txt"; "/ws/z.txt"]
           (initialState []) eq_refl).
Defined.

End ReadManyFilesSampleMode.

Module ReadManyFilesEdges.

Import Js JsFacts StringFacts ReadManyFiles ReadManyFilesDesign.
Import Fixture Worlds MoreWorlds.

Lemma includes_empty s : includes s "" = true.
Proof. destruct s; reflexivity. Qed.

(** X15.  The header of a file's block shows the path of the file as it is
    when the path holds no dollar sign. *)
Theorem separator_shows_path_verbatim filePath :
  includes filePath "$" = false ->
  separatorFor filePath = "--- " +:+ filePath +:+ " ---".
Proof.
  intros Hplain. unfold separatorFor. do 2 f_equal.
  induction filePath as [|c r IH]; [reflexivity|].
  cbn [includes String.prefix expandReplacement] in *.
  destruct (Ascii.ascii_dec "$" c) as [<-|Hc]; cbn [orb] in Hplain;
    [destruct r; discriminate Hplain|].
  destruct (Ascii.eqb c "$") eqn:E; [apply Ascii.eqb_eq in E; congruence|].
  now rewrite IH.
Qed.

Lemma separator_shows_path_verbatim_witness :
  separatorFor "/ws/src/a b.txt" = "--- /ws/src/a b.txt ---".
Proof. exact (separator_shows_path_verbatim "/ws/src/a b.txt" eq_refl). Defined.

(** A path with a dollar sign is read as a replacement pattern:
    [$&] stands for the placeholder and [$$] for one dollar sign. *)
Example separator_expands_dollar_patterns :
  separatorFor "/ws/cost$&.txt" = "--- /ws/cost{filePath}.txt ---" /\
  separatorFor "/ws/$$HOME.txt" = "--- /ws/$HOME.txt ---".
Proof. split; reflexivity. Qed.

(** X16.  An image or PDF file whose name has no extension counts as
    requested explicitly as soon as [paths] holds a pattern, whatever the
    patterns are: the empty extension occurs in every pattern. *)
Theorem asset_without_extension_is_requested params filePath :
  paths params <> [] ->
  Path.extname filePath = "" ->
  requestedExplicitly params filePath = true.
Proof.
  intros Hpaths Hext. unfold requestedExplicitly, inputPatterns. rewrite Hext.
  destruct (paths params) as [|pattern rest]; [contradiction|].
  cbn [existsb toLowerCase]. now rewrite includes_empty.
Qed.

Lemma asset_without_extension_is_requested_witness :
  Path.extname "/ws/scans/page1" = "" /\
  requestedExplicitly (request ["docs/*.md"]) "/ws/scans/page1" = true.
Proof.
  split; [reflexivity|].
  apply (asset_without_extension_is_requested (request ["docs/*.md"]) "/ws/scans/page1");
    [discriminate|reflexivity].
Defined.

End ReadManyFilesEdges.

Module ReadManyFilesDescriptionFacts.

Import Js JsFacts StringFacts ReadManyFiles ReadManyFilesDesign ReadManyFilesDescription.
Import Fixture Worlds MoreWorlds.

Lemma filter_all {A} (f : A -> bool) l :
  (forall x, In x l -> f x = true) -> filter f l = l.
Proof.
  induction l as [|x l IH]; intros Hall; cbn; [reflexivity|].
  rewrite (Hall x (or_introl eq_refl)), IH; [reflexivity|].
  intros y Hy. apply Hall. now right.
Qed.

Section Facts.
Variable h : Host.
Variable config : Config.
Variable params : ReadManyFilesParams.

Lemma finalExclusionPatterns_effective :
  finalExclusionPatternsForDescription h config params = effectiveExcludes h config params.
Proof.
  unfold finalExclusionPatternsForDescription, paramUseDefaultExcludes, paramExcludes,
    effectiveExcludes.
  destruct (useDefaultExcludes params) as [[|]|]; reflexivity.
Qed.

Lemma llxprtPatternsInEffect_all :
  llxprtPatternsInEffect h config params = len (getLlxprtIgnorePatterns config).
Proof.
  unfold llxprtPatternsInEffect. f_equal. apply filter_all.
  intros p Hp. apply arrayIncludes_In.
  unfold finalExclusionPatternsForDescription.
  destruct (paramUseDefaultExcludes params); rewrite !in_app_iff; auto.
Qed.

End Facts.

(** X17.  The exclusion patterns that [getDescription] describes are those
    that [execute] hands to [glob], and every pattern of [.llxprtignore] is
    among them: the number in the note on [.llxprtignore] is the number of
    all these patterns, repeated ones counted as often as they occur. *)
Theorem description_excludes_are_those_of_execute h config params :
  finalExclusionPatternsForDescription h config params = effectiveExcludes h config params /\
  llxprtPatternsInEffect h config params = len (getLlxprtIgnorePatterns config).
Proof.
  split; [apply finalExclusionPatterns_effective|apply llxprtPatternsInEffect_all].
Qed.

(** X18.  While the default exclusions are in use, the description names the
    first two of them and nothing else: the exclude patterns of the request
    are excluded but never shown. *)
Theorem description_hides_custom_excludes h config params :
  useDefaultExcludes params <> Some false ->
  excludeDesc h config params =
    "Excluding: patterns like `**/node_modules/**`, `**/.git/**...`" +:+
    (if (len (getLlxprtIgnorePatterns config) >? 0)%Z
     then " (includes " +:+ numberToString (len (getLlxprtIgnorePatterns config)) +:+
          " from .llxprtignore)"
     else "").
Proof.
  intros Hdefaults. unfold excludeDesc.
  rewrite llxprtPatternsInEffect_all, andb_diag.
  assert (Hfinal : exists rest,
            finalExclusionPatternsForDescription h config params =
            "**/node_modules/**" :: "**/.git/**" :: "**/.vscode/**" :: rest).
  { unfold finalExclusionPatternsForDescription, paramUseDefaultExcludes.
    destruct (useDefaultExcludes params) as [[|]|]; try congruence; eexists; reflexivity. }
  destruct Hfinal as [rest ->].
  assert (Hlen : (len ("**/node_modules/**" :: "**/.git/**" :: "**/.vscode/**" :: rest) > 2)%Z)
    by (unfold len; cbn [List.length]; lia).
  destruct (Z.gtb_spec (len ("**/node_modules/**" :: "**/.git/**" :: "**/.vscode/**" :: rest)) 0);
    [|lia].
  destruct (Z.gtb_spec (len ("**/node_modules/**" :: "**/.git/**" :: "**/.vscode/**" :: rest)) 2);
    [|lia].
  cbn [firstn String.concat String.append]. reflexivity.
Qed.

Lemma description_hides_custom_excludes_witness :
  effectiveExcludes inside withIgnoreFile (excluding None) =
    DEFAULT_EXCLUDES inside ++ ["**/*.test.ts"] ++ ["*.log"; "tmp/"; "*.log"] /\
  excludeDesc inside withIgnoreFile (excluding None) =
    "Excluding: patterns like `**/node_modules/**`, `**/.git/**...` (includes 3 from .llxprtignore)".
Proof.
  split; [reflexivity|].
  exact (description_hides_custom_excludes inside withIgnoreFile (excluding None)
           ltac:(discriminate)).
Defined.

(** The description of a request, with and without the default
    exclusions. *)
Example description_of_a_request :
  getDescription "utf-8" inside withIgnoreFile (excluding None) =
    "Will attempt to read and concatenate files using patterns: `src/**/*.ts`, `*.md` (within target directory: `/ws`). Excluding: patterns like `**/node_modules/**`, `**/.git/**...` (includes 3 from .llxprtignore). File encoding: utf-8. Separator: "
    +:+ quote +:+ "--- path/to/file.ext ---" +:+ quote +:+ "." /\
  excludeDesc inside withIgnoreFile (excluding (Some false)) =
    "Excluding: patterns like `**/*.test.ts`, `*.log...` (includes 3 from .llxprtignore)" /\
  excludeDesc inside (config defaults) (request ["*.txt"]) =
    "Excluding: patterns like `**/node_modules/**`, `**/.git/**...`" /\
  excludeDesc inside (config defaults)
    {| paths := ["*.txt"]; include := None; exclude := None; recursive := None;
       useDefaultExcludes := Some false; file_filtering_options := None |} =
    "Excluding: none specified".
Proof. repeat split; vm_compute; reflexivity. Qed.

End ReadManyFilesDescriptionFacts.

Module MemoryDiscoveryConcatenation.

Import Js JsFacts MemoryDiscovery MemoryDiscoveryDesign MemoryDiscoveryFacts.
Import MemoryDiscoveryAccounting.
Import Fixture Worlds.

Lemma keepSome_app {A} (a b : list (option A)) : keepSome (a ++ b) = keepSome a ++ keepSome b.
Proof.
  induction a as [|[x|] a IH]; cbn; [reflexivity| |assumption]. now rewrite IH.
Qed.

Section Facts.
Variable h : Host.

Lemma instructionBlock_blank cwd item :
  instructionBlock h cwd item = None <-> blankItem item = true.
Proof.
  unfold instructionBlock, blankItem. destruct (content item) as [text|]; [|tauto].
  destruct (_ =? 0)%nat; split; congruence.
Qed.

(** A block starts with the dashes of its first line. *)
Lemma instructionBlock_starts cwd item block :
  instructionBlock h cwd item = Some block -> exists rest, block = String "-" rest.
Proof.
  unfold instructionBlock. destruct (content item) as [text|]; [|discriminate].
  destruct (_ =? 0)%nat; [discriminate|]. intros [= <-]. eexists. reflexivity.
Qed.

Lemma concat_starts sep c rest l :
  exists rest', String.concat sep (String c rest :: l) = String c rest'.
Proof. destruct l; cbn; eexists; reflexivity. Qed.

End Facts.

(** X19.  An item that could not be read, or that holds white space only,
    leaves no trace in the document: the other blocks are joined as if the
    item were not there. *)
Theorem blank_items_contribute_nothing h before item after cwd :
  blankItem item = true ->
  concatenateInstructions h (before ++ item :: after) cwd =
  concatenateInstructions h (before ++ after) cwd.
Proof.
  intros Hblank. unfold concatenateInstructions.
  rewrite !map_app, !keepSome_app. cbn [map keepSome].
  apply (instructionBlock_blank h cwd) in Hblank. now rewrite Hblank.
Qed.

(** A file of white space between two files with content. *)
Lemma blank_items_contribute_nothing_witness :
  concatenateInstructions project
    [ {| filePath := "/r/p/LLXPRT.md"; content := Some "project" |};
      {| filePath := "/r/p/a/LLXPRT.md"; content := Some "  " |};
      {| filePath := "notes.md"; content := Some (" here" +:+ nl) |} ] "/r/p" =
  "--- Context from: LLXPRT.md ---" +:+ nl +:+ "project" +:+ nl +:+
  "--- End of Context from: LLXPRT.md ---" +:+ nl +:+ nl +:+
  "--- Context from: notes.md ---" +:+ nl +:+ "here" +:+ nl +:+
  "--- End of Context from: notes.md ---".
Proof.
  etransitivity;
    [exact (blank_items_contribute_nothing project
              [ {| filePath := "/r/p/LLXPRT.md"; content := Some "project" |} ]
              {| filePath := "/r/p/a/LLXPRT.md"; content := Some "  " |}
              [ {| filePath := "notes.md"; content := Some (" here" +:+ nl) |} ]
              "/r/p" eq_refl)|].
  vm_compute. reflexivity.
Defined.

(** X20.  The document is empty exactly when no item has content other than
    white space. *)
Theorem memory_is_empty_iff_all_blank h items cwd :
  concatenateInstructions h items cwd = "" <-> forallb blankItem items = true.
Proof.
  unfold concatenateInstructions. induction items as [|item items IH]; [cbn; tauto|].
  cbn [map keepSome forallb].
  destruct (instructionBlock h cwd item) as [block|] eqn:Hblock.
  - assert (Hnot : blankItem item = false).
    { destruct (blankItem item) eqn:E; [|reflexivity].
      apply (instructionBlock_blank h cwd) in E. congruence. }
    rewrite Hnot. cbn [andb].
    apply instructionBlock_starts in Hblock as [rest ->].
    destruct (concat_starts (nl +:+ nl) "-" rest
                (keepSome (map (instructionBlock h cwd) items))) as [rest' ->].
    split; discriminate.
  - apply instructionBlock_blank in Hblock. rewrite Hblock. exact IH.
Qed.

End MemoryDiscoveryConcatenation.

Module MemoryDiscoveryDirectories.

Import Js JsFacts MemoryDiscovery MemoryDiscoveryDesign MemoryDiscoveryFacts.
Import MemoryDiscoveryAccounting.
Import Fixture Worlds.

Section Facts.
Variable h : Host.

Lemma forEachDir_spec home debug ext opts maxDirs dirs : forall paths,
  forEachDir h dirs home debug ext opts maxDirs paths =
    Some (paths ++ flat_map (pathsOfDir h home opts maxDirs ext) dirs).
Proof.
  induction dirs as [|dir dirs IH]; intros paths; cbn [forEachDir flat_map].
  - now rewrite app_nil_r.
  - rewrite getContextFilePathsInternalForEachDir_spec, IH, <- app_assoc. reflexivity.
Qed.

Lemma dedup_last l x : In x (dedup (l ++ [x])).
Proof. apply MemoryDiscoverySpec.dedup_In, in_app_iff. right. now left. Qed.

End Facts.

(** X21.  The paths of a call are those of each directory in turn, the
    include directories first and the working directory last, a directory
    named twice searched once and a path found twice listed once, at its
    first place. *)
Theorem context_paths_directory_by_directory h cwd include home debug ext opts maxDirs :
  getContextFilePathsInternal h cwd include home debug ext opts maxDirs =
    Some (dedup (flat_map (pathsOfDir h home opts maxDirs ext) (dedup (include ++ [cwd])))).
Proof.
  unfold getContextFilePathsInternal.
  rewrite forEachDir_spec, !setAddAll_from_empty. reflexivity.
Qed.

(** X22.  The extension paths are part of the result of every call, whether
    the files exist or not. *)
Theorem extension_paths_are_always_listed h cwd include home debug ext opts maxDirs p :
  In p ext ->
  exists filePaths,
    getContextFilePathsInternal h cwd include home debug ext opts maxDirs = Some filePaths /\
    In p filePaths.
Proof.
  intros Hin. unfold getContextFilePathsInternal.
  rewrite forEachDir_spec, !setAddAll_from_empty. eexists. split; [reflexivity|].
  apply MemoryDiscoverySpec.dedup_In, in_flat_map. exists cwd. split.
  - apply dedup_last.
  - unfold pathsOfDir. apply MemoryDiscoverySpec.dedup_In, in_app_iff. now right.
Qed.

Lemma extension_paths_are_always_listed_witness :
  access project "/ext/E.md" = false /\
  exists filePaths,
    getContextFilePathsInternal project "/r/p" [] "/home/u" false ["/ext/E.md"] anyOptions 200
      = Some filePaths /\
    In "/ext/E.md" filePaths.
Proof.
  split; [reflexivity|].
  apply (extension_paths_are_always_listed project "/r/p" [] "/home/u" false ["/ext/E.md"]
           anyOptions 200 "/ext/E.md").
  now left.
Defined.

(** X23.  Without a directory to start from (the empty path), neither scan
    runs: the result is the readable global files and the extension paths. *)
Theorem no_directory_no_scan h home opts maxDirs ext :
  getContextFilePathsInternalForEachDir h "" home opts maxDirs ext =
    Some (dedup (globalPaths h home ++ ext)).
Proof.
  rewrite getContextFilePathsInternalForEachDir_spec. do 3 f_equal.
  unfold globalPaths, pathsFor. cbn [String.eqb].
  induction (getAllContextFilenames h) as [|name names IH]; cbn [flat_map map filter];
    [reflexivity|].
  rewrite IH, app_nil_r. now destruct (access h _).
Qed.

End MemoryDiscoveryDirectories.

Module TrimFacts.

Import Js StringFacts.

Lemma append_assoc a b c : (a +:+ b) +:+ c = a +:+ b +:+ c.
Proof. induction a as [|x a IH]; cbn; [reflexivity|]. now rewrite IH. Qed.

Lemma list_of_append a b :
  list_ascii_of_string (a +:+ b) = list_ascii_of_string a ++ list_ascii_of_string b.
Proof. induction a as [|x a IH]; cbn; [reflexivity|]. now rewrite IH. Qed.

Lemma prefix_append m b : String.prefix m (m +:+ b) = true.
Proof.
  induction m as [|x m IH]; [destruct b; reflexivity|]. cbn.
  destruct (Ascii.ascii_dec x x); [assumption|congruence].
Qed.

Lemma includes_middle a m b : includes (a +:+ m +:+ b) m = true.
Proof.
  induction a as [|x a IH].
  - cbn [String.append]. destruct (m +:+ b) eqn:E; cbn [includes];
      rewrite <- E, prefix_append; reflexivity.
  - cbn [String.append includes]. rewrite IH. apply orb_true_r.
Qed.

(** [dropWhile] stops at the latest at an item that fails the test. *)
Lemma dropWhile_stops {A} (f : A -> bool) x rest : forall pre,
  f x = false -> exists pre', dropWhile f (pre ++ x :: rest) = pre' ++ x :: rest.
Proof.
  intros pre Hx. induction pre as [|y pre [pre' IH]]; cbn [app dropWhile].
  - exists []. now rewrite Hx.
  - destruct (f y); [exists pre'; assumption|exists (y :: pre); reflexivity].
Qed.

(** [trim] keeps what lies between two characters that are not white
    space. *)
Lemma trim_keeps a m b first last :
  (exists m', list_ascii_of_string m = first :: m') ->
  (exists m', rev (list_ascii_of_string m) = last :: m') ->
  isWhiteSpace first = false ->
  isWhiteSpace last = false ->
  exists a' b', trim (a +:+ m +:+ b) = a' +:+ m +:+ b'.
Proof.
  intros [m1 Hfirst] [m2 Hlast] Hf Hl. unfold trim.
  rewrite !list_of_append, Hfirst. cbn [app].
  destruct (dropWhile_stops isWhiteSpace first (m1 ++ list_ascii_of_string b)
              (list_ascii_of_string a) Hf) as [a' ->].
  change (first :: m1 ++ list_ascii_of_string b)
    with ((first :: m1) ++ list_ascii_of_string b).
  rewrite <- Hfirst, !rev_app_distr, Hlast. cbn [app]. rewrite <- app_assoc. cbn [app].
  destruct (dropWhile_stops isWhiteSpace last (m2 ++ rev a')
              (rev (list_ascii_of_string b)) Hl) as [b' ->].
  exists (string_of_list_ascii a'), (string_of_list_ascii (rev b')).
  change (last :: m2 ++ rev a') with ((last :: m2) ++ rev a').
  rewrite <- Hlast, !rev_app_distr, !rev_involutive, <- app_assoc, !string_of_app.
  now rewrite string_of_list_ascii_of_string.
Qed.

Lemma includes_trim a m b first last :
  (exists m', list_ascii_of_string m = first :: m') ->
  (exists m', rev (list_ascii_of_string m) = last :: m') ->
  isWhiteSpace first = false ->
  isWhiteSpace last = false ->
  includes (trim (a +:+ m +:+ b)) m = true.
Proof.
  intros H1 H2 H3 H4.
  destruct (trim_keeps a m b first last H1 H2 H3 H4) as (a' & b' & ->).
  apply includes_middle.
Qed.

End TrimFacts.

Module ReadManyFilesSummary.

Import Js JsFacts StringFacts TrimFacts ReadManyFiles ReadManyFilesDesign.
Import ReadManyFilesFacts ReadManyFilesLoop ReadManyFilesAccounting.
Import Fixture Worlds MoreWorlds.

(** Brings a concatenation into the form [x +:+ (y +:+ ...)] with the
    literal parts merged. *)
Ltac flatten := repeat first [rewrite !append_assoc | progress cbn [String.append]].

Section Facts.
Variable h : Host.
Variable config : Config.

Lemma displayMessage_skipped st :
  skippedFiles st <> [] ->
  includes (displayMessage h config st)
    ("**Skipped " +:+ numberToString (len (skippedFiles st)) +:+ " item(s)") = true.
Proof.
  intros Hskipped. unfold displayMessage.
  assert (Hlen : (len (skippedFiles st) >? 0)%Z = true).
  { destruct (skippedFiles st); [contradiction|]. reflexivity. }
  rewrite Hlen.
  set (mid := "**Skipped " +:+ numberToString (len (skippedFiles st)) +:+ " item(s)").
  set (header := "### ReadManyFiles Result (Target Dir: `" +:+ getTargetDir config +:+ "`)"
                 +:+ nl +:+ nl).
  match goal with
  | |- includes (trim (header +:+ ?P +:+ ?N +:+ ?H +:+ ?L +:+ ?M)) _ = true =>
      set (processedPart := P); set (noFiles := N); set (lines := L); set (more := M)
  end.
  assert (Hshape : exists tail,
    (if (len (skippedFiles st) <=? 5)%Z
     then nl +:+ "**Skipped " +:+ numberToString (len (skippedFiles st)) +:+ " item(s):**" +:+ nl
     else nl +:+ "**Skipped " +:+ numberToString (len (skippedFiles st)) +:+
          " item(s) (first 5 shown):**" +:+ nl) = nl +:+ mid +:+ tail).
  { unfold mid. destruct (_ <=? 5)%Z; eexists; flatten; reflexivity. }
  destruct Hshape as [tail ->].
  replace (header +:+ processedPart +:+ noFiles +:+ (nl +:+ mid +:+ tail) +:+ lines +:+ more)
    with ((header +:+ processedPart +:+ noFiles +:+ nl) +:+ mid +:+ (tail +:+ lines +:+ more))
    by (rewrite !append_assoc; reflexivity).
  apply (includes_trim _ _ _ "*"%char ")"%char); try reflexivity.
  - eexists. unfold mid. cbn [String.append list_ascii_of_string]. reflexivity.
  - eexists. unfold mid. rewrite !list_of_append, !rev_app_distr. cbn. reflexivity.
Qed.

Lemma displayMessage_processed st :
  processedFilesRelativePaths st <> [] ->
  includes (displayMessage h config st)
    ("content from **" +:+ numberToString (len (processedFilesRelativePaths st)) +:+
     " file(s)**") = true.
Proof.
  intros Hprocessed. unfold displayMessage.
  assert (Hlen : (len (processedFilesRelativePaths st) >? 0)%Z = true).
  { destruct (processedFilesRelativePaths st); [contradiction|]. reflexivity. }
  rewrite Hlen.
  set (mid := "content from **" +:+
              numberToString (len (processedFilesRelativePaths st)) +:+ " file(s)**").
  match goal with
  | |- includes (trim ((?a +:+ ?target +:+ ?b) +:+
                       (?c +:+ ?n +:+ ?d +:+ ?T) +:+ ?S)) _ = true =>
      replace ((a +:+ target +:+ b) +:+ (c +:+ n +:+ d +:+ T) +:+ S)
        with ((a +:+ target +:+ b +:+ "Successfully read and concatenated ") +:+
              mid +:+ (T +:+ S))
        by (unfold mid; flatten; reflexivity)
  end.
  apply (includes_trim _ _ _ "c"%char "*"%char); try reflexivity.
  - eexists. unfold mid. cbn [String.append list_ascii_of_string]. reflexivity.
  - eexists. unfold mid. rewrite !list_of_append, !rev_app_distr. cbn. reflexivity.
Qed.

Variable params : ReadManyFilesParams.

(** A part is pushed together with the path of its file. *)
Lemma addContent_pairs n st filePath rel r :
  len (processedFilesRelativePaths st) = len (contentParts st) ->
  len (processedFilesRelativePaths (fst (addContent config n st filePath rel r))) =
  len (contentParts (fst (addContent config n st filePath rel r))).
Proof.
  intros Hst. unfold addContent.
  destruct (FileUtils.llmContent r); [destruct (_ >? _)%Z;
    [destruct (truncateMode config); [| destruct (_ >? _)%Z |]|]|destruct (_ >? _)%Z];
    cbn [fst skip accept processedFilesRelativePaths contentParts];
    rewrite ?len_app; unfold len in *; cbn [List.length]; lia.
Qed.

Lemma processFile_pairs n st filePath :
  len (processedFilesRelativePaths st) = len (contentParts st) ->
  len (processedFilesRelativePaths (fst (processFile h config params n st filePath))) =
  len (contentParts (fst (processFile h config params n st filePath))).
Proof.
  intros Hst. unfold processFile.
  destruct (stat h filePath) as [message|size]; [exact Hst|].
  destruct (size >? fileSizeLimit config)%Z; [exact Hst|].
  destruct (isAsset _ && negb _); [exact Hst|].
  destruct (truthy _); [exact Hst|].
  now apply addContent_pairs.
Qed.

Lemma fileLoop_pairs n files : forall st,
  len (processedFilesRelativePaths st) = len (contentParts st) ->
  len (processedFilesRelativePaths (fileLoop h config params n files st)) =
  len (contentParts (fileLoop h config params n files st)).
Proof.
  induction files as [|filePath files IH]; intros st Hst; cbn [fileLoop]; [assumption|].
  pose proof (processFile_pairs n st filePath Hst) as Hp.
  destruct (processFile h config params n st filePath) as [st' nx]. cbn [fst] in Hp.
  destruct nx; [now apply IH|assumption].
Qed.

End Facts.

(** X24.  When a call returns parts and its skip log is not empty, the
    summary for the user says how many items were skipped. *)
Theorem skipped_items_are_surfaced h config params r parts :
  run h config params = Returns r ->
  llmContent (result r) = Parts parts ->
  skipLog r <> [] ->
  includes (returnDisplay (result r))
    ("**Skipped " +:+ numberToString (len (skipLog r)) +:+ " item(s)") = true.
Proof.
  unfold run.
  destruct (validateParams h params); [intros [= <-]; discriminate|].
  destruct (_ =? 0)%Z; [intros [= <-]; discriminate|].
  destruct (globWorkspace _ _ _ _ _) as [message|entries]; [intros [= <-]; discriminate|].
  destruct (checkFileCount _ _ _) as [[r'|files skipped]|e|] eqn:Hc; try discriminate.
  - intros [= <-]. apply checkFileCount_warn in Hc as (-> & _). discriminate.
  - intros [= <-] _. cbn [result returnDisplay skipLog]. apply displayMessage_skipped.
Qed.

Lemma skipped_items_are_surfaced_witness :
  exists r,
    run escaping (config defaults) (request ["*.txt"]) = Returns r /\
    List.length (skipLog r) = 1%nat /\
    includes (returnDisplay (result r)) "**Skipped 1 item(s)" = true.
Proof.
  eexists. split; [vm_compute; reflexivity|]. split; [reflexivity|].
  apply (skipped_items_are_surfaced escaping (config defaults) (request ["*.txt"]) _ _
           eq_refl eq_refl).
  discriminate.
Defined.

(** X25.  When a call returns parts read from files, the summary for the
    user names their number: as many files are announced as parts are
    returned. *)
Theorem summary_counts_the_parts h config params r parts :
  run h config params = Returns r ->
  llmContent (result r) = Parts parts ->
  parts = [FileUtils.Text nothingFound] \/
  includes (returnDisplay (result r))
    ("content from **" +:+ numberToString (len parts) +:+ " file(s)**") = true.
Proof.
  unfold run.
  destruct (validateParams h params); [intros [= <-]; discriminate|].
  destruct (_ =? 0)%Z; [intros [= <-]; discriminate|].
  destruct (globWorkspace _ _ _ _ _) as [message|entries]; [intros [= <-]; discriminate|].
  destruct (checkFileCount _ _ _) as [[r'|files skipped]|e|] eqn:Hc; try discriminate.
  - intros [= <-]. apply checkFileCount_warn in Hc as (-> & _). discriminate.
  - intros [= <-] [= <-]. cbn [result returnDisplay]. unfold finalContent.
    pose proof (fileLoop_pairs h config params (len files) files (initialState skipped)
                  eq_refl) as Hpairs.
    destruct (_ =? 0)%Z eqn:Hnone; [now left|right].
    rewrite <- Hpairs. apply displayMessage_processed.
    intros Hnil. rewrite Hnil in Hpairs. rewrite <- Hpairs in Hnone. discriminate.
Qed.

Lemma summary_counts_the_parts_witness :
  exists r,
    run escaping (config defaults) (request ["*.txt"]) = Returns r /\
    List.length (fileParts (result r)) = 2%nat /\
    includes (returnDisplay (result r)) "content from **2 file(s)**" = true.
Proof.
  eexists. split; [vm_compute; reflexivity|]. split; [reflexivity|].
  destruct (summary_counts_the_parts escaping (config defaults) (request ["*.txt"]) _ _
              eq_refl eq_refl) as [Hnone|Hshown].
  - discriminate Hnone.
  - exact Hshown.
Defined.

End ReadManyFilesSummary.

Module ReadManyFilesFailures.

Import Js JsFacts StringFacts ReadManyFiles ReadManyFilesDesign ReadManyFilesAccounting.
Import Fixture Worlds MoreWorlds.

(** X26.  Inline data (an image or a PDF) that does not fit the token budget
    is skipped and the loop goes on, in every mode: the warn and truncate
    modes, which stop at a text that does not fit, do not stop here. *)
Theorem inline_data_over_budget_is_skipped h config params n st filePath rest size part :
  stat h filePath = inr size ->
  (size <= fileSizeLimit config)%Z ->
  isAsset (detectFileType h filePath) && negb (requestedExplicitly params filePath) = false ->
  truthy (FileUtils.error (processSingleFileContent h filePath (getTargetDir config))) = false ->
  FileUtils.llmContent (processSingleFileContent h filePath (getTargetDir config))
    = FileUtils.Inline part ->
  (totalTokens st + 85 > maxTokens config)%Z ->
  fileLoop h config params n (filePath :: rest) st =
    fileLoop h config params n rest
      {| totalTokens := totalTokens st;
         contentParts := contentParts st;
         processedFilesRelativePaths := processedFilesRelativePaths st;
         skippedFiles :=
           skippedFiles st ++
           [ {| path := backslashesToSlashes (relative h (getTargetDir config) filePath);
                reason := "would exceed token limit (non-text content)" |} ];
         fsCalls :=
           fsCalls st ++
           [Stat filePath; DetectFileType filePath; ProcessSingleFileContent filePath] |}.
Proof.
  intros Hstat Hsize Hasset Herror Hinline Hover. cbn [fileLoop]. unfold processFile.
  rewrite Hstat, Hasset, Herror.
  destruct (Z.gtb_spec size (fileSizeLimit config)); [lia|].
  unfold addContent. rewrite Hinline. cbn [totalTokens called].
  apply Z.gt_lt, Z.gtb_lt in Hover. rewrite Hover.
  unfold skip, called. cbn. now rewrite <- !app_assoc.
Qed.

(** Under a limit of 50 tokens in warn mode: the picture after [a.txt]
    does not fit and is skipped, and [z.txt] after it is still read. *)
Lemma inline_data_over_budget_is_skipped_witness :
  exists st,
    st = fileLoop gallery (config (settings 50 50 Warn)) (request ["*.png"; "*.txt"]) 3
           ["/ws/a.txt"] (initialState []) /\
    totalTokens st = 7%Z /\
    skippedFiles
      (fileLoop gallery (config (settings 50 50 Warn)) (request ["*.png"; "*.txt"]) 3
         ["/ws/pic.PNG"; "/ws/z.txt"] st) =
      [ {| path := "pic.PNG"; reason := "would exceed token limit (non-text content)" |} ] /\
    processedFilesRelativePaths
      (fileLoop gallery (config (settings 50 50 Warn)) (request ["*.png"; "*.txt"]) 3
         ["/ws/pic.PNG"; "/ws/z.txt"] st) = ["a.txt"; "z.txt"].
Proof.
  eexists. split; [reflexivity|]. split; [vm_compute; reflexivity|].
  rewrite (inline_data_over_budget_is_skipped gallery (config (settings 50 50 Warn))
             (request ["*.png"; "*.txt"]) 3
             (fileLoop gallery (config (settings 50 50 Warn)) (request ["*.png"; "*.txt"]) 3
                ["/ws/a.txt"] (initialState []))
             "/ws/pic.PNG" ["/ws/z.txt"] 12
             {| FileUtils.mimeType := "image/png"; FileUtils.data := "iVBORw0KGgo=" |}
             eq_refl ltac:(vm_compute; discriminate) eq_refl eq_refl eq_refl
             ltac:(vm_compute; reflexivity)).
  split; vm_compute; reflexivity.
Defined.

Section Content.
Variable h : Host.
Variable config : Config.
Variable params : ReadManyFilesParams.

(** The number of files that the loop is told shows in the text of a
    skip record only. *)
Lemma processFile_content n n' st st' filePath :
  sameContent st st' ->
  sameContent (fst (processFile h config params n st filePath))
              (fst (processFile h config params n' st' filePath)) /\
  snd (processFile h config params n st filePath) =
  snd (processFile h config params n' st' filePath).
Proof.
  intros (Ht & Hc & Hp). unfold processFile, addContent, sameContent.
  destruct (stat h filePath) as [message|size]; [cbn; auto|].
  destruct (_ >? _)%Z; [cbn; auto|].
  destruct (_ && _); [cbn; auto|].
  destruct (truthy _); [cbn; auto|].
  destruct (FileUtils.llmContent _) as [text|part]; cbn [totalTokens called];
    rewrite <- Ht.
  - destruct (_ >? _)%Z.
    + destruct (truncateMode config); [cbn; auto| |cbn; auto].
      destruct (_ >? 100)%Z; cbn; rewrite ?Hc, ?Hp; auto.
    + cbn; rewrite ?Hc, ?Hp; auto.
  - destruct (_ >? _)%Z; cbn; rewrite ?Hc, ?Hp; auto.
Qed.

Lemma fileLoop_content n n' files : forall st st',
  sameContent st st' ->
  sameContent (fileLoop h config params n files st) (fileLoop h config params n' files st').
Proof.
  induction files as [|f files IH]; intros st st' Hs; cbn [fileLoop]; [exact Hs|].
  destruct (processFile_content n n' st st' f Hs) as [H1 H2].
  destruct (processFile h config params n st f) as [s1 n1],
           (processFile h config params n' st' f) as [s2 n2].
  cbn in H1, H2. subst n2. destruct n1; [now apply IH|exact H1].
Qed.

End Content.

(** X27.  A file that the loop rejects (its [stat] fails, it is too large,
    it is an asset that was not asked for, or its read fails) gets one
    record in the skip log under its relative path and does not stop the
    loop; the tokens counted, the parts and the processed paths at the end
    of the loop are those of the loop over the other files, whatever the
    number of files that this loop is told. *)
Theorem rejected_file_is_passed_over h config params n n' before filePath after st :
  rejected h config params filePath = true ->
  (forall st0,
     snd (processFile h config params n st0 filePath) = Continue /\
     sameContent (fst (processFile h config params n st0 filePath)) st0 /\
     exists reason,
       skippedFiles (fst (processFile h config params n st0 filePath)) =
       skippedFiles st0 ++
       [ {| path := backslashesToSlashes (relative h (getTargetDir config) filePath);
            reason := reason |} ]) /\
  sameContent (fileLoop h config params n (before ++ filePath :: after) st)
              (fileLoop h config params n' (before ++ after) st).
Proof.
  intros Hrejected.
  assert (Hturn : forall st0,
    snd (processFile h config params n st0 filePath) = Continue /\
    sameContent (fst (processFile h config params n st0 filePath)) st0 /\
    exists reason,
      skippedFiles (fst (processFile h config params n st0 filePath)) =
      skippedFiles st0 ++
      [ {| path := backslashesToSlashes (relative h (getTargetDir config) filePath);
           reason := reason |} ]).
  { intros st0. unfold rejected in Hrejected. unfold processFile.
    destruct (stat h filePath) as [message|size].
    { cbn. repeat split. eauto. }
    destruct (size >? fileSizeLimit config)%Z.
    { cbn. repeat split. eauto. }
    destruct (isAsset _ && negb _).
    { cbn. repeat split. eauto. }
    cbn [orb] in Hrejected. rewrite Hrejected. cbn. repeat split. eauto. }
  split; [exact Hturn|].
  assert (Hloop : forall st1 st2, sameContent st1 st2 ->
    sameContent (fileLoop h config params n (before ++ filePath :: after) st1)
                (fileLoop h config params n' (before ++ after) st2)).
  { induction before as [|q before IH]; intros st1 st2 Hs; cbn [app fileLoop].
    - destruct (Hturn st1) as (Hnext & (Ht & Hc & Hp) & _).
      destruct (processFile h config params n st1 filePath) as [st' nx].
      cbn [fst snd] in *. subst nx.
      apply fileLoop_content. destruct Hs as (Ht' & Hc' & Hp').
      repeat split; congruence.
    - destruct (processFile_content h config params n n' st1 st2 q Hs) as [H1 H2].
      destruct (processFile h config params n st1 q) as [s1 n1],
               (processFile h config params n' st2 q) as [s2 n2].
      cbn in H1, H2. subst n2. destruct n1; [now apply IH|exact H1]. }
  apply Hloop. repeat split.
Qed.

(** In the world [unreadable], where [/ws/b.txt] cannot be opened: the
    content is that of [/ws/a.txt], as without [/ws/b.txt]. *)
Lemma rejected_file_is_passed_over_witness :
  rejected unreadable (config defaults) (request ["*.txt"]) "/ws/b.txt" = true /\
  contentParts
    (fileLoop unreadable (config defaults) (request ["*.txt"]) 2 ["/ws/b.txt"; "/ws/a.txt"]
       (initialState [])) =
  contentParts
    (fileLoop unreadable (config defaults) (request ["*.txt"]) 1 ["/ws/a.txt"]
       (initialState [])) /\
  skippedFiles
    (fileLoop unreadable (config defaults) (request ["*.txt"]) 2 ["/ws/b.txt"; "/ws/a.txt"]
       (initialState [])) =
    [ {| path := "b.txt"; reason := "Read error: EACCES: permission denied" |} ].
Proof.
  split; [reflexivity|]. split; [|vm_compute; reflexivity].
  apply (rejected_file_is_passed_over unreadable (config defaults) (request ["*.txt"]) 2 1
           [] "/ws/b.txt" ["/ws/a.txt"] (initialState []) eq_refl).
Defined.

End ReadManyFilesFailures.

Module MemoryDiscoveryProjectRoot.

Import Js JsFacts MemoryDiscovery MemoryDiscoveryDesign MemoryDiscoveryFacts.
Import Fixture Worlds.

Lemma find_levels (f : string -> bool) n : forall d root,
  find f (levels n d) = Some root ->
  exists k,
    root = Nat.iter k Path.dirname d /\
    f root = true /\
    forall j, (j < k)%nat -> f (Nat.iter j Path.dirname d) = false.
Proof.
  induction n as [|n IH]; intros d root; cbn [levels find].
  - destruct (f d) eqn:Hd; [|discriminate]. intros [= <-].
    exists 0%nat. cbn. repeat split; [assumption|lia].
  - destruct (f d) eqn:Hd.
    + intros [= <-]. exists 0%nat. cbn. repeat split; [assumption|lia].
    + intros Hfind. apply IH in Hfind as (k & -> & Hroot & Hbefore).
      exists (S k). rewrite Nat.iter_succ_r. repeat split; [assumption|].
      intros [|j] Hj; [assumption|]. rewrite Nat.iter_succ_r. apply Hbefore. lia.
Qed.

(** X28.  The project root that [findProjectRoot] returns is the start
    directory or one of its ancestors, it holds a [.git] that is a
    directory, and no directory on the way up to it does: a [.git] that is a
    file, or that cannot be examined, does not mark a project root. *)
Theorem project_root_is_nearest_git_directory h startDir root :
  findProjectRoot h startDir = Some (Some root) ->
  lstatIsDirectory h (Path.join [root; ".git"]) = Some true /\
  exists k,
    root = Nat.iter k Path.dirname (resolve h startDir) /\
    forall j, (j < k)%nat ->
      lstatIsDirectory h (Path.join [Nat.iter j Path.dirname (resolve h startDir); ".git"])
        <> Some true.
Proof.
  rewrite findProjectRoot_spec. intros [= Hroot]. unfold projectRootOf in Hroot.
  apply find_levels in Hroot as (k & -> & Hgit & Hbefore).
  assert (Hdir : forall d, hasGit h d = true <->
                           lstatIsDirectory h (Path.join [d; ".git"]) = Some true).
  { intros d. unfold hasGit. destruct (lstatIsDirectory h _) as [[|]|]; split; congruence. }
  split; [now apply Hdir|]. exists k. split; [reflexivity|].
  intros j Hj Hyes. apply Hdir in Hyes. rewrite (Hbefore j Hj) in Hyes. discriminate.
Qed.

Lemma project_root_is_nearest_git_directory_witness :
  findProjectRoot project "/r/p/a/b" = Some (Some "/r/p") /\
  lstatIsDirectory project "/r/p/.git" = Some true /\
  exists k, "/r/p" = Nat.iter k Path.dirname "/r/p/a/b".
Proof.
  split; [reflexivity|].
  destruct (project_root_is_nearest_git_directory project "/r/p/a/b" "/r/p" eq_refl)
    as (Hgit & k & Hk & _).
  split; [exact Hgit|]. exists k. exact Hk.
Defined.

End MemoryDiscoveryProjectRoot.

Module MemoryDiscoveryConfigDir.

Import Js JsFacts MemoryDiscovery MemoryDiscoveryDesign MemoryDiscoveryFacts.
Import Fixture Worlds MoreWorlds.

(** X29.  The upward scan stops before the global configuration directory: a
    scan that starts in that directory finds no file, neither there nor in
    the directories above it. *)
Theorem scan_from_config_directory_finds_nothing h dir home contextFilename :
  resolve h dir = Path.join [resolve h home; LLXPRT_CONFIG_DIR h] ->
  upwardPathsFor h dir home contextFilename = Some [].
Proof.
  intros Hstart. rewrite upwardPathsFor_spec. f_equal.
  unfold upwardMatches, visitedLevels, resolvedHome. rewrite Hstart.
  unfold climbFuel. cbn [levels visited].
  now rewrite String.eqb_refl, orb_true_r.
Qed.

(** In the world [homeFile] the file of the home directory is found from
    a directory beside [.llxprt], and not from [.llxprt] itself. *)
Lemma scan_from_config_directory_finds_nothing_witness :
  upwardPathsFor homeFile "/home/u/work" "/home/u" "LLXPRT.md" = Some ["/home/u/LLXPRT.md"] /\
  upwardPathsFor homeFile "/home/u/.llxprt" "/home/u" "LLXPRT.md" = Some [].
Proof.
  split; [reflexivity|].
  exact (scan_from_config_directory_finds_nothing homeFile "/home/u/.llxprt" "/home/u"
           "LLXPRT.md" eq_refl).
Defined.

End MemoryDiscoveryConfigDir.

(** ** [read_many_files]: paths outside the workspace *)

Module ReadManyFilesWorkspace.

Import Js JsFacts StringFacts TrimFacts ReadManyFiles ReadManyFilesDesign.
Import ReadManyFilesFacts ReadManyFilesLoop ReadManyFilesAccounting.
Import ReadManyFilesSafety ReadManyFilesSummary.
Import Fixture Worlds.






Section Facts.
Variable h : Host.
Variable config : Config.
Variable params : ReadManyFilesParams.







(** With a limit that is not negative the file count check returns, and
    it lets the call go on unless the warn mode stops it. *)
Lemma checkFileCount_proceeds sortedFiles skipped :
  (0 <= maxFileCount config)%Z ->
  truncateMode config <> Warn \/ (len sortedFiles <= maxFileCount config)%Z ->
  exists files' skipped',
    checkFileCount config sortedFiles skipped = Returns (Proceed files' skipped').
Proof.
  intros Hmax Hgo.
  destruct (checkFileCount config sortedFiles skipped) as [[w|files' skipped']|e|] eqn:Hc.
  - apply checkFileCount_warn in Hc as (_ & Hwarn & Hover). destruct Hgo; [contradiction|lia].
  - eauto.
  - exfalso. unfold checkFileCount in Hc.
    destruct (_ >? _)%Z; [|discriminate]. destruct (truncateMode config); try discriminate.
    + destruct (maxFileCount config <? 0)%Z eqn:E; [apply Z.ltb_lt in E; lia|discriminate].
    + destruct (sampleLoop _ _ _ _ _ _); discriminate.
  - exfalso. apply ReadManyFilesTermination.checkFileCount_hangs in Hc as (_ & Hneg & _). lia.
Qed.

End Facts.




(** C2 (amended).  A discovered path outside the workspace is skipped and
    does not abort the invocation.  When the parameters are valid, [glob]
    answers and the limit on the number of files is not negative, the
    call returns; the path has its record in the skip log and no file
    system call is made on it; the candidates for reading are exactly the
    entries within the workspace that the ignore filters let through; and
    the result is the warning of the file count check when the policy is
    [warn] and the candidates exceed the limit, and otherwise the parts
    and the summary that the loop over the files left by the file count
    check produces. *)
Theorem security_violation_is_skipped h config params entries p :
  validateParams h params = None ->
  searchPatterns params <> [] ->
  globWorkspace h config params (getDirectories config) [] = inr entries ->
  In p entries ->
  isPathWithinWorkspace config p = false ->
  (0 <= maxFileCount config)%Z ->
  let sortedFiles := sortedFilesOf h config params entries in
  (forall q, In q sortedFiles <-> In q entries /\ kept h config params entries q = true) /\
  exists r,
    run h config params = Returns r /\
    discovered r = entries /\
    In (securityRecord p) (skipLog r) /\
    Forall (fun c => calledOn c <> p) (calls r) /\
    ((truncateMode config = Warn /\ (len sortedFiles > maxFileCount config)%Z /\
      result r = warnResult config sortedFiles) \/
     ((truncateMode config <> Warn \/ (len sortedFiles <= maxFileCount config)%Z) /\
      aborted (execute h config params) = false /\
      exists files skipped,
        checkFileCount config sortedFiles (skippedAfterDiscovery h config params entries)
          = Returns (Proceed files skipped) /\
        result r =
          {| llmContent :=
               Parts (finalContent
                        (fileLoop h config params (len files) files (initialState skipped)));
             returnDisplay :=
               displayMessage h config
                 (fileLoop h config params (len files) files (initialState skipped)) |})).
Proof.
  intros Hvalid Hpatterns Hglob Hin Hout Hmax sortedFiles.
  split; [intros q; apply sortedFilesOf_In|].
  assert (Hsearch : (len (searchPatterns params) =? 0)%Z = false).
  { destruct (searchPatterns params); [contradiction|reflexivity]. }
  assert (Hcases : (truncateMode config = Warn /\ (len sortedFiles > maxFileCount config)%Z) \/
                   (truncateMode config <> Warn \/ (len sortedFiles <= maxFileCount config)%Z)).
  { destruct (truncateMode config); try (right; left; discriminate).
    destruct (Z_le_gt_dec (len sortedFiles) (maxFileCount config)); auto. }
  assert (Hrun : exists r, run h config params = Returns r /\ discovered r = entries /\
            ((truncateMode config = Warn /\ (len sortedFiles > maxFileCount config)%Z /\
              result r = warnResult config sortedFiles) \/
             ((truncateMode config <> Warn \/ (len sortedFiles <= maxFileCount config)%Z) /\
              aborted (execute h config params) = false /\
              exists files skipped,
                checkFileCount config sortedFiles
                  (skippedAfterDiscovery h config params entries)
                  = Returns (Proceed files skipped) /\
                result r =
                  {| llmContent :=
                       Parts (finalContent
                                (fileLoop h config params (len files) files
                                   (initialState skipped)));
                     returnDisplay :=
                       displayMessage h config
                         (fileLoop h config params (len files) files
                            (initialState skipped)) |}))).
  { unfold execute, run. rewrite Hvalid, Hsearch, Hglob. fold sortedFiles.
    destruct Hcases as [[Hwarn Hover]|Hgo].
    - unfold checkFileCount. rewrite Hwarn.
      apply Z.gt_lt, Z.gtb_lt in Hover as Hover'. rewrite Hover'.
      eexists. split; [reflexivity|]. split; [reflexivity|]. left.
      split; [reflexivity|]. split; [now apply Z.lt_gt|reflexivity].
    - destruct (checkFileCount_proceeds config sortedFiles
                  (skippedAfterDiscovery h config params entries) Hmax Hgo)
        as (files & skipped & Hc).
      rewrite Hc. eexists. split; [reflexivity|]. split; [reflexivity|]. right.
      split; [assumption|]. split; [reflexivity|]. exists files, skipped. auto. }
  destruct Hrun as (r & Hr & Hd & Hresult). exists r.
  destruct (run_within_workspace h config params r Hr) as (Hcalls & _ & Hlog).
  split; [assumption|]. split; [assumption|]. split.
  { apply Hlog; [now rewrite Hd|assumption]. }
  split; [|exact Hresult].
  apply Forall_forall. intros c Hc Heq. apply Hcalls in Hc as [_ Hc].
  rewrite Heq in Hc. congruence.
Qed.

(** In the world [escaping]: the call returns the parts of the two
    workspace files and never touches [/etc/passwd]. *)
Lemma security_violation_is_skipped_witness :
  exists r,
    run escaping (config defaults) (request ["*.txt"]) = Returns r /\
    In (securityRecord "/etc/passwd") (skipLog r) /\
    Forall (fun c => calledOn c <> "/etc/passwd") (calls r) /\
    aborted (execute escaping (config defaults) (request ["*.txt"])) = false.
Proof.
  destruct (security_violation_is_skipped escaping (config defaults) (request ["*.txt"])
              ["/ws/b.txt"; "/etc/passwd"; "/ws/a.txt"] "/etc/passwd"
              eq_refl ltac:(discriminate) eq_refl ltac:(cbn; tauto) eq_refl
              ltac:(vm_compute; discriminate))
    as (_ & r & Hr & _ & Hlog & Hcalls & _).
  exists r. split; [exact Hr|]. split; [exact Hlog|]. split; [exact Hcalls|]. reflexivity.
Defined.

End ReadManyFilesWorkspace.
